(** * multi-worker: scheduler, pipeline runner and dedup cache

    A shallow embedding of the core of the multi-worker task scheduler
    (Go): the content cache and the cache-filtering passes of the scraper,
    feed and filter steps, the step validators, the pipeline runner with
    its execution journal, and the cron scheduler's normalisation, firing
    and manual-trigger paths.  Logging is left out: it changes no state.

    Conventions.
    - A Go [string] is a [string]; a slice is a [list] (a nil slice and an
      empty slice are both [[]], as [len] cannot tell them apart).
    - A Go [map[string]interface{}] is a [gmap string Value].
    - A method with effects takes the state of its receiver and returns
      the new state next to its results; a Go result pair [(v, err)] is a
      Rocq pair whose second component is an [option error] (a sum where
      exactly one of the two is ever set).
    - Collaborators that are not part of the repository (SHA-256, the
      cron library's parser, HTTP sources, the wall clock) are section
      variables. *)

From Stdlib Require Import Ascii.
From stdpp Require Import base strings gmap list sorting pretty.

Set Warnings "-register-all".

(** ** Go errors and dynamic values *)

Module Go.

(** The error values that occur in the core: [fmt.Errorf] without [%w]
    (and errors from libraries) carry a message; [fmt.Errorf] with [%w]
    carries a message and the wrapped error; [filter.SkipPipelineError]
    is a struct with a [Reason]. *)
Inductive error : Type :=
| errorString (msg : string)
| wrapError (msg : string) (err : error)
| SkipPipelineError (Reason : string).

(** [err.Error()] *)
Definition Error (e : error) : string :=
  match e with
  | errorString msg => msg
  | wrapError msg _ => msg
  | SkipPipelineError Reason => "pipeline skipped: " +:+ Reason
  end.

(** [fmt.Errorf(prefix + "%w", err)] *)
Definition Errorf_w (prefix : string) (err : error) : error :=
  wrapError (prefix +:+ Error err) err.

(** [_, ok := err.(filter.SkipPipelineError)]: a type assertion, which
    looks at the dynamic type of [err] itself and not through wrappers. *)
Definition isSkipPipelineError (e : error) : bool :=
  match e with
  | SkipPipelineError _ => true
  | _ => false
  end.

(** [fmt.Sprintf("%d", n)] for a non-negative [int]. *)
Definition Itoa (n : nat) : string := pretty n.

(** The dynamic values a decoded JSON document is made of.  JSON numbers
    decode to [float64]; the core only converts them with [int(l)], so
    they are kept as integers here. *)
Inductive Value : Type :=
| VNil
| VBool (b : bool)
| VNumber (n : Z)
| VString (s : string)
| VArray (vs : list Value)
| VObject (kvs : list (string * Value)).

(** [s, ok := m[key].(string)] and its like: [None] stands for [ok] being
    false, which is the case when the key is absent or holds a value of
    another type. *)
Definition asString (v : option Value) : option string :=
  match v with
  | Some (VString s) => Some s
  | _ => None
  end.

Definition asArray (v : option Value) : option (list Value) :=
  match v with
  | Some (VArray vs) => Some vs
  | _ => None
  end.

Definition asNumber (v : option Value) : option Z :=
  match v with
  | Some (VNumber n) => Some n
  | _ => None
  end.

Definition asBool (v : option Value) : option bool :=
  match v with
  | Some (VBool b) => Some b
  | _ => None
  end.

(** The loop
    [for _, v := range arr { if s, ok := v.(string); ok { out = append(out, s) } }] *)
Fixpoint stringsOf (vs : list Value) : list string :=
  match vs with
  | [] => []
  | VString s :: rest => s :: stringsOf rest
  | _ :: rest => stringsOf rest
  end.

Definition isEmpty (s : string) : bool := bool_decide (s = "").

End Go.

Export Go.

Abbreviation Config := (gmap string Value).
Abbreviation Time := Z.

(** ** Package [model] *)

Module ScrapedItem.
Record t : Type := Build {
  ID : string;
  Title : string;
  Description : string;
  URL : string;
  Source : string;
  Category : string;
  Tags : list string;
  Salary : string;
  Company : string;
  Location : string;
  PostedAt : string;
  Extra : list (string * Value)
}.
End ScrapedItem.

Module RSSItem.
Record t : Type := Build {
  ID : string;
  Title : string;
  Description : string;
  Link : string;
  Source : string;
  PubDate : string;
  Categories : list string;
  Author : string
}.
End RSSItem.

Module model.

(** [ExecutorResult.Data] is an [interface{}]; the core inspects it with
    [== nil] and with type switches over the three types below, every
    other dynamic type falls in the [default] branch. *)
Inductive Data : Type :=
| DataNil
| DataScrapedItems (v : list ScrapedItem.t)
| DataRSSItems (v : list RSSItem.t)
| DataString (v : string)
| DataOther (v : Value).

Record ExecutorResult : Type := {
  Data_ : Data;
  Metadata : gmap string Value;
  ItemCount : Z
}.

Record PipelineStep : Type := {
  Type_ : string;
  Name : string;
  Config_ : option Config      (* [None] is the nil map *)
}.

(** [StepResult.Output] is either the literal text written on early exit
    or the [{item_count, metadata}] summary. *)
Inductive Output : Type :=
| OutputNone
| OutputText (s : string)
| OutputSummary (item_count : Z) (metadata : gmap string Value).

Record StepResult : Type := {
  StepName : string;
  StepType : string;
  Status : string;
  StartedAt : Time;
  FinishedAt : option Time;
  Output_ : Output;
  Error_ : option string
}.

Definition StepResults := list StepResult.

Inductive TaskStatus := TaskStatusEnabled | TaskStatusDisabled | TaskStatusRunning.

Inductive ExecutionStatus :=
| ExecutionStatusPending
| ExecutionStatusRunning
| ExecutionStatusCompleted
| ExecutionStatusFailed.

#[global] Instance TaskStatus_eq_dec : EqDecision TaskStatus.
Proof. solve_decision. Defined.

#[global] Instance ExecutionStatus_eq_dec : EqDecision ExecutionStatus.
Proof. solve_decision. Defined.

Record Task : Type := {
  ID : string;
  TaskName_ : string;
  Description : string;
  Schedule : string;
  TaskStatus_ : TaskStatus;
  Pipeline : list PipelineStep;
  LastRunAt : option Time;
  NextRunAt : option Time;
  CreatedBy : string;
  CreatedAt : Time;
  UpdatedAt : Time
}.

Record Execution : Type := {
  ExecID : string;
  TaskID : string;
  TaskName : string;
  ExecStatus : ExecutionStatus;
  ExecStartedAt : Time;
  ExecFinishedAt : option Time;
  Duration : option Z;
  StepResults_ : StepResults;
  ExecError : option string;
  TriggeredBy : string
}.

End model.

(** ** Package [storage]: the content cache *)

Module storage.

(** The database can fail.  A repository carries the outcomes of its
    upcoming database round trips: [Some err] is a failing round trip,
    [None] (or an exhausted schedule) one that goes through. *)
Definition Faults := list (option error).

Definition roundTrip (fs : Faults) : option error * Faults :=
  match fs with
  | [] => (None, [])
  | f :: fs' => (f, fs')
  end.

(** A row of [content_cache], unique on [(content_hash, task_id)]. *)
Record CacheEntry : Type := {
  content_hash : string;
  source : string;
  task_id : string
}.

(** The calls a client makes on the cache, in the order they are made. *)
Inductive CacheCall : Type :=
| CallExistsForTask (contentHash taskID : string)
| CallAddBatch (hashes : list string) (source taskID : string).

Record CacheRepository : Type := {
  content_cache : list CacheEntry;
  cache_faults : Faults;
  cache_calls : list CacheCall
}.

Definition matches (contentHash taskID : string) (e : CacheEntry) : bool :=
  bool_decide (content_hash e = contentHash) && bool_decide (task_id e = taskID).

(** [SELECT COUNT( * ) FROM content_cache WHERE content_hash = $1 AND task_id = $2] *)
Definition countFor (rows : list CacheEntry) (contentHash taskID : string) : nat :=
  length (List.filter (matches contentHash taskID) rows).

Definition ExistsForTask (r : CacheRepository) (contentHash taskID : string)
  : CacheRepository * (bool * option error) :=
  let '(fault, fs) := roundTrip (cache_faults r) in
  let r' := {| content_cache := content_cache r;
               cache_faults := fs;
               cache_calls := cache_calls r ++ [CallExistsForTask contentHash taskID] |} in
  match fault with
  | Some err => (r', (false, Some (Errorf_w "failed to check task cache: " err)))
  | None => (r', (bool_decide (0 < countFor (content_cache r) contentHash taskID), None))
  end.

(** [INSERT ... ON CONFLICT (content_hash, task_id) DO NOTHING] *)
Definition insertRow (rows : list CacheEntry) (contentHash src taskID : string)
  : list CacheEntry :=
  if bool_decide (0 < countFor rows contentHash taskID) then rows
  else rows ++ [{| content_hash := contentHash; source := src; task_id := taskID |}].

(** The body of the transaction: one statement execution per hash; the
    first failing one aborts. *)
Fixpoint execAll (rows : list CacheEntry) (fs : Faults) (hashes : list string)
    (src taskID : string) : list CacheEntry * Faults * option error :=
  match hashes with
  | [] => (rows, fs, None)
  | hash :: rest =>
      let '(fault, fs') := roundTrip fs in
      match fault with
      | Some err => (rows, fs', Some (Errorf_w "failed to insert hash: " err))
      | None => execAll (insertRow rows hash src taskID) fs' rest src taskID
      end
  end.

(** [AddBatch]: begin, prepare, execute per hash, commit; any failure
    leaves the table as it was (the deferred rollback). *)
Definition AddBatch (r : CacheRepository) (hashes : list string) (src taskID : string)
  : CacheRepository * option error :=
  let calls := cache_calls r ++ [CallAddBatch hashes src taskID] in
  let unchanged fs := {| content_cache := content_cache r;
                         cache_faults := fs; cache_calls := calls |} in
  let '(fault, fs) := roundTrip (cache_faults r) in
  match fault with
  | Some err => (unchanged fs, Some (Errorf_w "failed to begin transaction: " err))
  | None =>
      let '(fault, fs) := roundTrip fs in
      match fault with
      | Some err => (unchanged fs, Some (Errorf_w "failed to prepare statement: " err))
      | None =>
          let '(rows, fs, failed) := execAll (content_cache r) fs hashes src taskID in
          match failed with
          | Some err => (unchanged fs, Some err)
          | None =>
              let '(fault, fs) := roundTrip fs in
              match fault with
              | Some err => (unchanged fs, Some err)
              | None => ({| content_cache := rows; cache_faults := fs;
                            cache_calls := calls |}, None)
              end
          end
      end
  end.

(** *** The other operations of the cache

    These are not among the recorded calls, which are the two calls of
    the pipeline. *)

(** [SELECT COUNT( * ) FROM content_cache WHERE content_hash = $1], across
    all tasks. *)
Definition Exists (r : CacheRepository) (contentHash : string)
  : CacheRepository * (bool * option error) :=
  let '(fault, fs) := roundTrip (cache_faults r) in
  let r' := {| content_cache := content_cache r; cache_faults := fs;
               cache_calls := cache_calls r |} in
  match fault with
  | Some err => (r', (false, Some (Errorf_w "failed to check cache: " err)))
  | None =>
      (r', (bool_decide
              (0 < length (List.filter (fun e => bool_decide (content_hash e = contentHash))
                                       (content_cache r))), None))
  end.

(** [Add] adds one content hash. *)
Definition Add (r : CacheRepository) (contentHash src taskID : string)
  : CacheRepository * option error :=
  let '(fault, fs) := roundTrip (cache_faults r) in
  match fault with
  | Some err =>
      ({| content_cache := content_cache r; cache_faults := fs;
          cache_calls := cache_calls r |},
       Some (Errorf_w "failed to add to cache: " err))
  | None =>
      ({| content_cache := insertRow (content_cache r) contentHash src taskID;
          cache_faults := fs; cache_calls := cache_calls r |}, None)
  end.

(** [FilterNew] returns only the content hashes that are not in the cache;
    the first failing read ends it with no hashes. *)
Fixpoint FilterNew_loop (r : CacheRepository) (contentHashes : list string)
    (taskID : string) (newHashes : list string)
  : CacheRepository * (list string * option error) :=
  match contentHashes with
  | [] => (r, (newHashes, None))
  | hash :: rest =>
      let '(r, (exists_, err)) := ExistsForTask r hash taskID in
      match err with
      | Some err => (r, ([], Some err))
      | None =>
          if negb exists_
          then FilterNew_loop r rest taskID (newHashes ++ [hash])
          else FilterNew_loop r rest taskID newHashes
      end
  end.

Definition FilterNew (r : CacheRepository) (contentHashes : list string) (taskID : string)
  : CacheRepository * (list string * option error) :=
  if bool_decide (length contentHashes = 0) then (r, ([], None))
  else FilterNew_loop r contentHashes taskID [].

(** [CleanByTask] removes all cache entries of a task. *)
Definition CleanByTask (r : CacheRepository) (taskID : string)
  : CacheRepository * option error :=
  let '(fault, fs) := roundTrip (cache_faults r) in
  match fault with
  | Some err =>
      ({| content_cache := content_cache r; cache_faults := fs;
          cache_calls := cache_calls r |}, Some err)
  | None =>
      ({| content_cache :=
            List.filter (fun e => negb (bool_decide (task_id e = taskID))) (content_cache r);
          cache_faults := fs; cache_calls := cache_calls r |}, None)
  end.

(** [Count] returns the total number of cached entries. *)
Definition Count (r : CacheRepository) : CacheRepository * (nat * option error) :=
  let '(fault, fs) := roundTrip (cache_faults r) in
  let r' := {| content_cache := content_cache r; cache_faults := fs;
               cache_calls := cache_calls r |} in
  match fault with
  | Some err => (r', (0, Some err))
  | None => (r', (length (content_cache r), None))
  end.

(** *** The task table *)

Record TaskRepository : Type := {
  tasks : gmap string model.Task;
  task_faults : Faults
}.

Definition FindTaskByID (r : TaskRepository) (id : string)
  : TaskRepository * (option model.Task * option error) :=
  let '(fault, fs) := roundTrip (task_faults r) in
  let r' := {| tasks := tasks r; task_faults := fs |} in
  match fault with
  | Some err => (r', (None, Some (Errorf_w "failed to find task: " err)))
  | None => (r', (tasks r !! id, None))
  end.

(** An [UPDATE tasks SET ... WHERE id = $n]: no row, no change, no error. *)
Definition updateTask (r : TaskRepository) (id : string)
    (f : model.Task -> model.Task) : TaskRepository * option error :=
  let '(fault, fs) := roundTrip (task_faults r) in
  match fault with
  | Some err => ({| tasks := tasks r; task_faults := fs |}, Some err)
  | None => ({| tasks := alter f id (tasks r); task_faults := fs |}, None)
  end.

Definition UpdateStatus (r : TaskRepository) (now : Time) (id : string)
    (status : model.TaskStatus) : TaskRepository * option error :=
  updateTask r id (fun t =>
    {| model.ID := model.ID t; model.TaskName_ := model.TaskName_ t;
       model.Description := model.Description t; model.Schedule := model.Schedule t;
       model.TaskStatus_ := status; model.Pipeline := model.Pipeline t;
       model.LastRunAt := model.LastRunAt t; model.NextRunAt := model.NextRunAt t;
       model.CreatedBy := model.CreatedBy t; model.CreatedAt := model.CreatedAt t;
       model.UpdatedAt := now |}).

Definition UpdateNextRun (r : TaskRepository) (now : Time) (id : string)
    (nextRun : Time) : TaskRepository * option error :=
  updateTask r id (fun t =>
    {| model.ID := model.ID t; model.TaskName_ := model.TaskName_ t;
       model.Description := model.Description t; model.Schedule := model.Schedule t;
       model.TaskStatus_ := model.TaskStatus_ t; model.Pipeline := model.Pipeline t;
       model.LastRunAt := model.LastRunAt t; model.NextRunAt := Some nextRun;
       model.CreatedBy := model.CreatedBy t; model.CreatedAt := model.CreatedAt t;
       model.UpdatedAt := now |}).

Definition UpdateLastRunOnly (r : TaskRepository) (now : Time) (id : string)
    (lastRun : Time) : TaskRepository * option error :=
  updateTask r id (fun t =>
    {| model.ID := model.ID t; model.TaskName_ := model.TaskName_ t;
       model.Description := model.Description t; model.Schedule := model.Schedule t;
       model.TaskStatus_ := model.TaskStatus_ t; model.Pipeline := model.Pipeline t;
       model.LastRunAt := Some lastRun; model.NextRunAt := model.NextRunAt t;
       model.CreatedBy := model.CreatedBy t; model.CreatedAt := model.CreatedAt t;
       model.UpdatedAt := now |}).

(** [FindEnabled]: the query has no [ORDER BY]; the model takes the rows
    in the order of [map_to_list]. *)
Definition FindEnabled (r : TaskRepository)
  : TaskRepository * (list model.Task * option error) :=
  let '(fault, fs) := roundTrip (task_faults r) in
  let r' := {| tasks := tasks r; task_faults := fs |} in
  match fault with
  | Some err => (r', ([], Some (Errorf_w "failed to find enabled tasks: " err)))
  | None =>
      (r', (List.filter (fun t => bool_decide (model.TaskStatus_ t = model.TaskStatusEnabled))
                        (snd <$> map_to_list (tasks r)), None))
  end.

(** *** The execution journal *)

(** The writes a client asks of the journal, in the order they are made. *)
Inductive JournalCall : Type :=
| CallCreate (taskID taskName triggeredBy : string)
| CallUpdateStepResults (id : string) (results : model.StepResults)
| CallComplete (id : string) (results : model.StepResults)
| CallFail (id : string) (results : model.StepResults) (errMsg : string).

Record ExecutionRepository : Type := {
  executions : gmap string model.Execution;
  gen_random_uuid : nat -> string;     (* the ids the database hands out *)
  generated : nat;
  exec_faults : Faults;
  journal : list JournalCall
}.

Definition withJournal (r : ExecutionRepository) (rows : gmap string model.Execution)
    (n : nat) (fs : Faults) (c : JournalCall) : ExecutionRepository :=
  {| executions := rows; gen_random_uuid := gen_random_uuid r; generated := n;
     exec_faults := fs; journal := journal r ++ [c] |}.

Definition Create (r : ExecutionRepository) (now : Time)
    (taskID taskName triggeredBy : string) : ExecutionRepository * (model.Execution + error) :=
  let call := CallCreate taskID taskName triggeredBy in
  let '(fault, fs) := roundTrip (exec_faults r) in
  match fault with
  | Some err =>
      (withJournal r (executions r) (generated r) fs call,
       inr (Errorf_w "failed to create execution: " err))
  | None =>
      let execution :=
        {| model.ExecID := gen_random_uuid r (generated r);
           model.TaskID := taskID; model.TaskName := taskName;
           model.ExecStatus := model.ExecutionStatusRunning;
           model.ExecStartedAt := now; model.ExecFinishedAt := None;
           model.Duration := None; model.StepResults_ := [];
           model.ExecError := None; model.TriggeredBy := triggeredBy |} in
      (withJournal r (<[model.ExecID execution := execution]> (executions r))
                   (S (generated r)) fs call,
       inl execution)
  end.

Definition FindByID (r : ExecutionRepository) (id : string)
  : ExecutionRepository * (option model.Execution * option error) :=
  let '(fault, fs) := roundTrip (exec_faults r) in
  let r' := {| executions := executions r; gen_random_uuid := gen_random_uuid r;
               generated := generated r; exec_faults := fs; journal := journal r |} in
  match fault with
  | Some err => (r', (None, Some (Errorf_w "failed to find execution: " err)))
  | None => (r', (executions r !! id, None))
  end.

Definition setStepResults (results : model.StepResults) (e : model.Execution)
  : model.Execution :=
  {| model.ExecID := model.ExecID e; model.TaskID := model.TaskID e;
     model.TaskName := model.TaskName e; model.ExecStatus := model.ExecStatus e;
     model.ExecStartedAt := model.ExecStartedAt e;
     model.ExecFinishedAt := model.ExecFinishedAt e; model.Duration := model.Duration e;
     model.StepResults_ := results; model.ExecError := model.ExecError e;
     model.TriggeredBy := model.TriggeredBy e |}.

Definition UpdateStepResults (r : ExecutionRepository) (id : string)
    (results : model.StepResults) : ExecutionRepository * option error :=
  let call := CallUpdateStepResults id results in
  let '(fault, fs) := roundTrip (exec_faults r) in
  match fault with
  | Some err => (withJournal r (executions r) (generated r) fs call, Some err)
  | None =>
      (withJournal r (alter (setStepResults results) id (executions r))
                   (generated r) fs call, None)
  end.

(** The [UPDATE] of [Complete] and [Fail]; [Complete] leaves the [error]
    column as it is. *)
Definition finish (status : model.ExecutionStatus) (now : Time) (duration : Z)
    (results : model.StepResults) (errMsg : option string) (e : model.Execution)
  : model.Execution :=
  {| model.ExecID := model.ExecID e; model.TaskID := model.TaskID e;
     model.TaskName := model.TaskName e; model.ExecStatus := status;
     model.ExecStartedAt := model.ExecStartedAt e;
     model.ExecFinishedAt := Some now; model.Duration := Some duration;
     model.StepResults_ := results;
     model.ExecError := match errMsg with Some m => Some m | None => model.ExecError e end;
     model.TriggeredBy := model.TriggeredBy e |}.

(** The common shape of [Complete] and [Fail]: read the row for the
    duration, then update. *)
Definition terminate (r : ExecutionRepository) (now : Time) (id : string)
    (status : model.ExecutionStatus) (results : model.StepResults)
    (errMsg : option string) (call : JournalCall) : ExecutionRepository * option error :=
  let '(r1, (exec, err)) := FindByID r id in
  match err with
  | Some err => (withJournal r1 (executions r1) (generated r1) (exec_faults r1) call, Some err)
  | None =>
      let duration :=
        match exec with
        | Some e => (now - model.ExecStartedAt e)%Z
        | None => 0%Z
        end in
      let '(fault, fs) := roundTrip (exec_faults r1) in
      match fault with
      | Some err => (withJournal r1 (executions r1) (generated r1) fs call, Some err)
      | None =>
          (withJournal r1 (alter (finish status now duration results errMsg) id (executions r1))
                       (generated r1) fs call, None)
      end
  end.

Definition Complete (r : ExecutionRepository) (now : Time) (id : string)
    (results : model.StepResults) : ExecutionRepository * option error :=
  terminate r now id model.ExecutionStatusCompleted results None (CallComplete id results).

Definition Fail (r : ExecutionRepository) (now : Time) (id : string)
    (results : model.StepResults) (errMsg : string) : ExecutionRepository * option error :=
  terminate r now id model.ExecutionStatusFailed results (Some errMsg)
            (CallFail id results errMsg).

End storage.

(** ** Package [scraper]: the web-source executor *)

Module scraper.
Import storage.

(** [Validate]: the config must have a [source] key or a [sources] key. *)
Definition Validate (config : Config) : option error :=
  match config !! "source" with
  | Some _ => None
  | None =>
      match config !! "sources" with
      | Some _ => None
      | None => Some (errorString "scraper requires 'source' or 'sources' in config")
      end
  end.

Section Executor.

(** [CacheRepository.HashContent]: hex of SHA-256. *)
Variable HashContent : string -> string.

(** One pass of the loop of [filterNewItems] per item. *)
Fixpoint filterNewItems_loop (cache : CacheRepository) (items : list ScrapedItem.t)
    (taskID : string) (newItems : list ScrapedItem.t) (newHashes : list string)
  : CacheRepository * (list ScrapedItem.t * list string) :=
  match items with
  | [] => (cache, (newItems, newHashes))
  | item :: rest =>
      let content := ScrapedItem.URL item in
      let content :=
        if isEmpty content then ScrapedItem.ID item +:+ ScrapedItem.Source item
        else content in
      let hash := HashContent content in
      let '(cache, (exists_, err)) := ExistsForTask cache hash taskID in
      if bool_decide (is_Some err) || exists_
      then filterNewItems_loop cache rest taskID newItems newHashes
      else filterNewItems_loop cache rest taskID (newItems ++ [item]) (newHashes ++ [hash])
  end.

(** [filterNewItems] removes items that have been seen before. *)
Definition filterNewItems (cache : CacheRepository) (items : list ScrapedItem.t)
    (taskID : string) : CacheRepository * list ScrapedItem.t :=
  let '(cache, (newItems, newHashes)) := filterNewItems_loop cache items taskID [] [] in
  let cache :=
    if bool_decide (0 < length newHashes)
    then fst (AddBatch cache newHashes "scraper" taskID)
    else cache in
  (cache, newItems).

(** The [Source] interface; [Scrape] talks to the network [Net]. *)
Context {Net : Type}.

Record Source : Type := {
  Name : string;
  Category : string;
  Scrape : Net -> string -> Z -> Net * (list ScrapedItem.t * option error)
}.

Record Registry : Type := { sources : gmap string Source }.

Definition Get (r : Registry) (name : string) : Source + error :=
  match sources r !! name with
  | Some src => inl src
  | None => inr (errorString ("scraper source '" +:+ name +:+ "' not found"))
  end.

(** Go ranges over the map in an unspecified order; the model takes the
    order of [map_to_list]. *)
Definition GetByCategory (r : Registry) (category : string) : list Source :=
  List.filter (fun src => bool_decide (Category src = category))
              (snd <$> map_to_list (sources r)).

(** [strings.Join] *)
Fixpoint Join (elems : list string) (sep : string) : string :=
  match elems with
  | [] => ""
  | [e] => e
  | e :: rest => e +:+ sep +:+ Join rest sep
  end.

Record Executor : Type := {
  registry : Registry;
  cache : option CacheRepository      (* [None] is the nil pointer *)
}.

(** The loop of [Execute] over the source names. *)
Fixpoint scrapeAll (reg : Registry) (cache : option CacheRepository) (net : Net)
    (names : list string) (query : string) (limit : Z) (taskID : string)
    (allItems : list ScrapedItem.t) (errors : list string)
  : option CacheRepository * Net * (list ScrapedItem.t * list string) :=
  match names with
  | [] => (cache, net, (allItems, errors))
  | sourceName :: rest =>
      match Get reg sourceName with
      | inr err =>
          scrapeAll reg cache net rest query limit taskID allItems
                    (errors ++ [sourceName +:+ ": " +:+ Error err])
      | inl src =>
          let '(net, (items, err)) := Scrape src net query limit in
          match err with
          | Some err =>
              scrapeAll reg cache net rest query limit taskID allItems
                        (errors ++ [sourceName +:+ ": " +:+ Error err])
          | None =>
              let '(cache, items) :=
                match cache with
                | Some c =>
                    if negb (isEmpty taskID)
                    then let '(c, items) := filterNewItems c items taskID in (Some c, items)
                    else (cache, items)
                | None => (cache, items)
                end in
              scrapeAll reg cache net rest query limit taskID (allItems ++ items) errors
          end
      end
  end.

Definition Execute (e : Executor) (net : Net) (input : option model.ExecutorResult)
    (config : Config) : Executor * Net * (option model.ExecutorResult * option error) :=
  let query := default "" (asString (config !! "query")) in
  let keywords := default [] (asArray (config !! "keywords")) in
  let query :=
    if bool_decide (0 < length keywords) && isEmpty query
    then Join (stringsOf keywords) " "
    else query in
  let limit := default 10%Z (asNumber (config !! "limit")) in
  let taskID := default "" (asString (config !! "task_id")) in
  let names := match asString (config !! "source") with Some s => [s] | None => [] end in
  let names :=
    match asArray (config !! "sources") with
    | Some arr => names ++ stringsOf arr
    | None => names
    end in
  let names :=
    match asString (config !! "category") with
    | Some category => names ++ (Name <$> GetByCategory (registry e) category)
    | None => names
    end in
  let '(cache, net, (allItems, errors)) :=
    scrapeAll (registry e) (cache e) net names query limit taskID [] [] in
  let metadata : gmap string Value :=
    {[ "sources" := VArray (VString <$> names);
       "query" := VString query;
       "total_items" := VNumber (Z.of_nat (length allItems)) ]} in
  let metadata :=
    if bool_decide (0 < length errors)
    then <["errors" := VArray (VString <$> errors)]> metadata
    else metadata in
  ({| registry := registry e; cache := cache |}, net,
   (Some {| model.Data_ := model.DataScrapedItems allItems;
            model.Metadata := metadata;
            model.ItemCount := Z.of_nat (length allItems) |}, None)).

End Executor.

End scraper.

(** ** Go's [strings] package and slicing

    [HasPrefix], [Contains] and [Join] work on the bytes of a string.  A
    slice expression that is out of range panics: such an expression is
    an [option], with [None] for the panic. *)

Module gostrings.

Fixpoint HasPrefix (s prefix : string) : bool :=
  match prefix, s with
  | EmptyString, _ => true
  | String _ _, EmptyString => false
  | String c prefix', String d s' => bool_decide (c = d) && HasPrefix s' prefix'
  end.

Fixpoint Contains (s substr : string) : bool :=
  HasPrefix s substr
  || match s with
     | EmptyString => false
     | String _ s' => Contains s' substr
     end.

Definition Join (elems : list string) (sep : string) : string := scraper.Join elems sep.

(** [len(s)] *)
Definition len (s : string) : Z := Z.of_nat (String.length s).

(** [s[:n]] *)
Definition sliceTo (s : string) (n : Z) : option string :=
  if bool_decide (0 <= n <= len s)%Z then Some (String.substring 0 (Z.to_nat n) s) else None.

End gostrings.

(** ** Package [rss]: the feed executor *)

Module rss.
Import storage.

Definition Validate (config : Config) : option error :=
  match config !! "url" with
  | Some _ => None
  | None =>
      match config !! "urls" with
      | Some _ => None
      | None => Some (errorString "rss requires 'url' or 'urls' in config")
      end
  end.

(** The structures that [encoding/xml] decodes a feed into. *)
Module rssItem.
Record t : Type := Build {
  Title : string;
  Link : string;
  Description : string;
  PubDate : string;
  GUID : string;
  Author : string;
  Categories : list string
}.
End rssItem.

Module rssChannel.
Record t : Type := Build {
  Title : string;
  Link : string;
  Description : string;
  Items : list rssItem.t
}.
End rssChannel.

Module rssFeed.
Record t : Type := Build { Channel : rssChannel.t }.
End rssFeed.

Module atomLink.
Record t : Type := Build { Href : string; Rel : string }.
End atomLink.

Module atomAuthor.
Record t : Type := Build { Name : string }.
End atomAuthor.

Module atomEntry.
Record t : Type := Build {
  Title : string;
  Link : atomLink.t;
  Summary : string;
  Content : string;
  Updated : string;
  ID : string;
  Author : atomAuthor.t
}.
End atomEntry.

Module atomFeed.
Record t : Type := Build { Title : string; Entries : list atomEntry.t }.
End atomFeed.

(** The answer of the HTTP client: a status code and the outcome of
    reading the body. *)
Record Response : Type := {
  StatusCode : Z;
  Body : string + error
}.

Section Executor.

Variable HashContent : string -> string.

Fixpoint filterNewItems_loop (cache : CacheRepository) (items : list RSSItem.t)
    (taskID : string) (newItems : list RSSItem.t) (newHashes : list string)
  : CacheRepository * (list RSSItem.t * list string) :=
  match items with
  | [] => (cache, (newItems, newHashes))
  | item :: rest =>
      let content := RSSItem.Link item in
      let content := if isEmpty content then RSSItem.ID item else content in
      let hash := HashContent content in
      let '(cache, (exists_, err)) := ExistsForTask cache hash taskID in
      if bool_decide (is_Some err) || exists_
      then filterNewItems_loop cache rest taskID newItems newHashes
      else filterNewItems_loop cache rest taskID (newItems ++ [item]) (newHashes ++ [hash])
  end.

Definition filterNewItems (cache : CacheRepository) (items : list RSSItem.t)
    (taskID : string) : CacheRepository * list RSSItem.t :=
  let '(cache, (newItems, newHashes)) := filterNewItems_loop cache items taskID [] [] in
  let cache :=
    if bool_decide (0 < length newHashes)
    then fst (AddBatch cache newHashes "rss" taskID)
    else cache in
  (cache, newItems).

(** The world outside: [Do] builds the request and sends it (an error
    of either is its error); [stripHTMLTags] drops what stands between
    [<] and [>], rune by rune, and trims the result; the two calls of
    [xml.Unmarshal] decode a body into one of the feed structures. *)
Context {Net : Type}.
Variable Do : Net -> string -> Net * (Response + error).
Variable unmarshalRSS : string -> rssFeed.t + error.
Variable unmarshalAtom : string -> atomFeed.t + error.
Variable stripHTMLTags : string -> string.
Variable ToLower : string -> string.

(** The loop of [convertRSSItems]; [i] is the index of the item. *)
Fixpoint convertRSSItems_loop (items : list rssItem.t) (source : string) (limit i : Z)
    (result : list RSSItem.t) : list RSSItem.t :=
  match items with
  | [] => result
  | item :: rest =>
      if bool_decide (0 < limit)%Z && bool_decide (limit <= i)%Z then result
      else
        let id := rssItem.GUID item in
        let id := if isEmpty id then rssItem.Link item else id in
        convertRSSItems_loop rest source limit (i + 1)
          (result ++ [{| RSSItem.ID := id;
                         RSSItem.Title := rssItem.Title item;
                         RSSItem.Description := stripHTMLTags (rssItem.Description item);
                         RSSItem.Link := rssItem.Link item;
                         RSSItem.Source := source;
                         RSSItem.PubDate := rssItem.PubDate item;
                         RSSItem.Categories := rssItem.Categories item;
                         RSSItem.Author := rssItem.Author item |}])
  end.

Definition convertRSSItems (items : list rssItem.t) (source : string) (limit : Z)
  : list RSSItem.t :=
  convertRSSItems_loop items source limit 0 [].

Fixpoint convertAtomItems_loop (entries : list atomEntry.t) (source : string) (limit i : Z)
    (result : list RSSItem.t) : list RSSItem.t :=
  match entries with
  | [] => result
  | entry :: rest =>
      if bool_decide (0 < limit)%Z && bool_decide (limit <= i)%Z then result
      else
        let description := atomEntry.Summary entry in
        let description :=
          if isEmpty description then atomEntry.Content entry else description in
        convertAtomItems_loop rest source limit (i + 1)
          (result ++ [{| RSSItem.ID := atomEntry.ID entry;
                         RSSItem.Title := atomEntry.Title entry;
                         RSSItem.Description := stripHTMLTags description;
                         RSSItem.Link := atomLink.Href (atomEntry.Link entry);
                         RSSItem.Source := source;
                         RSSItem.PubDate := atomEntry.Updated entry;
                         RSSItem.Categories := [];
                         RSSItem.Author := atomAuthor.Name (atomEntry.Author entry) |}])
  end.

Definition convertAtomItems (entries : list atomEntry.t) (source : string) (limit : Z)
  : list RSSItem.t :=
  convertAtomItems_loop entries source limit 0 [].

Definition fetchFeed (net : Net) (url : string) (limit : Z)
  : Net * (list RSSItem.t * option error) :=
  let '(net, resp) := Do net url in
  match resp with
  | inr err => (net, ([], Some err))
  | inl resp =>
      if negb (bool_decide (StatusCode resp = 200%Z))
      then (net, ([], Some (errorString ("HTTP " +:+ pretty (StatusCode resp)))))
      else
        match Body resp with
        | inr err => (net, ([], Some err))
        | inl body =>
            (* try RSS first *)
            let tryAtom :=
              match unmarshalAtom body with
              | inl atom =>
                  if bool_decide (0 < length (atomFeed.Entries atom))
                  then (net, (convertAtomItems (atomFeed.Entries atom) (atomFeed.Title atom)
                                               limit, None))
                  else (net, ([], Some (errorString "could not parse feed as RSS or Atom")))
              | inr _ => (net, ([], Some (errorString "could not parse feed as RSS or Atom")))
              end in
            match unmarshalRSS body with
            | inl rss =>
                if bool_decide (0 < length (rssChannel.Items (rssFeed.Channel rss)))
                then (net, (convertRSSItems (rssChannel.Items (rssFeed.Channel rss))
                                            (rssChannel.Title (rssFeed.Channel rss)) limit,
                            None))
                else tryAtom
            | inr _ => tryAtom
            end
        end
  end.

(** The loop over the keywords, which stops at the first one the text
    contains; the keywords are lower-cased by [Execute]. *)
Fixpoint containsAny (text : string) (keywords : list string) : bool :=
  match keywords with
  | [] => false
  | keyword :: rest => if gostrings.Contains text keyword then true else containsAny text rest
  end.

Fixpoint filterByKeywords_loop (items : list RSSItem.t) (keywords : list string)
    (filtered : list RSSItem.t) : list RSSItem.t :=
  match items with
  | [] => filtered
  | item :: rest =>
      let text := ToLower (RSSItem.Title item +:+ " " +:+ RSSItem.Description item) in
      if containsAny text keywords
      then filterByKeywords_loop rest keywords (filtered ++ [item])
      else filterByKeywords_loop rest keywords filtered
  end.

Definition filterByKeywords (items : list RSSItem.t) (keywords : list string)
  : list RSSItem.t :=
  filterByKeywords_loop items keywords [].

Record Executor : Type := {
  cache : option CacheRepository      (* [None] is the nil pointer *)
}.

(** The loop
    [for _, k := range kws { if s, ok := k.(string); ok { keywords = append(keywords, strings.ToLower(s)) } }] *)
Fixpoint loweredStrings (vs : list Value) : list string :=
  match vs with
  | [] => []
  | VString s :: rest => ToLower s :: loweredStrings rest
  | _ :: rest => loweredStrings rest
  end.

(** The loop of [Execute] over the feeds. *)
Fixpoint fetchAll (cache : option CacheRepository) (net : Net) (urls : list string)
    (limit : Z) (keywords : list string) (taskID : string)
    (allItems : list RSSItem.t) (errors : list string)
  : option CacheRepository * Net * (list RSSItem.t * list string) :=
  match urls with
  | [] => (cache, net, (allItems, errors))
  | url :: rest =>
      let '(net, (items, err)) := fetchFeed net url limit in
      match err with
      | Some err =>
          fetchAll cache net rest limit keywords taskID allItems
                   (errors ++ [url +:+ ": " +:+ Error err])
      | None =>
          let items :=
            if bool_decide (0 < length keywords) then filterByKeywords items keywords
            else items in
          let '(cache, items) :=
            match cache with
            | Some c =>
                if negb (isEmpty taskID)
                then let '(c, items) := filterNewItems c items taskID in (Some c, items)
                else (cache, items)
            | None => (cache, items)
            end in
          fetchAll cache net rest limit keywords taskID (allItems ++ items) errors
      end
  end.

(** [Execute].  The answer [None] stands for the run-time panic of the
    slice expression [allItems[:limit]], which is evaluated whenever
    [len(allItems) > limit]: its upper bound is then within the slice,
    so it panics exactly when [limit] is negative. *)
Definition Execute (e : Executor) (net : Net) (input : option model.ExecutorResult)
    (config : Config)
  : Executor * Net * option (option model.ExecutorResult * option error) :=
  let urls := match asString (config !! "url") with Some url => [url] | None => [] end in
  let urls :=
    match asArray (config !! "urls") with
    | Some urlsArr => urls ++ stringsOf urlsArr
    | None => urls
    end in
  let limit := default 20%Z (asNumber (config !! "limit")) in
  let keywords :=
    match asArray (config !! "keywords") with
    | Some kws => loweredStrings kws
    | None => []
    end in
  let taskID := default "" (asString (config !! "task_id")) in
  let '(cache, net, (allItems, errors)) :=
    fetchAll (cache e) net urls limit keywords taskID [] [] in
  let e := {| cache := cache |} in
  let limited :=
    if bool_decide (limit < Z.of_nat (length allItems))%Z
    then if bool_decide (0 <= limit)%Z then Some (take (Z.to_nat limit) allItems) else None
    else Some allItems in
  match limited with
  | None => (e, net, None)
  | Some allItems =>
      let metadata : gmap string Value :=
        {[ "feeds" := VArray (VString <$> urls);
           "total_items" := VNumber (Z.of_nat (length allItems)) ]} in
      let metadata :=
        if bool_decide (0 < length errors)
        then <["errors" := VArray (VString <$> errors)]> metadata
        else metadata in
      (e, net,
       Some (Some {| model.Data_ := model.DataRSSItems allItems;
                     model.Metadata := metadata;
                     model.ItemCount := Z.of_nat (length allItems) |}, None))
  end.

End Executor.

End rss.

(** ** Package [filter]: the filter executor *)

Module filter.
Import storage.

Definition Validate (config : Config) : option error := None.

Section Executor.

Variable HashContent : string -> string.

(** The loop of [dedupeScrapedItems]; the error of the cache read is
    discarded ([exists, _ := ...]). *)
Fixpoint dedupeScrapedItems_loop (cache : CacheRepository) (items : list ScrapedItem.t)
    (taskID : string) (unique : list ScrapedItem.t) (hashes : list string)
  : CacheRepository * (list ScrapedItem.t * list string) :=
  match items with
  | [] => (cache, (unique, hashes))
  | item :: rest =>
      let content := ScrapedItem.URL item in
      let content :=
        if isEmpty content then ScrapedItem.ID item +:+ ScrapedItem.Source item
        else content in
      let hash := HashContent content in
      let '(cache, (exists_, _)) := ExistsForTask cache hash taskID in
      if exists_
      then dedupeScrapedItems_loop cache rest taskID unique hashes
      else dedupeScrapedItems_loop cache rest taskID (unique ++ [item]) (hashes ++ [hash])
  end.

Definition dedupeScrapedItems (cache : CacheRepository) (items : list ScrapedItem.t)
    (taskID : string) : CacheRepository * list ScrapedItem.t :=
  let '(cache, (unique, hashes)) := dedupeScrapedItems_loop cache items taskID [] [] in
  let cache :=
    if bool_decide (0 < length hashes)
    then fst (AddBatch cache hashes "filter" taskID)
    else cache in
  (cache, unique).

Fixpoint dedupeRSSItems_loop (cache : CacheRepository) (items : list RSSItem.t)
    (taskID : string) (unique : list RSSItem.t) (hashes : list string)
  : CacheRepository * (list RSSItem.t * list string) :=
  match items with
  | [] => (cache, (unique, hashes))
  | item :: rest =>
      let content := RSSItem.Link item in
      let content := if isEmpty content then RSSItem.ID item else content in
      let hash := HashContent content in
      let '(cache, (exists_, _)) := ExistsForTask cache hash taskID in
      if exists_
      then dedupeRSSItems_loop cache rest taskID unique hashes
      else dedupeRSSItems_loop cache rest taskID (unique ++ [item]) (hashes ++ [hash])
  end.

Definition dedupeRSSItems (cache : CacheRepository) (items : list RSSItem.t)
    (taskID : string) : CacheRepository * list RSSItem.t :=
  let '(cache, (unique, hashes)) := dedupeRSSItems_loop cache items taskID [] [] in
  let cache :=
    if bool_decide (0 < length hashes)
    then fst (AddBatch cache hashes "filter" taskID)
    else cache in
  (cache, unique).

(** [strings.ToLower], which maps Unicode letters. *)
Variable ToLower : string -> string.

(** [getStringSlice] reads a list of strings from a key that holds an
    array (its string elements) or a single non-empty string. *)
Definition getStringSlice (config : Config) (key : string) : list string :=
  let result :=
    match asArray (config !! key) with
    | Some arr => stringsOf arr
    | None => []
    end in
  match asString (config !! key) with
  | Some s => if negb (isEmpty s) then result ++ [s] else result
  | None => result
  end.

(** The loop over keywords that stops at the first one the text
    contains. *)
Fixpoint containsAny (text : string) (keywords : list string) : bool :=
  match keywords with
  | [] => false
  | keyword :: rest =>
      if gostrings.Contains text (ToLower keyword) then true else containsAny text rest
  end.

Fixpoint filterScrapedItems_loop (items : list ScrapedItem.t) (include exclude : list string)
    (filtered : list ScrapedItem.t) : list ScrapedItem.t :=
  match items with
  | [] => filtered
  | item :: rest =>
      let text :=
        ToLower (ScrapedItem.Title item +:+ " " +:+ ScrapedItem.Description item +:+ " "
                 +:+ gostrings.Join (ScrapedItem.Tags item) " ") in
      (* check exclude first *)
      if containsAny text exclude then filterScrapedItems_loop rest include exclude filtered
      else if bool_decide (0 < length include) && negb (containsAny text include)
           then filterScrapedItems_loop rest include exclude filtered
           else filterScrapedItems_loop rest include exclude (filtered ++ [item])
  end.

Definition filterScrapedItems (items : list ScrapedItem.t) (include exclude : list string)
  : list ScrapedItem.t :=
  if bool_decide (length include = 0) && bool_decide (length exclude = 0) then items
  else filterScrapedItems_loop items include exclude [].

Fixpoint filterRSSItems_loop (items : list RSSItem.t) (include exclude : list string)
    (filtered : list RSSItem.t) : list RSSItem.t :=
  match items with
  | [] => filtered
  | item :: rest =>
      let text := ToLower (RSSItem.Title item +:+ " " +:+ RSSItem.Description item) in
      if containsAny text exclude then filterRSSItems_loop rest include exclude filtered
      else if bool_decide (0 < length include) && negb (containsAny text include)
           then filterRSSItems_loop rest include exclude filtered
           else filterRSSItems_loop rest include exclude (filtered ++ [item])
  end.

Definition filterRSSItems (items : list RSSItem.t) (include exclude : list string)
  : list RSSItem.t :=
  if bool_decide (length include = 0) && bool_decide (length exclude = 0) then items
  else filterRSSItems_loop items include exclude [].

Record Executor : Type := {
  cache : option CacheRepository      (* [None] is the nil pointer *)
}.

(** [items[:limit]] under the guard [limit > 0 && len(items) > limit]. *)
Definition truncated {A : Type} (items : list A) (limit : Z) : list A :=
  if bool_decide (0 < limit)%Z && bool_decide (limit < Z.of_nat (length items))%Z
  then take (Z.to_nat limit) items
  else items.

Definition Execute (e : Executor) (input : option model.ExecutorResult) (config : Config)
  : Executor * (option model.ExecutorResult * option error) :=
  match input with
  | None => (e, (input, None))
  | Some inp =>
      let includeKeywords := getStringSlice config "include_keywords" in
      let excludeKeywords := getStringSlice config "exclude_keywords" in
      let dedupe := default false (asBool (config !! "deduplicate")) in
      let taskID := default "" (asString (config !! "task_id")) in
      let limit := default 0%Z (asNumber (config !! "limit")) in
      match model.Data_ inp with
      | model.DataScrapedItems v =>
          let items := filterScrapedItems v includeKeywords excludeKeywords in
          let '(cache', items) :=
            match cache e with
            | Some c =>
                if dedupe && negb (isEmpty taskID)
                then let '(c, items) := dedupeScrapedItems c items taskID in (Some c, items)
                else (cache e, items)
            | None => (cache e, items)
            end in
          let items := truncated items limit in
          ({| cache := cache' |},
           (Some {| model.Data_ := model.DataScrapedItems items;
                    model.Metadata := model.Metadata inp;
                    model.ItemCount := Z.of_nat (length items) |}, None))
      | model.DataRSSItems v =>
          let items := filterRSSItems v includeKeywords excludeKeywords in
          let '(cache', items) :=
            match cache e with
            | Some c =>
                if dedupe && negb (isEmpty taskID)
                then let '(c, items) := dedupeRSSItems c items taskID in (Some c, items)
                else (cache e, items)
            | None => (cache e, items)
            end in
          let items := truncated items limit in
          ({| cache := cache' |},
           (Some {| model.Data_ := model.DataRSSItems items;
                    model.Metadata := model.Metadata inp;
                    model.ItemCount := Z.of_nat (length items) |}, None))
      | _ => (e, (input, None))
      end
  end.

End Executor.

(** [SkipEmpty] checks if results should be skipped (empty). *)
Definition SkipEmpty (result : option model.ExecutorResult) : bool :=
  match result with
  | None => true
  | Some r =>
      match model.Data_ r with
      | model.DataNil => true
      | model.DataScrapedItems v => bool_decide (length v = 0)
      | model.DataRSSItems v => bool_decide (length v = 0)
      | model.DataString v => isEmpty v
      | model.DataOther _ => false
      end
  end.

Definition NewSkipPipelineError (reason : string) : error := SkipPipelineError reason.

End filter.

(** ** Packages [ai] and [discord]: the validators *)

Module ai.

Definition Validate (config : Config) : option error :=
  match config !! "prompt" with
  | Some _ => None
  | None => Some (errorString "ai_processor requires 'prompt' in config")
  end.

End ai.

Module discord.

(** The webhook is resolved at run time, nothing is checked here. *)
Definition Validate (config : Config) : option error := None.

(** The message structures of package [model]. *)
Module DiscordEmbedField.
Record t : Type := Build { Name : string; Value : string; Inline : bool }.
End DiscordEmbedField.

Module DiscordEmbedFooter.
Record t : Type := Build { Text : string; IconURL : string }.
End DiscordEmbedFooter.

Module DiscordEmbed.
Record t : Type := Build {
  Title : string;
  Description : string;
  URL : string;
  Color : Z;
  Fields : list DiscordEmbedField.t;
  Footer : option DiscordEmbedFooter.t;
  Timestamp : string
}.
End DiscordEmbed.

Module DiscordMessage.
Record t : Type := Build {
  Content : string;
  Embeds : list DiscordEmbed.t;
  Username : string;
  AvatarURL : string
}.
End DiscordMessage.

(** In this package a slice expression that is out of range is a panic:
    the functions that slice answer an [option], [None] for the panic. *)

Definition truncate (s : string) (maxLen : Z) : option string :=
  if bool_decide (gostrings.len s <= maxLen)%Z then Some s
  else
    match gostrings.sliceTo s (maxLen - 3) with
    | Some head => Some (head +:+ "...")
    | None => None
    end.

Definition maskWebhook (url : string) : option string :=
  if bool_decide (gostrings.len url < 20)%Z then Some "***"
  else
    match gostrings.sliceTo url 30 with
    | Some head => Some (head +:+ "***")
    | None => None
    end.

(** [if len(content) > 2000 { content = content[:1997] + "..." }] *)
Definition cut (content : string) : option string :=
  if bool_decide (2000 < gostrings.len content)%Z then
    match gostrings.sliceTo content 1997 with
    | Some head => Some (head +:+ "...")
    | None => None
    end
  else Some content.

Section Executor.

(** The libraries: [time.Parse] with a layout and [Format(time.RFC3339)];
    [text/template] (parse and execute); [json.MarshalIndent], whose
    error is dropped; [json.Marshal] of a message. *)
Context {T : Type}.
Variable time_Parse : string -> string -> option T.
Variable Format_RFC3339 : T -> string.
Variable executeTemplate : string -> model.Data -> string + error.
Variable MarshalIndent : model.Data -> string.
Variable Marshal : DiscordMessage.t -> string + error.

(** The network and the clock: [Do] builds the POST request and sends it
    (an error of either is its error) and answers the status code and the
    body; [Now] is [time.Now()]; [Sleep] waits. *)
Context {Net : Type}.
Variable Do : Net -> string -> string -> Net * ((Z * string) + error).
Variable Now : Net -> Time.
Variable Sleep : Net -> Z -> Net.

Fixpoint parseAndFormatDate_loop (formats : list string) (dateStr : string) : string :=
  match formats with
  | [] => ""
  | format :: rest =>
      match time_Parse format dateStr with
      | Some t => Format_RFC3339 t
      | None => parseAndFormatDate_loop rest dateStr
      end
  end.

Definition parseAndFormatDate (dateStr : string) : string :=
  parseAndFormatDate_loop
    ["Mon, 02 Jan 2006 15:04:05 MST";        (* time.RFC1123 *)
     "Mon, 02 Jan 2006 15:04:05 -0700";      (* time.RFC1123Z *)
     "2006-01-02T15:04:05Z07:00";            (* time.RFC3339 *)
     "Mon, 02 Jan 2006 15:04:05 -0700";
     "2006-01-02T15:04:05Z"] dateStr.

Definition field (name value : string) (inline : bool) : DiscordEmbedField.t :=
  {| DiscordEmbedField.Name := name; DiscordEmbedField.Value := value;
     DiscordEmbedField.Inline := inline |}.

(** The fields of the embed of a scraped item. *)
Definition fieldsOf (item : ScrapedItem.t) : list DiscordEmbedField.t :=
  let fields := [] in
  let fields :=
    if negb (isEmpty (ScrapedItem.Company item))
    then fields ++ [field "Company" (ScrapedItem.Company item) true] else fields in
  let fields :=
    if negb (isEmpty (ScrapedItem.Salary item))
    then fields ++ [field "Salary" (ScrapedItem.Salary item) true] else fields in
  let fields :=
    if negb (isEmpty (ScrapedItem.Location item))
    then fields ++ [field "Location" (ScrapedItem.Location item) true] else fields in
  if bool_decide (0 < length (ScrapedItem.Tags item))
  then fields ++ [field "Tags" (gostrings.Join (ScrapedItem.Tags item) ", ") false]
  else fields.

(** The two loops of [createEmbeds]; [i] is the index of the item. *)
Fixpoint scrapedEmbeds (items : list ScrapedItem.t) (color : Z) (i : Z)
    (embeds : list DiscordEmbed.t) : option (list DiscordEmbed.t) :=
  match items with
  | [] => Some embeds
  | item :: rest =>
      if bool_decide (10 <= i)%Z then Some embeds      (* Discord limit *)
      else
        match truncate (ScrapedItem.Title item) 256,
              truncate (ScrapedItem.Description item) 4096 with
        | Some title, Some description =>
            scrapedEmbeds rest color (i + 1)
              (embeds ++ [{| DiscordEmbed.Title := title;
                             DiscordEmbed.Description := description;
                             DiscordEmbed.URL := ScrapedItem.URL item;
                             DiscordEmbed.Color := color;
                             DiscordEmbed.Fields := fieldsOf item;
                             DiscordEmbed.Footer :=
                               Some {| DiscordEmbedFooter.Text := ScrapedItem.Source item;
                                       DiscordEmbedFooter.IconURL := "" |};
                             DiscordEmbed.Timestamp := "" |}])
        | _, _ => None
        end
  end.

Fixpoint feedEmbeds (items : list RSSItem.t) (color : Z) (i : Z)
    (embeds : list DiscordEmbed.t) : option (list DiscordEmbed.t) :=
  match items with
  | [] => Some embeds
  | item :: rest =>
      if bool_decide (10 <= i)%Z then Some embeds
      else
        match truncate (RSSItem.Title item) 256,
              truncate (RSSItem.Description item) 4096 with
        | Some title, Some description =>
            feedEmbeds rest color (i + 1)
              (embeds ++ [{| DiscordEmbed.Title := title;
                             DiscordEmbed.Description := description;
                             DiscordEmbed.URL := RSSItem.Link item;
                             DiscordEmbed.Color := color;
                             DiscordEmbed.Fields := [];
                             DiscordEmbed.Footer :=
                               Some {| DiscordEmbedFooter.Text := RSSItem.Source item;
                                       DiscordEmbedFooter.IconURL := "" |};
                             DiscordEmbed.Timestamp :=
                               if negb (isEmpty (RSSItem.PubDate item))
                               then parseAndFormatDate (RSSItem.PubDate item) else "" |}])
        | _, _ => None
        end
  end.

Definition createEmbeds (data : model.Data) (color : Z)
  : option (list DiscordEmbed.t + error) :=
  match data with
  | model.DataScrapedItems v => inl <$> scrapedEmbeds v color 0 []
  | model.DataRSSItems v => inl <$> feedEmbeds v color 0 []
  | _ => Some (inr (errorString "unsupported data type for embeds"))
  end.

Definition formatMessage (input : model.ExecutorResult) (tmplStr username avatarURL : string)
    (color : Z) : option (DiscordMessage.t + error) :=
  let message content embeds :=
    {| DiscordMessage.Content := content; DiscordMessage.Embeds := embeds;
       DiscordMessage.Username := username; DiscordMessage.AvatarURL := avatarURL |} in
  match model.Data_ input with
  | model.DataString str =>
      (* a string (from the AI processor) is used directly *)
      match cut str with
      | Some str => Some (inl (message str []))
      | None => None
      end
  | data =>
      if negb (isEmpty tmplStr) then
        match executeTemplate tmplStr data with
        | inr err => Some (inr err)
        | inl content =>
            match cut content with
            | Some content => Some (inl (message content []))
            | None => None
            end
        end
      else
        match createEmbeds data color with
        | None => None
        | Some (inr _) =>
            (* fall back to the JSON representation *)
            match cut (MarshalIndent data) with
            | Some content =>
                Some (inl (message ("```json" +:+ String "010"%char "" +:+ content
                                    +:+ String "010"%char "" +:+ "```") []))
            | None => None
            end
        | Some (inl embeds) => Some (inl (message "" embeds))
        end
  end.

Definition send (net : Net) (webhookURL : string) (message : DiscordMessage.t)
  : Net * option error :=
  match Marshal message with
  | inr err => (net, Some err)
  | inl jsonBody =>
      match Do net webhookURL jsonBody with
      | (net, inr err) => (net, Some err)
      | (net, inl (status, body)) =>
          if bool_decide (400 <= status)%Z
          then (net, Some (errorString ("Discord API error " +:+ pretty status +:+ ": "
                                        +:+ body)))
          else (net, None)
      end
  end.

Record Executor : Type := {
  defaultWebhook : string;
  rateLimit : Z;
  lastSend : Time
}.

(** [Execute]; the answer [None] stands for a panic. *)
Definition Execute (e : Executor) (net : Net) (input : option model.ExecutorResult)
    (config : Config)
  : Executor * Net * option (option model.ExecutorResult * option error) :=
  match input with
  | None => (e, net, Some (None, Some (errorString "discord executor requires input data")))
  | Some input =>
      let webhookURL := default "" (asString (config !! "webhook_url")) in
      let webhookURL := if isEmpty webhookURL then defaultWebhook e else webhookURL in
      if isEmpty webhookURL then
        (e, net,
         Some (None,
               Some (errorString "no Discord webhook URL configured: set webhook_url in pipeline config, task discord config, or DISCORD_DEFAULT_WEBHOOK environment variable")))
      else
        let tmplStr := default "" (asString (config !! "template")) in
        let username := default "" (asString (config !! "username")) in
        let avatarURL := default "" (asString (config !! "avatar_url")) in
        let color := default 5793266%Z (asNumber (config !! "color")) in    (* 0x5865F2 *)
        match formatMessage input tmplStr username avatarURL color with
        | None => (e, net, None)
        | Some (inr err) =>
            (e, net, Some (None, Some (Errorf_w "failed to format message: " err)))
        | Some (inl message) =>
            (* rate limiting *)
            let elapsed := (Now net - lastSend e)%Z in
            let net :=
              if bool_decide (elapsed < rateLimit e)%Z then Sleep net (rateLimit e - elapsed)
              else net in
            let '(net, err) := send net webhookURL message in
            match err with
            | Some err =>
                (e, net, Some (None, Some (Errorf_w "failed to send Discord message: " err)))
            | None =>
                let e := {| defaultWebhook := defaultWebhook e; rateLimit := rateLimit e;
                            lastSend := Now net |} in
                match maskWebhook webhookURL with
                | None => (e, net, None)
                | Some masked =>
                    (e, net,
                     Some (Some {| model.Data_ :=
                                     model.DataOther
                                       (VObject [("status", VString "sent");
                                                 ("webhook", VString masked)]);
                                   model.Metadata :=
                                     {[ "items_sent" := VNumber (model.ItemCount input) ]};
                                   model.ItemCount := model.ItemCount input |}, None))
                end
            end
        end
  end.

End Executor.

End discord.

(** ** Package [scheduler]: the pipeline runner *)

Module scheduler.
Import storage.

(** [ValidatePipeline] validates a pipeline configuration.  It only calls
    the validators, which read the config they are given. *)
Definition validateStep (step : model.PipelineStep) : option error :=
  let config := default ∅ (model.Config_ step) in
  let type := model.Type_ step in
  if bool_decide (type = "scraper") then scraper.Validate config
  else if bool_decide (type = "rss") then rss.Validate config
  else if bool_decide (type = "ai_processor") || bool_decide (type = "ai")
       then ai.Validate config
  else if bool_decide (type = "discord") then discord.Validate config
  else if bool_decide (type = "filter") then filter.Validate config
  else Some (errorString ("unknown step type: " +:+ type)).

Fixpoint ValidatePipeline_loop (i : nat) (pipeline : list model.PipelineStep)
    (errors : list error) : list error :=
  match pipeline with
  | [] => errors
  | step :: rest =>
      match validateStep step with
      | Some err =>
          ValidatePipeline_loop (S i) rest
            (errors ++ [Errorf_w ("step " +:+ Itoa (i + 1) +:+ ": ") err])
      | None => ValidatePipeline_loop (S i) rest errors
      end
  end.

Definition ValidatePipeline (pipeline : list model.PipelineStep) : list error :=
  ValidatePipeline_loop 0 pipeline [].

Section Runner.

(** Everything the executors touch: the cache table, the webhook tables,
    the network, the clock. *)
Context {E : Type}.

(** [time.Now()] *)
Variable time_Now : E -> Time.

(** [Execute] of the [model.Executor] interface. *)
Definition ExecuteFn : Type :=
  E -> option model.ExecutorResult -> Config -> E * (option model.ExecutorResult * option error).

Record Executors : Type := {
  aiExecutor : ExecuteFn;
  scraperExec : ExecuteFn;
  rssExec : ExecuteFn;
  discordExec : ExecuteFn;
  filterExec : ExecuteFn;
  (* [discordRepo.GetWebhookForTask]; [None] is the nil repository *)
  discordRepo : option (E -> string -> E * (string * option error))
}.

Variable X : Executors.

Record PipelineRunner : Type := {
  taskRepo : TaskRepository;
  execRepo : ExecutionRepository;
  env : E
}.

Definition setStatus (status : string) (output : model.Output) (err : option string)
    (s : model.StepResult) : model.StepResult :=
  {| model.StepName := model.StepName s; model.StepType := model.StepType s;
     model.Status := status; model.StartedAt := model.StartedAt s;
     model.FinishedAt := model.FinishedAt s; model.Output_ := output;
     model.Error_ := err |}.

(** [executeStep] dispatches on the type of the step; [config] is
    [step.Config] as the loop has prepared it. *)
Definition executeStep (e : E) (step : model.PipelineStep) (config : Config)
    (input : option model.ExecutorResult)
  : E * (option model.ExecutorResult * option error) :=
  let type := model.Type_ step in
  if bool_decide (type = "scraper") then scraperExec X e input config
  else if bool_decide (type = "rss") then rssExec X e input config
  else if bool_decide (type = "ai_processor") || bool_decide (type = "ai")
       then aiExecutor X e input config
  else if bool_decide (type = "discord") then
    (* resolve the webhook from the database if it is not in the config *)
    let '(e, config) :=
      match config !! "webhook_url" with
      | Some _ => (e, config)
      | None =>
          let taskID := default "" (asString (config !! "task_id")) in
          match discordRepo X with
          | Some GetWebhookForTask =>
              if negb (isEmpty taskID) then
                let '(e, (webhookURL, err)) := GetWebhookForTask e taskID in
                if bool_decide (err = None) && negb (isEmpty webhookURL)
                then (e, <["webhook_url" := VString webhookURL]> config)
                else (e, config)
              else (e, config)
          | None => (e, config)
          end
      end in
    discordExec X e input config
  else if bool_decide (type = "filter") then filterExec X e input config
  else (e, (None, Some (errorString ("unknown step type: " +:+ type)))).

(** How one pass of the loop of [executePipeline] ends: it goes on to the
    next step, or the function returns. *)
Inductive Flow : Type :=
| Continue (stepResults : model.StepResults) (currentResult : option model.ExecutorResult)
| Return (stepResults : model.StepResults) (err : option error).

Definition executePipeline_body (r : PipelineRunner) (task : model.Task) (execID : string)
    (i : nat) (step : model.PipelineStep) (stepResults : model.StepResults)
    (currentResult : option model.ExecutorResult) : PipelineRunner * Flow :=
  let stepName :=
    if isEmpty (model.Name step)
    then "Step " +:+ Itoa (i + 1) +:+ ": " +:+ model.Type_ step
    else model.Name step in
  (* add task_id to config for caching *)
  let config := <["task_id" := VString (model.ID task)]> (default ∅ (model.Config_ step)) in
  let started := time_Now (env r) in
  let '(e, (result, err)) := executeStep (env r) step config currentResult in
  let stepResult :=
    {| model.StepName := stepName; model.StepType := model.Type_ step;
       model.Status := "running"; model.StartedAt := started;
       model.FinishedAt := Some (time_Now e);
       model.Output_ := model.OutputNone; model.Error_ := None |} in
  let r := {| taskRepo := taskRepo r; execRepo := execRepo r; env := e |} in
  let noNewItems :=
    (r, Return (stepResults ++
                  [setStatus "completed" (model.OutputText "No new items found") None stepResult])
               None) in
  match err with
  | Some err =>
      if isSkipPipelineError err then
        (r, Return (stepResults ++
                      [setStatus "skipped" model.OutputNone (Some (Error err)) stepResult])
                   None)
      else
        let stepResults :=
          stepResults ++ [setStatus "failed" model.OutputNone (Some (Error err)) stepResult] in
        (* update execution with partial results; a failure is only logged *)
        let '(execRepo', _) := UpdateStepResults (execRepo r) execID stepResults in
        ({| taskRepo := taskRepo r; execRepo := execRepo'; env := e |},
         Return stepResults
           (Some (Errorf_w ("step " +:+ Itoa (i + 1) +:+ " (" +:+ model.Type_ step +:+ ") failed: ")
                           err)))
  | None =>
      if filter.SkipEmpty result then noNewItems
      else
        match result with
        | None => noNewItems      (* [SkipEmpty nil] holds *)
        | Some res =>
            let stepResults :=
              stepResults ++
                [setStatus "completed"
                   (model.OutputSummary (model.ItemCount res) (model.Metadata res))
                   None stepResult] in
            let '(execRepo', _) := UpdateStepResults (execRepo r) execID stepResults in
            ({| taskRepo := taskRepo r; execRepo := execRepo'; env := e |},
             Continue stepResults result)
        end
  end.

Fixpoint executePipeline_loop (r : PipelineRunner) (task : model.Task) (execID : string)
    (i : nat) (steps : list model.PipelineStep) (stepResults : model.StepResults)
    (currentResult : option model.ExecutorResult)
  : PipelineRunner * (model.StepResults * option error) :=
  match steps with
  | [] => (r, (stepResults, None))
  | step :: rest =>
      match executePipeline_body r task execID i step stepResults currentResult with
      | (r, Continue stepResults currentResult) =>
          executePipeline_loop r task execID (S i) rest stepResults currentResult
      | (r, Return stepResults err) => (r, (stepResults, err))
      end
  end.

Definition executePipeline (r : PipelineRunner) (task : model.Task) (execID : string)
  : PipelineRunner * (model.StepResults * option error) :=
  executePipeline_loop r task execID 0 (model.Pipeline task) [] None.

(** [Run] executes a task's pipeline. *)
Definition Run (r : PipelineRunner) (task : model.Task) (triggeredBy : string)
  : PipelineRunner * (option model.Execution * option error) :=
  let '(xr, created) :=
    Create (execRepo r) (time_Now (env r)) (model.ID task) (model.TaskName_ task) triggeredBy in
  match created with
  | inr err =>
      ({| taskRepo := taskRepo r; execRepo := xr; env := env r |},
       (None, Some (Errorf_w "failed to create execution record: " err)))
  | inl execution =>
      let id := model.ExecID execution in
      (* update task status to running *)
      let '(tr, _) :=
        UpdateStatus (taskRepo r) (time_Now (env r)) (model.ID task) model.TaskStatusRunning in
      let r := {| taskRepo := tr; execRepo := xr; env := env r |} in
      let '(r, (stepResults, finalErr)) := executePipeline r task id in
      let now := time_Now (env r) in
      let '(xr, _) :=
        match finalErr with
        | Some err => Fail (execRepo r) now id stepResults (Error err)
        | None => Complete (execRepo r) now id stepResults
        end in
      (* update task status back to enabled, stamp the last run *)
      let '(tr, _) := UpdateStatus (taskRepo r) now (model.ID task) model.TaskStatusEnabled in
      let '(tr, _) := UpdateLastRunOnly tr now (model.ID task) now in
      let '(xr, (execution, _)) := FindByID xr id in
      ({| taskRepo := tr; execRepo := xr; env := env r |}, (execution, finalErr))
  end.

End Runner.

(** *** The cron scheduler *)

(** [splitCronParts] splits on spaces and tabs.  Go ranges over the runes
    of the string; a space or a tab is one byte that occurs in no longer
    encoding, so the bytes give the same parts. *)
Fixpoint splitCronParts_loop (schedule : string) (parts : list string) (current : string)
  : list string :=
  match schedule with
  | EmptyString => if negb (isEmpty current) then parts ++ [current] else parts
  | String r rest =>
      if bool_decide (r = " "%char) || bool_decide (r = "009"%char) then
        if negb (isEmpty current)
        then splitCronParts_loop rest (parts ++ [current]) ""
        else splitCronParts_loop rest parts current
      else splitCronParts_loop rest parts (current +:+ String r "")
  end.

Definition splitCronParts (schedule : string) : list string :=
  splitCronParts_loop schedule [] "".

Section Scheduler.

Context {E : Type}.
Variable time_Now : E -> Time.
Variable X : @Executors E.

(** The cron library ([cron.New(cron.WithSeconds())]): its parser, which
    accepts a spec or returns an error, and the next activation of a spec
    after a given time (if there is one). *)
Variable cronParse : string -> option error.
Variable scheduleNext : string -> Time -> option Time.

(** An entry of the cron: its id, the spec it was added with, and the job,
    which is the firing closure of [scheduleTask] for a task id. *)
Record Entry : Type := {
  EntryID : nat;
  Spec : string;
  Job : string
}.

Record Cron : Type := {
  entries : list Entry;
  nextID : nat;
  started : bool
}.

(** [cron.AddFunc] *)
Definition AddFunc (c : Cron) (spec : string) (job : string) : Cron * (nat * option error) :=
  match cronParse spec with
  | Some err => (c, (0, Some err))
  | None =>
      let id := S (nextID c) in
      ({| entries := entries c ++ [{| EntryID := id; Spec := spec; Job := job |}];
          nextID := id; started := started c |}, (id, None))
  end.

(** [cron.Remove] *)
Definition Remove (c : Cron) (id : nat) : Cron :=
  {| entries := List.filter (fun e => negb (bool_decide (EntryID e = id))) (entries c);
     nextID := nextID c; started := started c |}.

(** [cron.Entry(id).Next]: the zero time ([None]) for an unknown entry and
    while the cron is not started. *)
Definition EntryNext (c : Cron) (id : nat) (now : Time) : option Time :=
  match List.find (fun e => bool_decide (EntryID e = id)) (entries c) with
  | Some e => if started c then scheduleNext (Spec e) now else None
  | None => None
  end.

(** The scheduler shares the task repository with its runner. *)
Record Scheduler : Type := {
  cron : Cron;
  runner : @PipelineRunner E;
  entryMap : gmap string nat;
  running : bool
}.

Definition withTaskRepo (r : @PipelineRunner E) (tr : TaskRepository) : @PipelineRunner E :=
  {| taskRepo := tr; execRepo := execRepo r; env := env r |}.

Definition scheduleTask (s : Scheduler) (task : model.Task) : Scheduler * option error :=
  if negb (bool_decide (model.TaskStatus_ task = model.TaskStatusEnabled)) then (s, None)
  else
    let schedule := model.Schedule task in
    (* support shortcuts *)
    let schedule :=
      if bool_decide (schedule = "@hourly") then "0 0 * * * *"
      else if bool_decide (schedule = "@daily") then "0 0 0 * * *"
      else if bool_decide (schedule = "@weekly") then "0 0 0 * * 0"
      else if bool_decide (schedule = "@monthly") then "0 0 0 1 * *"
      else schedule in
    (* a 5-part cron gets the seconds added *)
    let parts := length (splitCronParts schedule) in
    let schedule := if bool_decide (parts = 5) then "0 " +:+ schedule else schedule in
    let '(c, (entryID, err)) := AddFunc (cron s) schedule (model.ID task) in
    match err with
    | Some err =>
        (s, Some (Errorf_w ("invalid cron expression '" +:+ model.Schedule task +:+ "': ") err))
    | None =>
        let entryMap' := <[model.ID task := entryID]> (entryMap s) in
        (* set the initial next run time; a failure is only logged *)
        let now := time_Now (env (runner s)) in
        let rn :=
          match EntryNext c entryID now with
          | Some next =>
              withTaskRepo (runner s)
                (fst (UpdateNextRun (taskRepo (runner s)) now (model.ID task) next))
          | None => runner s
          end in
        ({| cron := c; runner := rn; entryMap := entryMap'; running := running s |}, None)
    end.

Definition AddTask (s : Scheduler) (task : model.Task) : Scheduler * option error :=
  scheduleTask s task.

Definition RemoveTask (s : Scheduler) (taskID : string) : Scheduler :=
  match entryMap s !! taskID with
  | Some entryID =>
      {| cron := Remove (cron s) entryID; runner := runner s;
         entryMap := delete taskID (entryMap s); running := running s |}
  | None => s
  end.

Definition UpdateTask (s : Scheduler) (task : model.Task) : Scheduler * option error :=
  let s := RemoveTask s (model.ID task) in
  if bool_decide (model.TaskStatus_ task = model.TaskStatusEnabled)
  then scheduleTask s task
  else (s, None).

(** [TriggerTask] triggers a task manually. *)
Definition TriggerTask (s : Scheduler) (taskID triggeredBy : string)
  : Scheduler * (option model.Execution * option error) :=
  let '(tr, (task, err)) := FindTaskByID (taskRepo (runner s)) taskID in
  let s := {| cron := cron s; runner := withTaskRepo (runner s) tr;
              entryMap := entryMap s; running := running s |} in
  match err with
  | Some err => (s, (None, Some err))
  | None =>
      match task with
      | None => (s, (None, Some (errorString "task not found")))
      | Some task =>
          let '(rn, res) := Run time_Now X (runner s) task triggeredBy in
          ({| cron := cron s; runner := rn; entryMap := entryMap s; running := running s |},
           res)
      end
  end.

(** The closure that [scheduleTask] hands to the cron for the task
    [taskID]: what one scheduled firing does. *)
Definition fire (s : Scheduler) (taskID : string) : Scheduler :=
  (* refresh the task from the database *)
  let '(tr, (currentTask, err)) := FindTaskByID (taskRepo (runner s)) taskID in
  let s := {| cron := cron s; runner := withTaskRepo (runner s) tr;
              entryMap := entryMap s; running := running s |} in
  match err, currentTask with
  | Some _, _ | None, None => RemoveTask s taskID
  | None, Some currentTask =>
      (* skip if the task is not enabled or already running *)
      if bool_decide (model.TaskStatus_ currentTask = model.TaskStatusRunning) then s
      else if negb (bool_decide (model.TaskStatus_ currentTask = model.TaskStatusEnabled)) then s
      else
        let '(rn, _) := Run time_Now X (runner s) currentTask "schedule" in
        (* update the next run time after the execution *)
        let now := time_Now (env rn) in
        let rn :=
          match entryMap s !! taskID with
          | Some entryID =>
              match EntryNext (cron s) entryID now with
              | Some next => withTaskRepo rn (fst (UpdateNextRun (taskRepo rn) now taskID next))
              | None => rn
              end
          | None => rn
          end in
        {| cron := cron s; runner := rn; entryMap := entryMap s; running := running s |}
  end.

(** The loop of [Start] over the enabled tasks; a task that cannot be
    scheduled is only logged. *)
Fixpoint scheduleAll (s : Scheduler) (tasks : list model.Task) : Scheduler :=
  match tasks with
  | [] => s
  | task :: rest => scheduleAll (fst (scheduleTask s task)) rest
  end.

(** [Start] starts the scheduler. *)
Definition Start (s : Scheduler) : Scheduler * option error :=
  if running s then (s, None)
  else
    (* load all enabled tasks *)
    let '(tr, (tasks, err)) := FindEnabled (taskRepo (runner s)) in
    let s := {| cron := cron s; runner := withTaskRepo (runner s) tr;
                entryMap := entryMap s; running := running s |} in
    match err with
    | Some err => (s, Some (Errorf_w "failed to load tasks: " err))
    | None =>
        let s := scheduleAll s tasks in
        ({| cron := {| entries := entries (cron s); nextID := nextID (cron s);
                       started := true |};
            runner := runner s; entryMap := entryMap s; running := true |}, None)
    end.

(** [Stop] stops the scheduler: the cron is stopped; its entries and the
    entry map stay. *)
Definition Stop (s : Scheduler) : Scheduler :=
  if negb (running s) then s
  else {| cron := {| entries := entries (cron s); nextID := nextID (cron s);
                     started := false |};
          runner := runner s; entryMap := entryMap s; running := false |}.

(** [GetNextRun]; [None] is the nil pointer. *)
Definition GetNextRun (s : Scheduler) (taskID : string) (now : Time) : option Time :=
  match entryMap s !! taskID with
  | Some entryID => EntryNext (cron s) entryID now
  | None => None
  end.

(** [GetScheduledTasks]: Go ranges over the map in an unspecified order;
    the model takes the order of [map_to_list]. *)
Definition GetScheduledTasks (s : Scheduler) : list string :=
  fst <$> map_to_list (entryMap s).

Definition IsRunning (s : Scheduler) : bool := running s.

End Scheduler.

End scheduler.

(** * Properties *)

(** ** Strings *)

Module GoFacts.

Lemma append_assoc (a b c : string) : (a +:+ b) +:+ c = a +:+ b +:+ c.
Proof.
  induction a as [|x a IH]; [done|].
  change (String x ((a +:+ b) +:+ c) = String x (a +:+ b +:+ c)). by f_equal.
Qed.

Lemma append_nil_r (a : string) : a +:+ "" = a.
Proof.
  induction a as [|x a IH]; [done|].
  change (String x (a +:+ "") = String x a). by f_equal.
Qed.

Lemma isEmpty_true (s : string) : isEmpty s = true <-> s = "".
Proof. unfold isEmpty. by rewrite bool_decide_eq_true. Qed.

(** The message of a wrapping error is the prefix followed by the message
    of the wrapped one. *)
Lemma Error_Errorf_w prefix err : Error (Errorf_w prefix err) = prefix +:+ Error err.
Proof. done. Qed.

End GoFacts.

(** ** The step validators *)

Module ValidatorFacts.

Lemma scraper_Validate_source (config : Config) v :
  config !! "source" = Some v -> scraper.Validate config = None.
Proof. intros H. unfold scraper.Validate. by rewrite H. Qed.

Lemma scraper_Validate_sources (config : Config) v :
  config !! "sources" = Some v -> scraper.Validate config = None.
Proof. intros H. unfold scraper.Validate. rewrite H. by destruct (config !! "source"). Qed.

(** C6, as the code has it: the scraper validator accepts a config exactly
    when it has the key [source] or the key [sources]; the key [category]
    plays no part in validation. *)
Theorem scraper_Validate_accepts_iff (config : Config) :
  scraper.Validate config = None <->
  is_Some (config !! "source") \/ is_Some (config !! "sources").
Proof.
  split.
  - unfold scraper.Validate.
    destruct (config !! "source") eqn:Hs; [by left; eauto|].
    destruct (config !! "sources") eqn:Hss; [by right; eauto|done].
  - intros [[v H]|[v H]]; eauto using scraper_Validate_source, scraper_Validate_sources.
Qed.

(** C6, counterexample: a config that has only the key [category] is
    rejected, with the validator's own message. *)
Lemma scraper_Validate_category_only_rejected :
  let config : Config := {[ "category" := VString "jobs" ]} in
  is_Some (config !! "category") /\
  scraper.Validate config
  = Some (errorString "scraper requires 'source' or 'sources' in config").
Proof. split; [by eexists|]. by vm_compute. Qed.

(** The entry that a failing step at (0-based) position [i] contributes. *)
Definition stepEntry (i : nat) (step : model.PipelineStep) : option error :=
  Errorf_w ("step " +:+ Itoa (i + 1) +:+ ": ") <$> scheduler.validateStep step.

Definition fails (step : model.PipelineStep) : bool :=
  bool_decide (is_Some (scheduler.validateStep step)).

Lemma ValidatePipeline_loop_spec pipeline : forall i errors,
  scheduler.ValidatePipeline_loop i pipeline errors
  = errors ++ omap id (imap (fun j => stepEntry (i + j)) pipeline).
Proof.
  induction pipeline as [|step rest IH]; intros i errors; simpl.
  - by rewrite app_nil_r.
  - unfold stepEntry at 1. rewrite Nat.add_0_r.
    assert (Hshift : imap ((fun j => stepEntry (i + j)) ∘ S) rest
                     = imap (fun j => stepEntry (S i + j)) rest).
    { apply imap_ext. intros j x _. simpl. f_equal. lia. }
    rewrite Hshift.
    destruct (scheduler.validateStep step) as [err|]; simpl; rewrite IH.
    + by rewrite <- app_assoc.
    + done.
Qed.

Lemma length_entries pipeline : forall i,
  length (omap id (imap (fun j => stepEntry (i + j)) pipeline))
  = length (List.filter fails pipeline).
Proof.
  induction pipeline as [|step rest IH]; intros i; [done|]. simpl.
  assert (Hshift : imap ((fun j => stepEntry (i + j)) ∘ S) rest
                   = imap (fun j => stepEntry (S i + j)) rest).
  { apply imap_ext. intros j x _. simpl. f_equal. lia. }
  rewrite Hshift. unfold stepEntry at 1, fails at 1.
  destruct (scheduler.validateStep step) as [err|]; simpl.
  - f_equal. exact (IH (S i)).
  - exact (IH (S i)).
Qed.

Lemma validateStep_unknown step :
  model.Type_ step ∉ ["scraper"; "rss"; "ai_processor"; "ai"; "discord"; "filter"] ->
  scheduler.validateStep step
  = Some (errorString ("unknown step type: " +:+ model.Type_ step)).
Proof.
  intros H. unfold scheduler.validateStep.
  assert (Hne : forall t,
            t ∈ ["scraper"; "rss"; "ai_processor"; "ai"; "discord"; "filter"] ->
            model.Type_ step <> t) by (by intros t Ht <-).
  rewrite !bool_decide_false by (apply Hne; set_solver). done.
Qed.

(** C10: [ValidatePipeline] of the empty pipeline is the empty list (the
    "at least one step" rule is not checked here); for every pipeline the
    result lists, in step order, one entry per step whose validator
    returns an error (an unknown type being such an error), each entry
    reading "step <i>: <message>" with the 1-based index of the step.
    The function is a function of the pipeline alone: it is given no
    repository and returns none. *)
Theorem ValidatePipeline_spec :
  scheduler.ValidatePipeline [] = [] /\
  (forall pipeline,
     scheduler.ValidatePipeline pipeline = omap id (imap stepEntry pipeline) /\
     length (scheduler.ValidatePipeline pipeline) = length (List.filter fails pipeline)) /\
  (forall i step err,
     scheduler.validateStep step = Some err ->
     exists entry, stepEntry i step = Some entry /\
       Error entry = "step " +:+ Itoa (i + 1) +:+ ": " +:+ Error err) /\
  (forall i step, scheduler.validateStep step = None -> stepEntry i step = None) /\
  (forall step,
     model.Type_ step ∉ ["scraper"; "rss"; "ai_processor"; "ai"; "discord"; "filter"] ->
     scheduler.validateStep step
     = Some (errorString ("unknown step type: " +:+ model.Type_ step))).
Proof.
  split; [done|]. split; [|split; [|split]].
  - intros pipeline. unfold scheduler.ValidatePipeline.
    rewrite ValidatePipeline_loop_spec. split; [reflexivity|].
    exact (length_entries pipeline 0).
  - intros i step err H. unfold stepEntry. rewrite H.
    eexists. split; [reflexivity|].
    by rewrite GoFacts.Error_Errorf_w, !GoFacts.append_assoc.
  - intros i step H. unfold stepEntry. by rewrite H.
  - apply validateStep_unknown.
Qed.

End ValidatorFacts.

(** ** The cache-filtering passes *)

Module CacheFacts.
Import storage.

Lemma roundTrip_drop (fs : Faults) : snd (roundTrip fs) = drop 1 fs.
Proof. by destruct fs. Qed.

Lemma roundTrip_lookup (fs : Faults) : fst (roundTrip fs) = default None (fs !! 0).
Proof. by destruct fs. Qed.

Lemma AddBatch_calls r hashes src taskID :
  cache_calls (fst (AddBatch r hashes src taskID))
  = cache_calls r ++ [CallAddBatch hashes src taskID].
Proof.
  unfold AddBatch.
  destruct (roundTrip (cache_faults r)) as [[e1|] fs1]; [done|].
  destruct (roundTrip fs1) as [[e2|] fs2]; [done|].
  destruct (execAll (content_cache r) fs2 hashes src taskID) as [[rows fs3] [e3|]]; [done|].
  by destruct (roundTrip fs3) as [[e4|] fs4].
Qed.

(** The cache reads among the calls made on a cache. *)
Definition lookups (calls : list CacheCall) : list (string * string) :=
  omap (fun c => match c with
                 | CallExistsForTask hash taskID => Some (hash, taskID)
                 | CallAddBatch _ _ _ => None
                 end) calls.

Lemma lookups_app c1 c2 : lookups (c1 ++ c2) = lookups c1 ++ lookups c2.
Proof. unfold lookups. apply omap_app. Qed.

(** The content that is hashed for a scraped item: its URL, or its id
    followed by its source when the URL is empty. *)
Definition scrapedContent (item : ScrapedItem.t) : string :=
  if isEmpty (ScrapedItem.URL item)
  then ScrapedItem.ID item +:+ ScrapedItem.Source item
  else ScrapedItem.URL item.

(** The content that is hashed for a feed item: its link, or its id alone
    when the link is empty. *)
Definition feedContent (item : RSSItem.t) : string :=
  if isEmpty (RSSItem.Link item) then RSSItem.ID item else RSSItem.Link item.

Section Passes.

Variable HashContent : string -> string.

(** The four passes have one shape: they differ in the item type, in the
    content that is hashed, and in what a failed read does ([lenient]:
    the item goes through). *)
Section Pass.

Context {A : Type} (content : A -> string) (lenient : bool).

Fixpoint pass (cache : CacheRepository) (items : list A) (taskID : string)
    (acc : list A) (hashes : list string) : CacheRepository * (list A * list string) :=
  match items with
  | [] => (cache, (acc, hashes))
  | item :: rest =>
      let hash := HashContent (content item) in
      let '(cache, (exists_, err)) := ExistsForTask cache hash taskID in
      if (negb lenient && bool_decide (is_Some err)) || exists_
      then pass cache rest taskID acc hashes
      else pass cache rest taskID (acc ++ [item]) (hashes ++ [hash])
  end.

(** The items that go through, given the rows of the table and the
    outcomes of the reads, one read per item. *)
Fixpoint kept (rows : list CacheEntry) (taskID : string) (items : list A) (fs : Faults)
  : list A :=
  match items with
  | [] => []
  | item :: rest =>
      let keep :=
        match fst (roundTrip fs) with
        | Some _ => lenient
        | None => negb (bool_decide (0 < countFor rows (HashContent (content item)) taskID))
        end in
      (if keep then [item] else []) ++ kept rows taskID rest (snd (roundTrip fs))
  end.

Lemma pass_spec items : forall cache taskID acc hashes,
  let out := kept (content_cache cache) taskID items (cache_faults cache) in
  pass cache items taskID acc hashes
  = ({| content_cache := content_cache cache;
        cache_faults := drop (length items) (cache_faults cache);
        cache_calls := cache_calls cache
          ++ ((fun item => CallExistsForTask (HashContent (content item)) taskID) <$> items) |},
     (acc ++ out, hashes ++ ((fun item => HashContent (content item)) <$> out))).
Proof.
  induction items as [|item rest IH]; intros cache taskID acc hashes; simpl.
  - rewrite drop_0, !app_nil_r. by destruct cache.
  - unfold ExistsForTask.
    destruct (cache_faults cache) as [ | f fs] eqn:Hfs; [|destruct f as [err | ]]; simpl.
    + rewrite andb_false_r. simpl.
      case_bool_decide; simpl; rewrite IH; simpl;
        rewrite ?drop_nil, ?fmap_app, <- ?app_assoc; simpl; done.
    + rewrite andb_true_r, orb_false_r.
      destruct lenient; simpl; rewrite IH; simpl;
        rewrite ?fmap_app, <- ?app_assoc; simpl; done.
    + rewrite andb_false_r. simpl.
      case_bool_decide; simpl; rewrite IH; simpl;
        rewrite ?fmap_app, <- ?app_assoc; simpl; done.
Qed.

(** An item whose read fails goes through a lenient pass. *)
Lemma kept_lenient_elem rows taskID items : forall fs k item err,
  lenient = true ->
  items !! k = Some item -> fs !! k = Some (Some err) ->
  item ∈ kept rows taskID items fs.
Proof.
  induction items as [|x rest IH]; intros fs k item err Hl Hk Hf; [done|].
  destruct k as [|k]; simpl in *.
  - destruct fs as [|f fs]; simpl in *; simplify_eq. simpl. rewrite Hl. set_solver.
  - destruct fs as [|f fs]; simpl in *; simplify_eq. simpl.
    apply elem_of_app. right. by eapply IH.
Qed.

Lemma kept_sublist rows taskID items : forall fs,
  kept rows taskID items fs `sublist_of` items.
Proof.
  induction items as [|x rest IH]; intros fs; simpl; [done|].
  destruct (match fst (roundTrip fs) with Some _ => _ | None => _ end); simpl.
  - by apply sublist_skip.
  - by apply sublist_cons.
Qed.

(** An item whose read fails does not go through a strict pass: what goes
    through is drawn from the other items. *)
Lemma kept_strict_sublist rows taskID items : forall fs k err,
  lenient = false ->
  k < length items -> fs !! k = Some (Some err) ->
  kept rows taskID items fs `sublist_of` delete k items.
Proof.
  induction items as [|x rest IH]; intros fs k err Hl Hk Hf; simpl in *; [lia|].
  destruct k as [|k].
  - destruct fs as [|f fs]; simpl in *; simplify_eq. simpl. rewrite Hl. simpl. apply kept_sublist.
  - destruct fs as [|f fs]; simpl in *; simplify_eq. simpl.
    assert (Hrest : kept rows taskID rest fs `sublist_of` delete k rest)
      by (eapply IH; eauto; lia).
    destruct (match f with Some _ => _ | None => _ end); simpl.
    + by apply sublist_skip.
    + by apply sublist_cons.
Qed.

End Pass.

(** Each pass of the code is an instance of that shape. *)
Lemma scraper_loop_pass items : forall cache taskID acc hashes,
  scraper.filterNewItems_loop HashContent cache items taskID acc hashes
  = pass scrapedContent false cache items taskID acc hashes.
Proof.
  induction items as [|item rest IH]; intros cache taskID acc hashes; simpl; [done|].
  fold (scrapedContent item).
  destruct (ExistsForTask _ _ _) as [c [ex err]]. simpl. by rewrite !IH.
Qed.

Lemma rss_loop_pass items : forall cache taskID acc hashes,
  rss.filterNewItems_loop HashContent cache items taskID acc hashes
  = pass feedContent false cache items taskID acc hashes.
Proof.
  induction items as [|item rest IH]; intros cache taskID acc hashes; simpl; [done|].
  fold (feedContent item).
  destruct (ExistsForTask _ _ _) as [c [ex err]]. simpl. by rewrite !IH.
Qed.

Lemma filter_scraped_loop_pass items : forall cache taskID acc hashes,
  filter.dedupeScrapedItems_loop HashContent cache items taskID acc hashes
  = pass scrapedContent true cache items taskID acc hashes.
Proof.
  induction items as [|item rest IH]; intros cache taskID acc hashes; simpl; [done|].
  fold (scrapedContent item).
  destruct (ExistsForTask _ _ _) as [c [ex err]]. simpl. by rewrite !IH.
Qed.

Lemma filter_rss_loop_pass items : forall cache taskID acc hashes,
  filter.dedupeRSSItems_loop HashContent cache items taskID acc hashes
  = pass feedContent true cache items taskID acc hashes.
Proof.
  induction items as [|item rest IH]; intros cache taskID acc hashes; simpl; [done|].
  fold (feedContent item).
  destruct (ExistsForTask _ _ _) as [c [ex err]]. simpl. by rewrite !IH.
Qed.

(** What each of the four functions returns and which reads it makes. *)
Definition readsOf {A : Type} (content : A -> string) (taskID : string) (items : list A)
  : list (string * string) :=
  (fun item => (HashContent (content item), taskID)) <$> items.

Lemma lookups_reads {A : Type} (content : A -> string) taskID (items : list A) :
  lookups ((fun item => CallExistsForTask (HashContent (content item)) taskID) <$> items)
  = readsOf content taskID items.
Proof. induction items as [|item rest IH]; simpl; [done|]. by rewrite <- IH. Qed.

Ltac pass_result loop_pass :=
  intros; cbv beta delta [scraper.filterNewItems rss.filterNewItems
                          filter.dedupeScrapedItems filter.dedupeRSSItems];
  rewrite loop_pass, pass_spec; cbv zeta; simpl;
  split; [done|];
  case_bool_decide; simpl; rewrite ?AddBatch_calls; simpl;
  rewrite !lookups_app, lookups_reads; simpl; by rewrite ?app_nil_r.

Lemma scraper_filterNewItems_result cache items taskID :
  snd (scraper.filterNewItems HashContent cache items taskID)
  = kept scrapedContent false (content_cache cache) taskID items (cache_faults cache)
  /\ lookups (cache_calls (fst (scraper.filterNewItems HashContent cache items taskID)))
     = lookups (cache_calls cache) ++ readsOf scrapedContent taskID items.
Proof. pass_result scraper_loop_pass. Qed.

Lemma rss_filterNewItems_result cache items taskID :
  snd (rss.filterNewItems HashContent cache items taskID)
  = kept feedContent false (content_cache cache) taskID items (cache_faults cache)
  /\ lookups (cache_calls (fst (rss.filterNewItems HashContent cache items taskID)))
     = lookups (cache_calls cache) ++ readsOf feedContent taskID items.
Proof. pass_result rss_loop_pass. Qed.

Lemma filter_dedupeScrapedItems_result cache items taskID :
  snd (filter.dedupeScrapedItems HashContent cache items taskID)
  = kept scrapedContent true (content_cache cache) taskID items (cache_faults cache)
  /\ lookups (cache_calls (fst (filter.dedupeScrapedItems HashContent cache items taskID)))
     = lookups (cache_calls cache) ++ readsOf scrapedContent taskID items.
Proof. pass_result filter_scraped_loop_pass. Qed.

Lemma filter_dedupeRSSItems_result cache items taskID :
  snd (filter.dedupeRSSItems HashContent cache items taskID)
  = kept feedContent true (content_cache cache) taskID items (cache_faults cache)
  /\ lookups (cache_calls (fst (filter.dedupeRSSItems HashContent cache items taskID)))
     = lookups (cache_calls cache) ++ readsOf feedContent taskID items.
Proof. pass_result filter_rss_loop_pass. Qed.

End Passes.

(** C1, as the code has it: whatever the hash function, the cache and the
    task, the reads that a pass makes are, item by item, the hashes of
    - the URL, or id followed by source when the URL is empty, for scraped
      items, in the scraper step and in the filter step alike;
    - the link, or the id alone when the link is empty, for feed items, in
      the feed step and in the filter step alike.
    So ingestion and filter agree on every item of the same shape. *)
Theorem fingerprint_content (HashContent : string -> string) cache taskID :
  (forall items,
     lookups (cache_calls (fst (scraper.filterNewItems HashContent cache items taskID)))
     = lookups (cache_calls cache) ++ readsOf HashContent scrapedContent taskID items) /\
  (forall items,
     lookups (cache_calls (fst (filter.dedupeScrapedItems HashContent cache items taskID)))
     = lookups (cache_calls cache) ++ readsOf HashContent scrapedContent taskID items) /\
  (forall items,
     lookups (cache_calls (fst (rss.filterNewItems HashContent cache items taskID)))
     = lookups (cache_calls cache) ++ readsOf HashContent feedContent taskID items) /\
  (forall items,
     lookups (cache_calls (fst (filter.dedupeRSSItems HashContent cache items taskID)))
     = lookups (cache_calls cache) ++ readsOf HashContent feedContent taskID items).
Proof.
  repeat split; intros items.
  - apply scraper_filterNewItems_result.
  - apply filter_dedupeScrapedItems_result.
  - apply rss_filterNewItems_result.
  - apply filter_dedupeRSSItems_result.
Qed.

Definition emptyCache : CacheRepository :=
  {| content_cache := []; cache_faults := []; cache_calls := [] |}.

Definition feedItem (id link src : string) : RSSItem.t :=
  {| RSSItem.ID := id; RSSItem.Title := "Release notes"; RSSItem.Description := "";
     RSSItem.Link := link; RSSItem.Source := src; RSSItem.PubDate := "";
     RSSItem.Categories := []; RSSItem.Author := "" |}.

Definition scrapedItem (id url src : string) : ScrapedItem.t :=
  {| ScrapedItem.ID := id; ScrapedItem.Title := "Backend engineer";
     ScrapedItem.Description := ""; ScrapedItem.URL := url; ScrapedItem.Source := src;
     ScrapedItem.Category := "jobs"; ScrapedItem.Tags := []; ScrapedItem.Salary := "";
     ScrapedItem.Company := ""; ScrapedItem.Location := ""; ScrapedItem.PostedAt := "";
     ScrapedItem.Extra := [] |}.

(** C1, counterexample: for a feed item without a link the content that is
    hashed is the id alone, not the id followed by the source (the hash
    function is taken to be the identity to show the content). *)
Lemma feed_fingerprint_omits_source :
  let item := feedItem "guid-1" "" "Blog" in
  RSSItem.Link item = "" /\
  lookups (cache_calls (fst (rss.filterNewItems (fun s => s) emptyCache [item] "t1")))
  = [("guid-1", "t1")] /\
  lookups (cache_calls (fst (filter.dedupeRSSItems (fun s => s) emptyCache [item] "t1")))
  = [("guid-1", "t1")] /\
  "guid-1" <> RSSItem.ID item +:+ RSSItem.Source item.
Proof. by vm_compute. Qed.

(** C2, as the code has it: when the read made for the item at position
    [k] fails, the filter step lets that item through (a failed read
    counts as "not present"), while the scraper step and the feed step
    drop it: what they return is drawn from the other items. *)
Theorem cache_read_error_policy (HashContent : string -> string) cache taskID k err :
  cache_faults cache !! k = Some (Some err) ->
  (forall items item,
     items !! k = Some item ->
     item ∈ snd (filter.dedupeScrapedItems HashContent cache items taskID)) /\
  (forall items item,
     items !! k = Some item ->
     item ∈ snd (filter.dedupeRSSItems HashContent cache items taskID)) /\
  (forall items,
     k < length items ->
     snd (scraper.filterNewItems HashContent cache items taskID)
       `sublist_of` delete k items) /\
  (forall items,
     k < length items ->
     snd (rss.filterNewItems HashContent cache items taskID)
       `sublist_of` delete k items).
Proof.
  intros Hf. repeat split.
  - intros items item Hk.
    rewrite (proj1 (filter_dedupeScrapedItems_result _ _ _ _)).
    by eapply kept_lenient_elem.
  - intros items item Hk.
    rewrite (proj1 (filter_dedupeRSSItems_result _ _ _ _)).
    by eapply kept_lenient_elem.
  - intros items Hk.
    rewrite (proj1 (scraper_filterNewItems_result _ _ _ _)).
    by eapply kept_strict_sublist.
  - intros items Hk.
    rewrite (proj1 (rss_filterNewItems_result _ _ _ _)).
    by eapply kept_strict_sublist.
Qed.

Definition failingCache : CacheRepository :=
  {| content_cache := [];
     cache_faults := [Some (errorString "connection refused")];
     cache_calls := [] |}.

(** The policy at a cache whose first read is refused. *)
Lemma cache_read_error_policy_witness :
  (forall items item,
     items !! 0 = Some item ->
     item ∈ snd (filter.dedupeScrapedItems (fun s => s) failingCache items "t1")) /\
  (forall items item,
     items !! 0 = Some item ->
     item ∈ snd (filter.dedupeRSSItems (fun s => s) failingCache items "t1")) /\
  (forall items,
     0 < length items ->
     snd (scraper.filterNewItems (fun s => s) failingCache items "t1")
       `sublist_of` delete 0 items) /\
  (forall items,
     0 < length items ->
     snd (rss.filterNewItems (fun s => s) failingCache items "t1")
       `sublist_of` delete 0 items).
Proof.
  apply (cache_read_error_policy (fun s => s) failingCache "t1" 0
                                 (errorString "connection refused")).
  reflexivity.
Defined.

(** C2, counterexample: the read for a new item fails; the scraper step and
    the feed step drop the item, where the filter step keeps it. *)
Lemma ingestion_drops_item_on_read_error :
  let job := scrapedItem "42" "https://example.org/jobs/42" "remoteok" in
  let post := feedItem "guid-1" "https://example.org/post" "Blog" in
  snd (snd (ExistsForTask failingCache "https://example.org/jobs/42" "t1"))
  = Some (Errorf_w "failed to check task cache: " (errorString "connection refused")) /\
  snd (scraper.filterNewItems (fun s => s) failingCache [job] "t1") = [] /\
  snd (rss.filterNewItems (fun s => s) failingCache [post] "t1") = [] /\
  snd (filter.dedupeScrapedItems (fun s => s) failingCache [job] "t1") = [job].
Proof. by vm_compute. Qed.

End CacheFacts.

(** ** The scraper step *)

Module ScraperFacts.
Import storage.

Section Execute.

Variable HashContent : string -> string.
Context {Net : Type}.

(** The sources, the query and the limit that a config asks for. *)
Definition configuredSources (reg : @scraper.Registry Net) (config : Config) : list string :=
  match asString (config !! "source") with Some s => [s] | None => [] end
  ++ match asArray (config !! "sources") with Some arr => stringsOf arr | None => [] end
  ++ match asString (config !! "category") with
     | Some category => scraper.Name <$> scraper.GetByCategory reg category
     | None => []
     end.

Definition configuredQuery (config : Config) : string :=
  match asString (config !! "query") with
  | Some q => if isEmpty q then
                scraper.Join (stringsOf (default [] (asArray (config !! "keywords")))) " "
              else q
  | None => scraper.Join (stringsOf (default [] (asArray (config !! "keywords")))) " "
  end.

Definition configuredLimit (config : Config) : Z :=
  default 10%Z (asNumber (config !! "limit")).

(** What happens to each source in turn: [Some message] when the source
    is unknown or its scrape fails, [None] when it delivers. *)
Fixpoint outcomes (reg : @scraper.Registry Net) (net : Net) (names : list string)
    (query : string) (limit : Z) : list (option string) :=
  match names with
  | [] => []
  | name :: rest =>
      match scraper.Get reg name with
      | inr err => Some (name +:+ ": " +:+ Error err) :: outcomes reg net rest query limit
      | inl src =>
          let '(net', (_, err)) := scraper.Scrape src net query limit in
          ((fun err => name +:+ ": " +:+ Error err) <$> err)
            :: outcomes reg net' rest query limit
      end
  end.

Lemma scrapeAll_spec reg names query limit taskID :
  forall cache net allItems errors,
  exists cache' net' new,
    scraper.scrapeAll HashContent reg cache net names query limit taskID allItems errors
    = (cache', net', (allItems ++ new,
                      errors ++ omap id (outcomes reg net names query limit))) /\
    (Forall is_Some (outcomes reg net names query limit) -> new = []).
Proof.
  induction names as [|name rest IH]; intros cache net allItems errors; simpl.
  - exists cache, net, []. by rewrite !app_nil_r.
  - destruct (scraper.Get reg name) as [src|err]; simpl.
    + destruct (scraper.Scrape src net query limit) as [net1 [items [err|]]]; simpl.
      * destruct (IH cache net1 allItems (errors ++ [name +:+ ": " +:+ Error err]))
          as (c' & n' & new & -> & Hall).
        exists c', n', new. rewrite <- app_assoc. split; [done|].
        intros H. apply Hall. by inversion H.
      * set (filtered := match cache with Some c => _ | None => _ end).
        destruct filtered as [cache1 items1].
        destruct (IH cache1 net1 (allItems ++ items1) errors)
          as (c' & n' & new & -> & Hall).
        exists c', n', (items1 ++ new). rewrite <- app_assoc. split; [done|].
        intros H. inversion H as [|? ? Hnone]. by destruct Hnone.
    + destruct (IH cache net allItems (errors ++ [name +:+ ": " +:+ Error err]))
        as (c' & n' & new & -> & Hall).
      exists c', n', new. rewrite <- app_assoc. split; [done|].
      intros H. apply Hall. by inversion H.
Qed.

Lemma Execute_query (config : Config) :
  (let query := default "" (asString (config !! "query")) in
   let keywords := default [] (asArray (config !! "keywords")) in
   if bool_decide (0 < length keywords) && isEmpty query
   then scraper.Join (stringsOf keywords) " "
   else query) = configuredQuery config.
Proof.
  unfold configuredQuery. cbv zeta.
  destruct (asString (config !! "query")) as [q|]; simpl.
  - destruct (isEmpty q) eqn:Hq; rewrite ?andb_false_r, ?andb_true_r; [|done].
    case_bool_decide as Hk; [done|].
    apply GoFacts.isEmpty_true in Hq as ->.
    destruct (default [] (asArray (config !! "keywords"))); [done|simpl in Hk; lia].
  - change (isEmpty "") with true. rewrite andb_true_r.
    case_bool_decide as Hk; [done|].
    destruct (default [] (asArray (config !! "keywords"))); [done|simpl in Hk; lia].
Qed.

Lemma Execute_sources (reg : @scraper.Registry Net) (config : Config) :
  (let names := match asString (config !! "source") with Some s => [s] | None => [] end in
   let names := match asArray (config !! "sources") with
                | Some arr => names ++ stringsOf arr
                | None => names
                end in
   match asString (config !! "category") with
   | Some category => names ++ (scraper.Name <$> scraper.GetByCategory reg category)
   | None => names
   end) = configuredSources reg config.
Proof.
  unfold configuredSources. cbv zeta.
  destruct (asString (config !! "source")), (asArray (config !! "sources")),
    (asString (config !! "category")); simpl; by rewrite ?app_nil_r, <- ?app_assoc.
Qed.

End Execute.

(** C7, as the code has it: the scraper step never returns an error.  Its
    result carries the items of the sources that delivered; the messages
    of the sources that failed (one per failed source, in order) are in
    the metadata under [errors], which is absent when none failed.  When
    every configured source failed the step still returns no error: the
    result then has no items. *)
Theorem scraper_Execute_never_fails (HashContent : string -> string) {Net : Type}
    (e : @scraper.Executor Net) (net : Net) input (config : Config) :
  let names := configuredSources (scraper.registry e) config in
  let results :=
    outcomes (scraper.registry e) net names (configuredQuery config) (configuredLimit config) in
  let failures := omap id results in
  exists e' net' res items,
    scraper.Execute HashContent e net input config = (e', net', (Some res, None)) /\
    model.Data_ res = model.DataScrapedItems items /\
    model.ItemCount res = Z.of_nat (length items) /\
    model.Metadata res !! "sources" = Some (VArray (VString <$> names)) /\
    model.Metadata res !! "errors"
      = (if bool_decide (failures = []) then None
         else Some (VArray (VString <$> failures))) /\
    (Forall is_Some results -> items = []).
Proof.
  intros names results failures. unfold scraper.Execute.
  rewrite Execute_query. cbv zeta. rewrite Execute_sources.
  fold names. fold (configuredLimit config).
  destruct (scrapeAll_spec HashContent (scraper.registry e) names (configuredQuery config)
              (configuredLimit config) (default "" (asString (config !! "task_id")))
              (scraper.cache e) net [] [])
    as (c' & n' & new & -> & Hall).
  fold results in Hall |- *. fold failures. simpl.
  eexists _, _, _, new. split; [reflexivity|]. simpl.
  repeat split; try done.
  - by case_bool_decide; simplify_map_eq.
  - destruct failures as [|f fs]; simpl.
    + by simplify_map_eq.
    + by simplify_map_eq.
Qed.

(** A source that always answers with HTTP 503. *)
Definition unreachable : @scraper.Source unit :=
  {| scraper.Name := "remoteok"; scraper.Category := "jobs";
     scraper.Scrape := fun net _ _ => (net, ([], Some (errorString "HTTP 503"))) |}.

Definition oneSource : @scraper.Executor unit :=
  {| scraper.registry := {| scraper.sources := {[ "remoteok" := unreachable ]} |};
     scraper.cache := None |}.

(** C7, counterexample: the only configured source fails, and the step
    returns a result and no error. *)
Lemma scraper_all_sources_failed_no_error :
  let config : Config := {[ "source" := VString "remoteok" ]} in
  outcomes (scraper.registry oneSource) tt (configuredSources (scraper.registry oneSource) config)
           (configuredQuery config) (configuredLimit config)
  = [Some "remoteok: HTTP 503"] /\
  snd (snd (scraper.Execute (fun s => s) oneSource tt None config)) = None /\
  (fun res => (model.Data_ res, model.Metadata res !! "errors"))
    <$> fst (snd (scraper.Execute (fun s => s) oneSource tt None config))
  = Some (model.DataScrapedItems [], Some (VArray [VString "remoteok: HTTP 503"])).
Proof. by vm_compute. Qed.

End ScraperFacts.

(** ** The pipeline runner and its journal *)

Module RunnerFacts.
Import storage scheduler.

(** *** The journal operations *)

Lemma UpdateStepResults_journal xr id results :
  journal (fst (UpdateStepResults xr id results))
  = journal xr ++ [CallUpdateStepResults id results].
Proof. unfold UpdateStepResults, withJournal. by destruct (roundTrip (exec_faults xr)) as [[err|] fs]. Qed.

(** A row of the journal that is still open: at [running], with no error. *)
Definition openRow (xr : ExecutionRepository) (id : string) : Prop :=
  exists row, executions xr !! id = Some row /\
    model.ExecStatus row = model.ExecutionStatusRunning /\ model.ExecError row = None.

Lemma UpdateStepResults_openRow xr id results :
  openRow xr id -> openRow (fst (UpdateStepResults xr id results)) id.
Proof.
  intros (row & Hrow & Hst & Herr). unfold UpdateStepResults, withJournal.
  destruct (roundTrip (exec_faults xr)) as [[err|] fs]; unfold openRow; simpl.
  - by exists row.
  - exists (setStepResults results row). by rewrite lookup_alter_eq, Hrow.
Qed.

Lemma UpdateStepResults_faults xr id results :
  exec_faults xr = [] -> exec_faults (fst (UpdateStepResults xr id results)) = [].
Proof. intros H. unfold UpdateStepResults, withJournal. by rewrite H. Qed.

Lemma Create_inl xr now taskID taskName triggeredBy xr' execution :
  Create xr now taskID taskName triggeredBy = (xr', inl execution) ->
  journal xr' = journal xr ++ [CallCreate taskID taskName triggeredBy] /\
  openRow xr' (model.ExecID execution) /\
  model.StepResults_ execution = [] /\
  exec_faults xr' = drop 1 (exec_faults xr).
Proof.
  unfold Create, withJournal. rewrite <- CacheFacts.roundTrip_drop.
  destruct (roundTrip (exec_faults xr)) as [[err|] fs]; [done|].
  intros [= <- <-]. unfold openRow. simpl. repeat split; try done.
  eexists. by rewrite lookup_insert_eq.
Qed.

Lemma Create_inr xr now taskID taskName triggeredBy xr' err :
  Create xr now taskID taskName triggeredBy = (xr', inr err) ->
  journal xr' = journal xr ++ [CallCreate taskID taskName triggeredBy] /\
  executions xr' = executions xr.
Proof.
  unfold Create, withJournal. destruct (roundTrip (exec_faults xr)) as [[e|] fs]; [|done].
  by intros [= <- <-].
Qed.

(** The call that closes an execution. *)
Definition terminalCall (id : string) (results : model.StepResults)
    (finalErr : option error) : JournalCall :=
  match finalErr with
  | Some err => CallFail id results (Error err)
  | None => CallComplete id results
  end.

Definition terminalStatus (finalErr : option error) : model.ExecutionStatus :=
  match finalErr with
  | Some _ => model.ExecutionStatusFailed
  | None => model.ExecutionStatusCompleted
  end.

Lemma terminate_journal xr now id status results errMsg call :
  journal (fst (terminate xr now id status results errMsg call)) = journal xr ++ [call].
Proof.
  unfold terminate, FindByID, withJournal.
  destruct (roundTrip (exec_faults xr)) as [[e1|] fs1]; simpl; [done|].
  by destruct (roundTrip fs1) as [[e2|] fs2].
Qed.

(** With no database fault pending, closing an open row stores the
    terminal status, the step results and the error message (if any). *)
Lemma terminate_row xr now id status results errMsg call :
  exec_faults xr = [] -> openRow xr id ->
  exec_faults (fst (terminate xr now id status results errMsg call)) = [] /\
  exists row, executions (fst (terminate xr now id status results errMsg call)) !! id = Some row /\
    model.ExecStatus row = status /\ model.StepResults_ row = results /\
    model.ExecError row = errMsg /\ is_Some (model.ExecFinishedAt row) /\
    is_Some (model.Duration row).
Proof.
  intros Hf (row & Hrow & Hst & Herr). unfold terminate, FindByID, withJournal. rewrite Hf. simpl.
  split; [done|]. eexists. rewrite lookup_alter_eq, Hrow. simpl.
  split; [done|]. simpl. rewrite Herr. repeat split; eauto. by destruct errMsg.
Qed.

(** *** One pass of the loop *)

Section Loop.

Context {E : Type}.
Variable time_Now : E -> Time.
Variable X : @Executors E.

Abbreviation Runner := (@PipelineRunner E).

(** The config a step is run with: its own, plus the id of the task. *)
Definition injected (task : model.Task) (step : model.PipelineStep) : Config :=
  <["task_id" := VString (model.ID task)]> (default ∅ (model.Config_ step)).

Definition stepName (i : nat) (step : model.PipelineStep) : string :=
  if isEmpty (model.Name step)
  then "Step " +:+ Itoa (i + 1) +:+ ": " +:+ model.Type_ step
  else model.Name step.

(** The entry written for the step at (0-based) position [i]. *)
Definition entry (started finished : Time) (i : nat) (step : model.PipelineStep)
    (status : string) (output : model.Output) (err : option string) : model.StepResult :=
  {| model.StepName := stepName i step; model.StepType := model.Type_ step;
     model.Status := status; model.StartedAt := started;
     model.FinishedAt := Some finished; model.Output_ := output; model.Error_ := err |}.

Definition failure (i : nat) (step : model.PipelineStep) (err : error) : error :=
  Errorf_w ("step " +:+ Itoa (i + 1) +:+ " (" +:+ model.Type_ step +:+ ") failed: ") err.

Definition withEnv (r : Runner) (e : E) : Runner :=
  {| taskRepo := taskRepo r; execRepo := execRepo r; env := e |}.

Definition withUpdate (r : Runner) (e : E) (id : string) (results : model.StepResults)
  : Runner :=
  {| taskRepo := taskRepo r;
     execRepo := fst (UpdateStepResults (execRepo r) id results);
     env := e |}.

(** The four ways a pass can end, by what the executor returned. *)
Lemma body_skip r task id i step rs cur e result err :
  executeStep X (env r) step (injected task step) cur = (e, (result, Some err)) ->
  isSkipPipelineError err = true ->
  executePipeline_body time_Now X r task id i step rs cur
  = (withEnv r e,
     Return (rs ++ [entry (time_Now (env r)) (time_Now e) i step
                          "skipped" model.OutputNone (Some (Error err))]) None).
Proof.
  intros Hx Hs. unfold executePipeline_body. fold (injected task step).
  rewrite Hx. cbv zeta. by rewrite Hs.
Qed.

Lemma body_failed r task id i step rs cur e result err :
  executeStep X (env r) step (injected task step) cur = (e, (result, Some err)) ->
  isSkipPipelineError err = false ->
  let results := rs ++ [entry (time_Now (env r)) (time_Now e) i step
                              "failed" model.OutputNone (Some (Error err))] in
  executePipeline_body time_Now X r task id i step rs cur
  = (withUpdate r e id results, Return results (Some (failure i step err))).
Proof.
  intros Hx Hs. unfold executePipeline_body. fold (injected task step).
  rewrite Hx. cbv zeta. rewrite Hs.
  unfold withUpdate, entry, setStatus, stepName, failure. simpl.
  by destruct (UpdateStepResults _ _ _).
Qed.

Lemma body_empty r task id i step rs cur e result :
  executeStep X (env r) step (injected task step) cur = (e, (result, None)) ->
  filter.SkipEmpty result = true ->
  executePipeline_body time_Now X r task id i step rs cur
  = (withEnv r e,
     Return (rs ++ [entry (time_Now (env r)) (time_Now e) i step "completed"
                          (model.OutputText "No new items found") None]) None).
Proof.
  intros Hx Hs. unfold executePipeline_body. fold (injected task step).
  rewrite Hx. cbv zeta. by rewrite Hs.
Qed.

Lemma body_completed r task id i step rs cur e result :
  executeStep X (env r) step (injected task step) cur = (e, (result, None)) ->
  filter.SkipEmpty result = false ->
  exists res, result = Some res /\
  let results := rs ++ [entry (time_Now (env r)) (time_Now e) i step "completed"
                              (model.OutputSummary (model.ItemCount res) (model.Metadata res))
                              None] in
  executePipeline_body time_Now X r task id i step rs cur
  = (withUpdate r e id results, Continue results result).
Proof.
  intros Hx Hs. destruct result as [res|]; [|done]. exists res. split; [done|].
  unfold executePipeline_body. fold (injected task step).
  rewrite Hx. cbv zeta. rewrite Hs.
  unfold withUpdate, entry, setStatus, stepName, failure. simpl.
  by destruct (UpdateStepResults _ _ _).
Qed.

(** A pass appends exactly one entry, and goes on only with a
    [completed] one. *)
Lemma body_continue r task id i step rs cur r' rs' cur' :
  executePipeline_body time_Now X r task id i step rs cur = (r', Continue rs' cur') ->
  exists s, rs' = rs ++ [s] /\ model.Status s = "completed" /\
    taskRepo r' = taskRepo r /\
    execRepo r' = fst (UpdateStepResults (execRepo r) id rs').
Proof.
  destruct (executeStep X (env r) step (injected task step) cur) as [e [result err]] eqn:Hx.
  destruct err as [err|].
  - destruct (isSkipPipelineError err) eqn:Hs.
    + by rewrite (body_skip _ _ _ _ _ _ _ _ _ _ Hx Hs).
    + by rewrite (body_failed _ _ _ _ _ _ _ _ _ _ Hx Hs).
  - destruct (filter.SkipEmpty result) eqn:Hs.
    + by rewrite (body_empty _ _ _ _ _ _ _ _ _ Hx Hs).
    + destruct (body_completed _ task id i _ rs _ _ _ Hx Hs) as (res & -> & ->).
      intros [= <- <- <-]. eexists. by repeat split.
Qed.

Lemma body_return r task id i step rs cur r' rs' err :
  executePipeline_body time_Now X r task id i step rs cur = (r', Return rs' err) ->
  exists s, rs' = rs ++ [s] /\ taskRepo r' = taskRepo r /\
    match err with
    | Some _ => model.Status s = "failed" /\
                execRepo r' = fst (UpdateStepResults (execRepo r) id rs')
    | None => model.Status s <> "failed" /\ execRepo r' = execRepo r
    end.
Proof.
  destruct (executeStep X (env r) step (injected task step) cur) as [e [result er]] eqn:Hx.
  destruct er as [er|].
  - destruct (isSkipPipelineError er) eqn:Hs.
    + rewrite (body_skip _ _ _ _ _ _ _ _ _ _ Hx Hs).
      intros [= <- <- <-]. eexists. by repeat split.
    + rewrite (body_failed _ _ _ _ _ _ _ _ _ _ Hx Hs).
      intros [= <- <- <-]. eexists. by repeat split.
  - destruct (filter.SkipEmpty result) eqn:Hs.
    + rewrite (body_empty _ _ _ _ _ _ _ _ _ Hx Hs).
      intros [= <- <- <-]. eexists. by repeat split.
    + by destruct (body_completed _ task id i _ rs _ _ _ Hx Hs) as (res & -> & ->).
Qed.

(** *** The loop *)

(** [advance] runs the steps as long as each of them goes on to the next:
    it gives the state in which the loop stands after [steps], if all of
    them completed with data. *)
Fixpoint advance (r : Runner) (task : model.Task) (id : string) (i : nat)
    (steps : list model.PipelineStep) (rs : model.StepResults)
    (cur : option model.ExecutorResult)
  : option (Runner * model.StepResults * option model.ExecutorResult) :=
  match steps with
  | [] => Some (r, rs, cur)
  | step :: rest =>
      match executePipeline_body time_Now X r task id i step rs cur with
      | (r', Continue rs' cur') => advance r' task id (S i) rest rs' cur'
      | (_, Return _ _) => None
      end
  end.

Lemma loop_advance task id pre post : forall r i rs cur r1 rs1 cur1,
  advance r task id i pre rs cur = Some (r1, rs1, cur1) ->
  executePipeline_loop time_Now X r task id i (pre ++ post) rs cur
  = executePipeline_loop time_Now X r1 task id (i + length pre) post rs1 cur1.
Proof.
  induction pre as [|step rest IH]; intros r i rs cur r1 rs1 cur1 H; simpl in *.
  - simplify_eq. by rewrite Nat.add_0_r.
  - destruct (executePipeline_body _ _ _ _ _ _ _ _ _) as [r' [rs' cur'|rs' err]]; [|done].
    rewrite (IH _ _ _ _ _ _ _ H). f_equal. lia.
Qed.

Lemma advance_spec task id pre : forall r i rs cur r1 rs1 cur1,
  advance r task id i pre rs cur = Some (r1, rs1, cur1) ->
  exists new, rs1 = rs ++ new /\ length new = length pre /\
    Forall (fun s => model.Status s = "completed") new /\
    taskRepo r1 = taskRepo r /\
    (openRow (execRepo r) id -> openRow (execRepo r1) id) /\
    (exec_faults (execRepo r) = [] -> exec_faults (execRepo r1) = []).
Proof.
  induction pre as [|step rest IH]; intros r i rs cur r1 rs1 cur1 H; simpl in *.
  - simplify_eq. exists []. by rewrite app_nil_r.
  - destruct (executePipeline_body _ _ _ _ _ _ _ _ _) as [r' [rs' cur'|rs' err]] eqn:Hb;
      [|done].
    apply body_continue in Hb as (s & -> & Hs & Ht & Hx).
    destruct (IH _ _ _ _ _ _ _ H) as (new & -> & Hlen & Hall & Ht' & Hopen & Hfs).
    exists (s :: new). rewrite <- app_assoc. simpl. repeat split; auto.
    + congruence.
    + intros Ho. apply Hopen. rewrite Hx. by apply UpdateStepResults_openRow.
    + intros Hf. apply Hfs. rewrite Hx. by apply UpdateStepResults_faults.
Qed.

(** The step results that the loop writes to the journal, from the ones
    it starts with to the ones it returns, each extend the one before. *)
Lemma loop_journal task id steps : forall r i rs cur r' rs' err,
  executePipeline_loop time_Now X r task id i steps rs cur = (r', (rs', err)) ->
  exists updates,
    journal (execRepo r') = journal (execRepo r) ++ (CallUpdateStepResults id <$> updates) /\
    StronglySorted prefix (rs :: updates ++ [rs']).
Proof.
  induction steps as [|step rest IH]; intros r i rs cur r' rs' err H; simpl in *.
  - simplify_eq. exists []. rewrite app_nil_r. split; [done|].
    repeat constructor. done.
  - destruct (executePipeline_body _ _ _ _ _ _ _ _ _) as [r1 [rs1 cur1|rs1 err1]] eqn:Hb.
    + apply body_continue in Hb as (s & -> & _ & _ & Hx).
      destruct (IH _ _ _ _ _ _ _ H) as (updates & Hj & Hsorted).
      exists ((rs ++ [s]) :: updates). split.
      * rewrite Hj, Hx, UpdateStepResults_journal. by rewrite <- app_assoc.
      * simpl. constructor; [|constructor]; [done| |].
        -- by apply prefix_app_r.
        -- apply StronglySorted_inv in Hsorted as [_ Hall].
           eapply Forall_impl; [exact Hall|].
           intros l Hl. etrans; [|exact Hl]. by apply prefix_app_r.
    + simplify_eq. apply body_return in Hb as (s & -> & _ & Hcase).
      destruct err as [err|].
      * destruct Hcase as [_ Hx]. exists [rs ++ [s]]. split.
        -- by rewrite Hx, UpdateStepResults_journal.
        -- repeat constructor; try done; by apply prefix_app_r.
      * destruct Hcase as [_ Hx]. exists []. rewrite Hx, app_nil_r. split; [done|].
        repeat constructor; by apply prefix_app_r.
Qed.

(** *** [Run] *)

(** The runner as the loop finds it: the execution is created and the
    task is (asked to be) marked [running]. *)
Definition started (r : Runner) (xr : ExecutionRepository) (task : model.Task) : Runner :=
  {| taskRepo := fst (UpdateStatus (taskRepo r) (time_Now (env r)) (model.ID task)
                                   model.TaskStatusRunning);
     execRepo := xr; env := env r |}.

Lemma Run_outcome r task triggeredBy xr execution r1 rs finalErr :
  Create (execRepo r) (time_Now (env r)) (model.ID task) (model.TaskName_ task) triggeredBy
  = (xr, inl execution) ->
  executePipeline time_Now X (started r xr task) task (model.ExecID execution)
  = (r1, (rs, finalErr)) ->
  exists r' stored,
    Run time_Now X r task triggeredBy = (r', (stored, finalErr)) /\
    env r' = env r1 /\
    journal (execRepo r')
    = journal (execRepo r1) ++ [terminalCall (model.ExecID execution) rs finalErr] /\
    (exec_faults (execRepo r1) = [] -> openRow (execRepo r1) (model.ExecID execution) ->
     exists row, stored = Some row /\
       executions (execRepo r') !! model.ExecID execution = Some row /\
       model.ExecStatus row = terminalStatus finalErr /\
       model.StepResults_ row = rs /\
       model.ExecError row = Error <$> finalErr).
Proof.
  intros Hc Hp. unfold Run. rewrite Hc.
  destruct (UpdateStatus (taskRepo r) _ _ _) as [tr e0] eqn:Hu.
  assert (Hst : started r xr task = {| taskRepo := tr; execRepo := xr; env := env r |})
    by (unfold started; by rewrite Hu).
  rewrite <- Hst, Hp.
  set (closed := match finalErr with
                 | Some err => Fail (execRepo r1) (time_Now (env r1)) (model.ExecID execution)
                                    rs (Error err)
                 | None => Complete (execRepo r1) (time_Now (env r1)) (model.ExecID execution) rs
                 end).
  assert (Hclosed : closed = terminate (execRepo r1) (time_Now (env r1))
                               (model.ExecID execution) (terminalStatus finalErr) rs
                               (Error <$> finalErr)
                               (terminalCall (model.ExecID execution) rs finalErr))
    by (by destruct finalErr).
  destruct closed as [xr2 e2] eqn:Hcl.
  destruct (UpdateStatus (taskRepo r1) _ _ _) as [tr1 e3].
  destruct (UpdateLastRunOnly tr1 _ _ _) as [tr2 e4].
  destruct (FindByID xr2 _) as [xr3 [stored e5]] eqn:Hfind.
  eexists _, stored. split; [reflexivity|]. simpl. split; [done|].
  assert (Hxr2 : xr2 = fst (terminate (execRepo r1) (time_Now (env r1))
                               (model.ExecID execution) (terminalStatus finalErr) rs
                               (Error <$> finalErr)
                               (terminalCall (model.ExecID execution) rs finalErr)))
    by (by rewrite <- Hclosed).
  unfold FindByID in Hfind. split.
  - destruct (roundTrip (exec_faults xr2)) as [[e6|] fs]; simplify_eq; simpl;
      apply terminate_journal.
  - intros Hf Ho.
    destruct (terminate_row _ (time_Now (env r1)) _ (terminalStatus finalErr) rs
                (Error <$> finalErr) (terminalCall (model.ExecID execution) rs finalErr)
                Hf Ho) as (Hf2 & row & Hrow & Hs & Hr & He & _).
    rewrite <- Hxr2 in Hf2, Hrow. rewrite Hf2 in Hfind. simpl in Hfind. simplify_eq.
    exists row. by repeat split.
Qed.

End Loop.

(** A result without data: no result at all, or data that is nil, an empty
    sequence of scraped items, an empty sequence of feed items, or the
    empty string. *)
Definition zeroData (result : option model.ExecutorResult) : Prop :=
  match result with
  | None => True
  | Some res =>
      model.Data_ res = model.DataNil \/
      model.Data_ res = model.DataScrapedItems [] \/
      model.Data_ res = model.DataRSSItems [] \/
      model.Data_ res = model.DataString ""
  end.

Lemma SkipEmpty_zeroData result : filter.SkipEmpty result = true <-> zeroData result.
Proof.
  destruct result as [[data md n]|]; simpl; [|done].
  destruct data as [|v|v|v|v]; simpl;
    rewrite ?bool_decide_eq_true, ?GoFacts.isEmpty_true;
    (split; [intros H|intros [H|[H|[H|H]]]]); simplify_eq; auto;
    destruct v; simplify_eq; auto.
Qed.

(** C4: in a run whose steps [pre] all completed with data, let the next
    step return, without error, a result without data (nil, no scraped
    items, no feed items, the empty string).  Then that step is
    recorded as [completed] with the output "No new items found", it is
    the last entry, and the run ends there: the state of the executors'
    world after the run is the one this step left, whatever steps [post]
    come after it, so none of them (the chat sink in particular) is
    invoked.  [Run] returns no error and closes the journal with
    [Complete]; with no database fault pending, the stored execution is
    [completed], with no error. *)
Theorem empty_result_short_circuits {E : Type} (time_Now : E -> Time) (X : @Executors E)
    (r : @PipelineRunner E) task triggeredBy xr execution pre step post r1 rs1 cur1 e2 result :
  Create (execRepo r) (time_Now (env r)) (model.ID task) (model.TaskName_ task) triggeredBy
  = (xr, inl execution) ->
  model.Pipeline task = pre ++ step :: post ->
  advance time_Now X (started time_Now r xr task) task (model.ExecID execution) 0 pre [] None
  = Some (r1, rs1, cur1) ->
  executeStep X (env r1) step (injected task step) cur1 = (e2, (result, None)) ->
  zeroData result ->
  let last := entry (time_Now (env r1)) (time_Now e2) (length pre) step "completed"
                    (model.OutputText "No new items found") None in
  exists r' stored,
    Run time_Now X r task triggeredBy = (r', (stored, None)) /\
    executePipeline time_Now X (started time_Now r xr task) task (model.ExecID execution)
    = (withEnv r1 e2, (rs1 ++ [last], None)) /\
    length rs1 = length pre /\
    Forall (fun s => model.Status s = "completed") (rs1 ++ [last]) /\
    env r' = e2 /\
    journal (execRepo r')
    = journal (execRepo r1) ++ [CallComplete (model.ExecID execution) (rs1 ++ [last])] /\
    (exec_faults (execRepo r) = [] ->
     exists row, stored = Some row /\
       model.ExecStatus row = model.ExecutionStatusCompleted /\
       model.ExecError row = None /\
       model.StepResults_ row = rs1 ++ [last]).
Proof.
  intros Hc Hp Ha Hx Hs last. apply SkipEmpty_zeroData in Hs.
  destruct (advance_spec _ _ _ _ _ _ _ _ _ _ _ _ Ha)
    as (new & Hnew & Hlen & Hall & _ & Hopen & Hfs). simpl in Hnew. subst rs1.
  assert (Hrun : executePipeline time_Now X (started time_Now r xr task) task
                   (model.ExecID execution) = (withEnv r1 e2, (new ++ [last], None))).
  { unfold executePipeline. rewrite Hp, (loop_advance _ _ _ _ _ _ _ _ _ _ _ _ _ Ha). simpl.
    by rewrite (body_empty _ _ _ _ _ _ _ _ _ _ _ Hx Hs). }
  destruct (Run_outcome _ _ _ _ _ _ _ _ _ _ Hc Hrun) as (r' & stored & HR & He & Hj & Hrow).
  exists r', stored. repeat split; try done.
  - apply Forall_app. split; [done|]. by repeat constructor.
  - intros Hf. destruct (Create_inl _ _ _ _ _ _ _ Hc) as (_ & Ho & _ & Hf').
    rewrite Hf in Hf'. simpl in Hf'.
    destruct Hrow as (row & ? & ? & ? & ? & ?); [by apply Hfs|by apply Hopen|].
    exists row. by repeat split.
Qed.

(** C5: in a run whose steps [pre] all completed with data, let the next
    step (number [length pre + 1]) return an error that is not the skip
    signal.  Then [Run] returns an error whose message is exactly
    "step <i> (<type>) failed: <the step's error>"; the step's entry is
    [failed], carries the step's error, and is the last entry; all entries
    before it are [completed]; no later step is run (the executors' world
    is left as this step left it).  The journal is closed with [Fail];
    with no database fault pending, the stored execution is [failed] with
    that message. *)
Theorem step_failure_fails_execution {E : Type} (time_Now : E -> Time) (X : @Executors E)
    (r : @PipelineRunner E) task triggeredBy xr execution pre step post r1 rs1 cur1 e2
    result err :
  Create (execRepo r) (time_Now (env r)) (model.ID task) (model.TaskName_ task) triggeredBy
  = (xr, inl execution) ->
  model.Pipeline task = pre ++ step :: post ->
  advance time_Now X (started time_Now r xr task) task (model.ExecID execution) 0 pre [] None
  = Some (r1, rs1, cur1) ->
  executeStep X (env r1) step (injected task step) cur1 = (e2, (result, Some err)) ->
  isSkipPipelineError err = false ->
  let last := entry (time_Now (env r1)) (time_Now e2) (length pre) step "failed"
                    model.OutputNone (Some (Error err)) in
  let message := "step " +:+ Itoa (length pre + 1) +:+ " (" +:+ model.Type_ step
                 +:+ ") failed: " +:+ Error err in
  exists r' stored finalErr,
    Run time_Now X r task triggeredBy = (r', (stored, Some finalErr)) /\
    Error finalErr = message /\
    executePipeline time_Now X (started time_Now r xr task) task (model.ExecID execution)
    = (withUpdate r1 e2 (model.ExecID execution) (rs1 ++ [last]),
       (rs1 ++ [last], Some finalErr)) /\
    length rs1 = length pre /\
    Forall (fun s => model.Status s = "completed") rs1 /\
    env r' = e2 /\
    journal (execRepo r')
    = journal (execRepo r1)
      ++ [CallUpdateStepResults (model.ExecID execution) (rs1 ++ [last]);
          CallFail (model.ExecID execution) (rs1 ++ [last]) message] /\
    (exec_faults (execRepo r) = [] ->
     exists row, stored = Some row /\
       model.ExecStatus row = model.ExecutionStatusFailed /\
       model.ExecError row = Some message /\
       model.StepResults_ row = rs1 ++ [last]).
Proof.
  intros Hc Hp Ha Hx Hs last message.
  destruct (advance_spec _ _ _ _ _ _ _ _ _ _ _ _ Ha)
    as (new & Hnew & Hlen & Hall & _ & Hopen & Hfs). simpl in Hnew. subst rs1.
  assert (Hmsg : Error (failure (length pre) step err) = message).
  { unfold failure, message. by rewrite GoFacts.Error_Errorf_w, !GoFacts.append_assoc. }
  assert (Hrun : executePipeline time_Now X (started time_Now r xr task) task
                   (model.ExecID execution)
                 = (withUpdate r1 e2 (model.ExecID execution) (new ++ [last]),
                    (new ++ [last], Some (failure (length pre) step err)))).
  { unfold executePipeline. rewrite Hp, (loop_advance _ _ _ _ _ _ _ _ _ _ _ _ _ Ha). simpl.
    by rewrite (body_failed _ _ _ _ _ _ _ _ _ _ _ _ Hx Hs). }
  destruct (Run_outcome _ _ _ _ _ _ _ _ _ _ Hc Hrun) as (r' & stored & HR & He & Hj & Hrow).
  exists r', stored, (failure (length pre) step err). repeat split; try done.
  - rewrite Hj. unfold terminalCall. rewrite Hmsg. unfold withUpdate. cbn [execRepo].
    rewrite UpdateStepResults_journal. by rewrite <- app_assoc.
  - intros Hf. destruct (Create_inl _ _ _ _ _ _ _ Hc) as (_ & Ho & _ & Hf').
    rewrite Hf in Hf'. simpl in Hf'.
    destruct Hrow as (row & ? & ? & ? & ? & Herr).
    + simpl. apply UpdateStepResults_faults. by apply Hfs.
    + simpl. apply UpdateStepResults_openRow. by apply Hopen.
    + exists row. cbn [fmap option_fmap option_map] in Herr. rewrite Hmsg in Herr.
      by repeat split.
Qed.

(** *** The stored row of an execution *)

(** The repository after each write of step results, in order, and after
    all of them. *)
Fixpoint afterWrites (xr : ExecutionRepository) (id : string)
    (updates : list model.StepResults) : list ExecutionRepository :=
  match updates with
  | [] => []
  | results :: rest =>
      let xr' := fst (UpdateStepResults xr id results) in
      xr' :: afterWrites xr' id rest
  end.

Definition written (xr : ExecutionRepository) (id : string)
    (updates : list model.StepResults) : ExecutionRepository :=
  default xr (last (afterWrites xr id updates)).

(** A row that is not closed: at [running], with no error, no finishing
    time and no duration. *)
Definition unfinished (row : model.Execution) : Prop :=
  model.ExecStatus row = model.ExecutionStatusRunning /\
  model.ExecError row = None /\
  model.ExecFinishedAt row = None /\
  model.Duration row = None.

(** The values that a column holds after each of a sequence of writes,
    when a write either stores its value or fails and leaves the column
    as it is. *)
Inductive storedFrom {A : Type} : A -> list A -> list A -> Prop :=
| stored_nil v : storedFrom v [] []
| stored_kept v w ws vs : storedFrom v ws vs -> storedFrom v (w :: ws) (v :: vs)
| stored_set v w ws vs : storedFrom w ws vs -> storedFrom v (w :: ws) (w :: vs).

Lemma default_last_cons {A} (a b : A) l : default a (last (b :: l)) = default b (last l).
Proof.
  destruct l as [|c l]; [done|]. rewrite last_cons_cons.
  by destruct (proj2 (last_is_Some (c :: l))) as [x ->].
Qed.

Lemma storedFrom_app {A} (v : A) ws vs ws' vs' :
  storedFrom v ws vs -> storedFrom (default v (last vs)) ws' vs' ->
  storedFrom v (ws ++ ws') (vs ++ vs').
Proof.
  intros H. induction H as [v|v w ws vs H IH|v w ws vs H IH]; intros H'.
  - done.
  - rewrite default_last_cons in H'. simpl. by apply stored_kept, IH.
  - rewrite default_last_cons in H'. simpl. by apply stored_set, IH.
Qed.

(** Writes that form a chain leave a chain, made of values that were
    written. *)
Lemma storedFrom_chain (v : model.StepResults) ws vs :
  storedFrom v ws vs -> StronglySorted prefix (v :: ws) ->
  StronglySorted prefix (v :: vs) /\ Forall (fun x => x ∈ v :: ws) vs.
Proof.
  intros H. induction H as [v|v w ws vs H IH|v w ws vs H IH]; intros Hs.
  - split; [done|constructor].
  - apply StronglySorted_inv in Hs as [Hs Hall].
    apply StronglySorted_inv in Hs as [Hs _]. apply Forall_cons in Hall as [_ Hall].
    destruct IH as [IH1 IH2]; [by constructor|]. split.
    + constructor; [done|]. constructor; [done|].
      by apply StronglySorted_inv in IH1 as [_ ?].
    + constructor; [by left|]. eapply Forall_impl; [exact IH2|]. simpl.
      intros x [->|Hx]%elem_of_cons; [by left|]. right. by right.
  - apply StronglySorted_inv in Hs as [Hs Hall]. apply Forall_cons in Hall as [Hvw Hall].
    destruct (IH Hs) as [IH1 IH2]. split.
    + constructor; [done|]. constructor; [done|].
      apply StronglySorted_inv in IH1 as [_ Hwv].
      eapply Forall_impl; [exact Hwv|]. intros x Hx. by etrans.
    + constructor; [right; by left|]. eapply Forall_impl; [exact IH2|]. simpl.
      intros x Hx. by right.
Qed.

Lemma storedFrom_length {A} (v : A) ws vs : storedFrom v ws vs -> length vs = length ws.
Proof. induction 1; simpl; auto. Qed.

Lemma written_cons xr id results rest :
  written xr id (results :: rest) = written (fst (UpdateStepResults xr id results)) id rest.
Proof. unfold written. simpl. apply default_last_cons. Qed.

Lemma written_journal id updates : forall xr,
  journal (written xr id updates) = journal xr ++ (CallUpdateStepResults id <$> updates).
Proof.
  induction updates as [|u us IH]; intros xr; [by rewrite app_nil_r|].
  rewrite written_cons, IH, UpdateStepResults_journal. by rewrite <- app_assoc.
Qed.

Lemma Create_row xr now taskID taskName triggeredBy xr' execution :
  Create xr now taskID taskName triggeredBy = (xr', inl execution) ->
  executions xr' !! model.ExecID execution = Some execution /\
  unfinished execution /\
  model.StepResults_ execution = [] /\
  (exec_faults xr = [] -> exec_faults xr' = []).
Proof.
  unfold Create, withJournal.
  destruct (roundTrip (exec_faults xr)) as [[err|] fs] eqn:Hr; [done|].
  intros [= <- <-]. simpl. split; [by rewrite lookup_insert_eq|].
  split; [done|]. split; [done|]. intros Hf. rewrite Hf in Hr. by injection Hr as <-.
Qed.

(** A write of step results stores its argument, or fails and leaves the
    row as it is; it touches no other column. *)
Lemma UpdateStepResults_stored xr id results row :
  executions xr !! id = Some row ->
  let xr' := fst (UpdateStepResults xr id results) in
  (executions xr' !! id = Some row
   \/ executions xr' !! id = Some (setStepResults results row)) /\
  (exec_faults xr = [] ->
     executions xr' !! id = Some (setStepResults results row) /\ exec_faults xr' = []).
Proof.
  intros Hrow. unfold UpdateStepResults, withJournal.
  destruct (roundTrip (exec_faults xr)) as [[err|] fs] eqn:Hr; simpl.
  - split; [by left|]. intros Hf. by rewrite Hf in Hr.
  - rewrite lookup_alter_eq, Hrow. simpl. split; [by right|].
    intros Hf. split; [done|]. rewrite Hf in Hr. by injection Hr as <-.
Qed.

Lemma afterWrites_rows id updates : forall xr row,
  executions xr !! id = Some row ->
  unfinished row ->
  exists rows,
    (fun xr' => executions xr' !! id) <$> afterWrites xr id updates = Some <$> rows /\
    Forall unfinished rows /\
    executions (written xr id updates) !! id = Some (default row (last rows)) /\
    storedFrom (model.StepResults_ row) updates (model.StepResults_ <$> rows) /\
    (exec_faults xr = [] ->
       model.StepResults_ <$> rows = updates /\ exec_faults (written xr id updates) = []).
Proof.
  induction updates as [|u us IH]; intros xr row Hrow Hun.
  - exists []. repeat split; try done. constructor.
  - destruct (UpdateStepResults_stored xr id u row Hrow) as [Hcases Hok].
    cbv zeta in Hcases, Hok. rewrite written_cons. cbn [afterWrites]. rewrite fmap_cons.
    destruct Hcases as [Hkept|Hset].
    + destruct (IH _ row Hkept Hun) as (rows & Hrows & Hall & Hlast & Hst & Hnf).
      exists (row :: rows). rewrite !fmap_cons, Hkept, Hrows, default_last_cons.
      split; [done|]. split; [by constructor|]. split; [done|].
      split; [by apply stored_kept|].
      intros Hf. destruct (Hok Hf) as [Hs Hf']. rewrite Hkept in Hs.
      injection Hs as Hs. destruct (Hnf Hf') as [Hvals Hfs]. split; [|done].
      rewrite Hvals. f_equal. by rewrite Hs.
    + assert (Hun' : unfinished (setStepResults u row)) by done.
      destruct (IH _ _ Hset Hun') as (rows & Hrows & Hall & Hlast & Hst & Hnf).
      exists (setStepResults u row :: rows).
      rewrite !fmap_cons, Hset, Hrows, default_last_cons.
      split; [done|]. split; [by constructor|]. split; [done|].
      split; [by apply stored_set|].
      intros Hf. destruct (Hok Hf) as [_ Hf']. destruct (Hnf Hf') as [Hvals Hfs].
      split; [|done]. by rewrite Hvals.
Qed.

(** The closing write stores the terminal status, the finishing time, the
    duration, the step results and (for [Fail]) the error, or fails and
    leaves the table as it is. *)
Lemma terminate_stored xr now id status results errMsg call row :
  executions xr !! id = Some row ->
  let closing := terminate xr now id status results errMsg call in
  match snd closing with
  | None =>
      executions (fst closing) !! id
      = Some (finish status now (now - model.ExecStartedAt row) results errMsg row)
  | Some _ => executions (fst closing) = executions xr
  end /\
  (exec_faults xr = [] -> snd closing = None).
Proof.
  intros Hrow. unfold terminate, FindByID, withJournal.
  destruct (roundTrip (exec_faults xr)) as [[e1|] fs1] eqn:Hr1; simpl.
  { split; [done|]. intros Hf. by rewrite Hf in Hr1. }
  destruct (roundTrip fs1) as [[e2|] fs2] eqn:Hr2; simpl.
  { split; [done|]. intros Hf. rewrite Hf in Hr1. injection Hr1 as <-. done. }
  rewrite Hrow. simpl. by rewrite lookup_alter_eq, Hrow.
Qed.

(** The repository in which the loop ends is the one after its writes of
    step results, which form a chain from the step results the loop
    started with to the ones it returns. *)
Lemma loop_writes {E : Type} (time_Now : E -> Time) (X : @Executors E) task id steps :
  forall (r : @PipelineRunner E) i rs cur r' rs' err,
  executePipeline_loop time_Now X r task id i steps rs cur = (r', (rs', err)) ->
  exists updates,
    execRepo r' = written (execRepo r) id updates /\
    StronglySorted prefix (rs :: updates ++ [rs']).
Proof.
  induction steps as [|step rest IH]; intros r i rs cur r' rs' err H; simpl in *.
  - simplify_eq. exists []. split; [done|]. repeat constructor. done.
  - destruct (executePipeline_body _ _ _ _ _ _ _ _ _) as [r1 [rs1 cur1|rs1 err1]] eqn:Hb.
    + apply body_continue in Hb as (s & -> & _ & _ & Hx).
      destruct (IH _ _ _ _ _ _ _ H) as (updates & Hw & Hsorted).
      exists ((rs ++ [s]) :: updates). split.
      * by rewrite written_cons, <- Hx.
      * simpl. constructor; [|constructor]; [done| |].
        -- by apply prefix_app_r.
        -- apply StronglySorted_inv in Hsorted as [_ Hall].
           eapply Forall_impl; [exact Hall|].
           intros l Hl. etrans; [|exact Hl]. by apply prefix_app_r.
    + simplify_eq. apply body_return in Hb as (s & -> & _ & Hcase).
      destruct err as [err|].
      * destruct Hcase as [_ Hx]. exists [rs ++ [s]]. split; [done|].
        repeat constructor; try done; by apply prefix_app_r.
      * destruct Hcase as [_ Hx]. exists []. split; [done|].
        repeat constructor; by apply prefix_app_r.
Qed.

(** After the closing write, [Run] writes nothing to the executions. *)
Lemma Run_closing {E : Type} (time_Now : E -> Time) (X : @Executors E)
    (r : @PipelineRunner E) task triggeredBy xr execution r1 rs finalErr :
  Create (execRepo r) (time_Now (env r)) (model.ID task) (model.TaskName_ task) triggeredBy
  = (xr, inl execution) ->
  executePipeline time_Now X (started time_Now r xr task) task (model.ExecID execution)
  = (r1, (rs, finalErr)) ->
  let after := Run time_Now X r task triggeredBy in
  let closing :=
    terminate (execRepo r1) (time_Now (env r1)) (model.ExecID execution)
              (terminalStatus finalErr) rs (Error <$> finalErr)
              (terminalCall (model.ExecID execution) rs finalErr) in
  executions (execRepo (fst after)) = executions (fst closing) /\
  journal (execRepo (fst after)) = journal (fst closing) /\
  env (fst after) = env r1 /\
  snd (snd after) = finalErr.
Proof.
  intros Hc Hp after closing. subst after closing. unfold Run. rewrite Hc.
  destruct (UpdateStatus (taskRepo r) _ _ _) as [tr e0] eqn:Hu.
  assert (Hst : started time_Now r xr task = {| taskRepo := tr; execRepo := xr; env := env r |})
    by (unfold started; by rewrite Hu).
  rewrite <- Hst, Hp.
  assert (Hclosed : match finalErr with
                    | Some err => Fail (execRepo r1) (time_Now (env r1))
                                       (model.ExecID execution) rs (Error err)
                    | None => Complete (execRepo r1) (time_Now (env r1))
                                       (model.ExecID execution) rs
                    end
                    = terminate (execRepo r1) (time_Now (env r1))
                                (model.ExecID execution) (terminalStatus finalErr) rs
                                (Error <$> finalErr)
                                (terminalCall (model.ExecID execution) rs finalErr))
    by (by destruct finalErr).
  rewrite Hclosed.
  destruct (terminate _ _ _ _ _ _ _) as [xr2 e2].
  destruct (UpdateStatus (taskRepo r1) _ _ _) as [tr1 e3].
  destruct (UpdateLastRunOnly tr1 _ _ _) as [tr2 e4].
  unfold FindByID. by destruct (roundTrip (exec_faults xr2)) as [[e6|] fs].
Qed.

(** C9: the stored row of an execution through one [Run], for any
    executors and any database faults.  When the execution cannot be
    created, nothing is stored.  Otherwise [Create] stores the row at
    [running] with no step results.  The run then writes step results
    some number of times and closes the execution with one call of
    [Complete] or [Fail], its last write; the values written form a
    chain under prefix extension.  Each write of step results stores
    its value or fails and leaves the row as it is, and touches nothing
    else: after each of them the row is still at [running], without
    error and finishing time, so the step results that the row holds
    one after the other form a chain too, each a value that was
    written.  The closing write is the only one that sets the status:
    when it returns no error the row has the terminal status
    ([completed] for a run without error, [failed] otherwise), the last
    step results, the error of the run and the finishing time; when it
    fails the row stays as it was.  After the closing write [Run]
    changes no execution.  With no database fault pending every write
    is stored, the closing one included: the status is then set exactly
    once.  The row is at [running] in every state before the closing
    write, so a run that stops before that write has set no terminal
    status. *)
Theorem journal_grows_then_closes_once {E : Type} (time_Now : E -> Time) (X : @Executors E)
    (r : @PipelineRunner E) task triggeredBy :
  let create := CallCreate (model.ID task) (model.TaskName_ task) triggeredBy in
  let created :=
    Create (execRepo r) (time_Now (env r)) (model.ID task) (model.TaskName_ task)
           triggeredBy in
  let after := Run time_Now X r task triggeredBy in
  match snd created with
  | inr _ =>
      journal (execRepo (fst after)) = journal (execRepo r) ++ [create] /\
      executions (execRepo (fst after)) = executions (execRepo r)
  | inl execution =>
      let id := model.ExecID execution in
      let finalErr := snd (snd after) in
      exists updates results rows final,
        (* the calls *)
        journal (execRepo (fst after))
        = journal (execRepo r) ++ create
            :: (CallUpdateStepResults id <$> updates)
            ++ [terminalCall id results finalErr] /\
        StronglySorted prefix (model.StepResults_ execution :: updates ++ [results]) /\
        model.StepResults_ execution = [] /\
        (* the row *)
        let closing :=
          terminate (written (fst created) id updates) (time_Now (env (fst after))) id
                    (terminalStatus finalErr) results (Error <$> finalErr)
                    (terminalCall id results finalErr) in
        executions (fst created) !! id = Some execution /\
        unfinished execution /\
        (fun xr => executions xr !! id) <$> afterWrites (fst created) id updates
        = Some <$> rows /\
        Forall unfinished rows /\
        executions (fst closing) !! id = Some final /\
        executions (execRepo (fst after)) = executions (fst closing) /\
        StronglySorted prefix ([] :: (model.StepResults_ <$> rows ++ [final])) /\
        Forall (fun row => model.StepResults_ row ∈ [] :: updates ++ [results])
               (rows ++ [final]) /\
        match snd closing with
        | None =>
            model.ExecStatus final = terminalStatus finalErr /\
            model.StepResults_ final = results /\
            model.ExecError final = Error <$> finalErr /\
            model.ExecFinishedAt final = Some (time_Now (env (fst after)))
        | Some _ => final = default execution (last rows)
        end /\
        (exec_faults (execRepo r) = [] ->
           snd closing = None /\ model.StepResults_ <$> rows = updates)
  end.
Proof.
  intros create created after. subst created.
  destruct (Create (execRepo r) _ _ _ _) as [xr [execution|err]] eqn:Hc; cbn [fst snd].
  - set (id := model.ExecID execution). set (finalErr := snd (snd after)).
    destruct (executePipeline time_Now X (started time_Now r xr task) task id)
      as [r1 [rs finalErr1]] eqn:Hp.
    destruct (Run_closing _ _ _ _ _ _ _ _ _ _ Hc Hp) as (Hex & Hj & Henv & Herr).
    fold after in Hex, Hj, Henv, Herr. fold finalErr in Herr. subst finalErr1.
    destruct (loop_writes _ _ _ _ _ _ _ _ _ _ _ _ Hp) as (updates & Hw & Hsorted).
    change (execRepo (started time_Now r xr task)) with xr in Hw.
    destruct (Create_row _ _ _ _ _ _ _ Hc) as (Hrow & Hun & Hnil & Hf0).
    destruct (Create_inl _ _ _ _ _ _ _ Hc) as (Hcj & _ & _ & _).
    fold id in Hrow.
    destruct (afterWrites_rows id updates xr execution Hrow Hun)
      as (rows & Hrows & Hall & Hlast & Hst & Hnf).
    rewrite Henv. rewrite Hw in Hex, Hj.
    set (closing := terminate (written xr id updates) (time_Now (env r1)) id
                              (terminalStatus finalErr) rs (Error <$> finalErr)
                              (terminalCall id rs finalErr)) in *.
    destruct (terminate_stored (written xr id updates) (time_Now (env r1)) id
                (terminalStatus finalErr) rs (Error <$> finalErr)
                (terminalCall id rs finalErr) _ Hlast) as [Hclose Hcf].
    fold closing in Hclose, Hcf.
    set (rown := default execution (last rows)) in *.
    assert (Hrown : unfinished rown).
    { subst rown. destruct (last rows) as [x|] eqn:Hl; simpl; [|done].
      apply last_Some in Hl as [l' ->]. by apply Forall_app in Hall as [_ [? _]%Forall_cons]. }
    set (final := match snd closing with
                  | None => finish (terminalStatus finalErr) (time_Now (env r1))
                                   (time_Now (env r1) - model.ExecStartedAt rown) rs
                                   (Error <$> finalErr) rown
                  | Some _ => rown
                  end).
    assert (Hfinal : executions (fst closing) !! id = Some final).
    { subst final. destruct (snd closing); [by rewrite Hclose|done]. }
    assert (Hstored : storedFrom [] (updates ++ [rs])
                        ((model.StepResults_ <$> rows) ++ [model.StepResults_ final])).
    { rewrite Hnil in Hst. apply storedFrom_app; [exact Hst|].
      assert (default [] (last (model.StepResults_ <$> rows)) = model.StepResults_ rown) as ->.
      { subst rown. rewrite fmap_last. destruct (last rows); simpl; [done|by rewrite Hnil]. }
      subst final. destruct (snd closing); [apply stored_kept|apply stored_set]; constructor. }
    destruct (storedFrom_chain _ _ _ Hstored Hsorted) as [Hchain Hmem].
    exists updates, rs, rows, final.
    split. { rewrite Hj. unfold closing. rewrite terminate_journal, written_journal, Hcj.
             by rewrite <- !app_assoc. }
    split; [by rewrite Hnil|]. split; [done|]. cbv zeta. fold closing.
    split; [done|]. split; [done|]. split; [done|]. split; [done|]. split; [done|].
    split; [done|].
    split. { by rewrite fmap_app. }
    split. { apply Forall_app in Hmem as [H1 H2]. apply Forall_app.
             split; [by apply Forall_fmap in H1|].
             apply Forall_cons in H2 as [H2 _]. by constructor. }
    split.
    + subst final. destruct (snd closing) as [e|]; [done|].
      destruct Hrown as (_ & He & _). simpl. rewrite He.
      repeat split; try done. by destruct finalErr.
    + intros Hf. destruct (Hnf (Hf0 Hf)) as [Hvals Hfs]. split; [by apply Hcf|done].
  - subst after. unfold Run. rewrite Hc. simpl.
    by destruct (Create_inr _ _ _ _ _ _ _ Hc) as [-> ->].
Qed.

(** *** A small world to run the pipeline in *)

(** The executors' world is the number of executor calls made so far,
    which also serves as the clock.  The scraper finds one job; the filter
    has seen everything; the AI provider answers HTTP 500; the chat sink
    sends. *)
Definition clock (e : nat) : Time := Z.of_nat e.

Definition found : model.ExecutorResult :=
  {| model.Data_ :=
       model.DataScrapedItems
         [CacheFacts.scrapedItem "42" "https://example.org/jobs/42" "remoteok"];
     model.Metadata := ∅; model.ItemCount := 1 |}.

Definition nothing : model.ExecutorResult :=
  {| model.Data_ := model.DataScrapedItems []; model.Metadata := ∅; model.ItemCount := 0 |}.

Definition sent : model.ExecutorResult :=
  {| model.Data_ := model.DataOther (VObject [("status", VString "sent")]);
     model.Metadata := ∅; model.ItemCount := 1 |}.

Definition stubs : @Executors nat :=
  {| aiExecutor := fun e _ _ =>
       (S e, (None, Some (Errorf_w "AI processing failed: " (errorString "HTTP 500"))));
     scraperExec := fun e _ _ => (S e, (Some found, None));
     rssExec := fun e _ _ => (S e, (Some nothing, None));
     discordExec := fun e _ _ => (S e, (Some sent, None));
     filterExec := fun e _ _ => (S e, (Some nothing, None));
     discordRepo := None |}.

Definition stepOf (type : string) : model.PipelineStep :=
  {| model.Type_ := type; model.Name := ""; model.Config_ := None |}.

Definition taskOf (id : string) (status : model.TaskStatus)
    (pipeline : list model.PipelineStep) : model.Task :=
  {| model.ID := id; model.TaskName_ := "jobs"; model.Description := "";
     model.Schedule := "@hourly"; model.TaskStatus_ := status;
     model.Pipeline := pipeline; model.LastRunAt := None; model.NextRunAt := None;
     model.CreatedBy := "u1"; model.CreatedAt := 0; model.UpdatedAt := 0 |}.

(** [scraper, filter, discord]: the filter lets nothing through. *)
Definition quiet : model.Task :=
  taskOf "t1" model.TaskStatusEnabled [stepOf "scraper"; stepOf "filter"; stepOf "discord"].

(** [scraper, ai_processor, discord]: the provider fails. *)
Definition broken : model.Task :=
  taskOf "t2" model.TaskStatusEnabled
         [stepOf "scraper"; stepOf "ai_processor"; stepOf "discord"].

Definition fresh : @PipelineRunner nat :=
  {| taskRepo := {| tasks := {[ "t1" := quiet; "t2" := broken ]}; task_faults := [] |};
     execRepo := {| executions := ∅;
                    gen_random_uuid := fun n => "exec-" +:+ pretty n;
                    generated := 0; exec_faults := []; journal := [] |};
     env := 0 |}.

(** The quiet task: two executor calls are made, the chat sink is not
    called, and the execution is [completed]. *)
Lemma empty_result_short_circuits_witness :
  exists r' stored,
    Run clock stubs fresh quiet "schedule" = (r', (stored, None)) /\
    env r' = 2 /\
    (model.ExecStatus <$> stored) = Some model.ExecutionStatusCompleted /\
    (model.ExecError <$> stored) = Some None /\
    (fun row => (fun s => (model.StepType s, model.Status s, model.Output_ s))
                  <$> model.StepResults_ row) <$> stored
    = Some [("scraper", "completed", model.OutputSummary 1 ∅);
            ("filter", "completed", model.OutputText "No new items found")].
Proof.
  edestruct (empty_result_short_circuits clock stubs fresh quiet "schedule")
    with (pre := [stepOf "scraper"]) (step := stepOf "filter") (post := [stepOf "discord"])
    as (r' & stored & HR & _ & _ & _ & He & _ & Hrow).
  - vm_compute. reflexivity.
  - reflexivity.
  - vm_compute. reflexivity.
  - vm_compute. reflexivity.
  - right. left. reflexivity.
  - destruct (Hrow eq_refl) as (row & -> & Hs & Herr & Hrs).
    exists r', (Some row). simpl. rewrite Hs, Herr, Hrs. by repeat split.
Defined.

(** The broken task: the scraper completes, the provider fails, the chat
    sink is not called, and the execution is [failed] at step 2. *)
Lemma step_failure_fails_execution_witness :
  exists r' stored finalErr,
    Run clock stubs fresh broken "schedule" = (r', (stored, Some finalErr)) /\
    Error finalErr = "step 2 (ai_processor) failed: AI processing failed: HTTP 500" /\
    env r' = 2 /\
    (model.ExecStatus <$> stored) = Some model.ExecutionStatusFailed /\
    (model.ExecError <$> stored)
    = Some (Some "step 2 (ai_processor) failed: AI processing failed: HTTP 500") /\
    (fun row => (fun s => (model.StepType s, model.Status s)) <$> model.StepResults_ row)
      <$> stored
    = Some [("scraper", "completed"); ("ai_processor", "failed")].
Proof.
  edestruct (step_failure_fails_execution clock stubs fresh broken "schedule")
    with (pre := [stepOf "scraper"]) (step := stepOf "ai_processor")
         (post := [stepOf "discord"])
    as (r' & stored & finalErr & HR & Hmsg & _ & _ & _ & He & _ & Hrow).
  - vm_compute. reflexivity.
  - reflexivity.
  - vm_compute. reflexivity.
  - vm_compute. reflexivity.
  - reflexivity.
  - destruct (Hrow eq_refl) as (row & -> & Hs & Herr & Hrs).
    exists r', (Some row), finalErr. simpl. rewrite Hs, Herr, Hrs. by repeat split.
Defined.

(** The journal of that failing run: the row is created, the step results
    are written after each of the two steps, and the execution is closed
    once, with [Fail]. *)
Example journal_of_failing_run :
  (fun c => match c with
            | CallCreate _ _ _ => ("create", 0)
            | CallUpdateStepResults _ rs => ("update", length rs)
            | CallComplete _ rs => ("complete", length rs)
            | CallFail _ rs _ => ("fail", length rs)
            end) <$> journal (execRepo (fst (Run clock stubs fresh broken "schedule")))
  = [("create", 0); ("update", 1); ("update", 2); ("fail", 2)].
Proof. by vm_compute. Qed.

End RunnerFacts.

(** ** The cron scheduler *)

Module SchedulerFacts.
Import storage scheduler.

(** *** Fields of a cron expression *)

Definition isBlank (c : ascii) : bool :=
  bool_decide (c = " "%char) || bool_decide (c = "009"%char).

(** The number of fields of an expression: the maximal runs of characters
    other than space and tab.  [inField] tells whether the character
    before was part of a field. *)
Fixpoint fields (inField : bool) (s : string) : nat :=
  match s with
  | EmptyString => 0
  | String c rest =>
      if isBlank c then fields false rest
      else (if inField then 0 else 1) + fields true rest
  end.

Definition fieldCount (s : string) : nat := fields false s.

Lemma isEmpty_snoc (current : string) (c : ascii) :
  isEmpty (current +:+ String c "") = false.
Proof. unfold isEmpty. apply bool_decide_eq_false. by destruct current. Qed.

Lemma splitCronParts_loop_length schedule : forall parts current,
  length (splitCronParts_loop schedule parts current)
  = length parts + (if isEmpty current then fields false schedule
                    else 1 + fields true schedule).
Proof.
  induction schedule as [|c rest IH]; intros parts current; simpl.
  - destruct (isEmpty current); simpl; [lia|]. rewrite length_app. simpl. lia.
  - fold (isBlank c). destruct (isBlank c).
    + destruct (isEmpty current) eqn:Hc; simpl; rewrite IH.
      * by rewrite Hc.
      * rewrite length_app. simpl. change (isEmpty "") with true. simpl. lia.
    + rewrite IH, isEmpty_snoc. destruct (isEmpty current); lia.
Qed.

(** [splitCronParts] finds as many parts as the expression has fields. *)
Lemma splitCronParts_length schedule :
  length (splitCronParts schedule) = fieldCount schedule.
Proof. unfold splitCronParts. by rewrite splitCronParts_loop_length. Qed.

(** The expression that is handed to the cron parser: a shortcut is
    expanded, an expression of five fields gets the seconds field [0] in
    front, anything else is left as it is. *)
Definition normalized (schedule : string) : string :=
  if bool_decide (schedule = "@hourly") then "0 0 * * * *"
  else if bool_decide (schedule = "@daily") then "0 0 0 * * *"
  else if bool_decide (schedule = "@weekly") then "0 0 0 * * 0"
  else if bool_decide (schedule = "@monthly") then "0 0 0 1 * *"
  else if bool_decide (fieldCount schedule = 5) then "0 " +:+ schedule
  else schedule.

Lemma normalized_five schedule :
  fieldCount schedule = 5 -> normalized schedule = "0 " +:+ schedule.
Proof.
  intros H. unfold normalized.
  do 4 (case_bool_decide as Hs; [by rewrite Hs in H|]; clear Hs).
  by rewrite bool_decide_true.
Qed.

Lemma normalized_six schedule :
  fieldCount schedule = 6 -> normalized schedule = schedule.
Proof.
  intros H. unfold normalized.
  do 4 (case_bool_decide as Hs; [by rewrite Hs in H|]; clear Hs).
  rewrite bool_decide_false; [done|lia].
Qed.

(** *** Scheduling *)

Section Schedule.

Context {E : Type}.
Variable time_Now : E -> Time.
Variable cronParse : string -> option error.
Variable scheduleNext : string -> Time -> option Time.

Lemma scheduleTask_disabled (s : @Scheduler E) task :
  model.TaskStatus_ task <> model.TaskStatusEnabled ->
  scheduleTask time_Now cronParse scheduleNext s task = (s, None).
Proof. intros H. unfold scheduleTask. by rewrite bool_decide_false. Qed.

(** What [scheduleTask] hands to the parser is the normalized schedule. *)
Lemma scheduleTask_enabled (s : @Scheduler E) task :
  model.TaskStatus_ task = model.TaskStatusEnabled ->
  scheduleTask time_Now cronParse scheduleNext s task
  = let '(c, (entryID, err)) :=
      AddFunc cronParse (cron s) (normalized (model.Schedule task)) (model.ID task) in
    match err with
    | Some err =>
        (s, Some (Errorf_w ("invalid cron expression '" +:+ model.Schedule task +:+ "': ") err))
    | None =>
        let now := time_Now (env (runner s)) in
        ({| cron := c;
            runner := match EntryNext scheduleNext c entryID now with
                      | Some next =>
                          withTaskRepo (runner s)
                            (fst (UpdateNextRun (taskRepo (runner s)) now (model.ID task) next))
                      | None => runner s
                      end;
            entryMap := <[model.ID task := entryID]> (entryMap s);
            running := running s |}, None)
    end.
Proof.
  intros H. unfold scheduleTask. rewrite bool_decide_true by done. cbv zeta. simpl negb.
  cbv iota.
  assert (Hn : (let schedule :=
                  if bool_decide (model.Schedule task = "@hourly") then "0 0 * * * *"
                  else if bool_decide (model.Schedule task = "@daily") then "0 0 0 * * *"
                  else if bool_decide (model.Schedule task = "@weekly") then "0 0 0 * * 0"
                  else if bool_decide (model.Schedule task = "@monthly") then "0 0 0 1 * *"
                  else model.Schedule task in
                if bool_decide (length (splitCronParts schedule) = 5)
                then "0 " +:+ schedule else schedule)
               = normalized (model.Schedule task)).
  { unfold normalized. cbv zeta.
    destruct (bool_decide (model.Schedule task = "@hourly")); [by vm_compute|].
    destruct (bool_decide (model.Schedule task = "@daily")); [by vm_compute|].
    destruct (bool_decide (model.Schedule task = "@weekly")); [by vm_compute|].
    destruct (bool_decide (model.Schedule task = "@monthly")); [by vm_compute|].
    by rewrite splitCronParts_length. }
  cbv zeta in Hn. by rewrite Hn.
Qed.

End Schedule.

(** C8: for an enabled task, [scheduleTask] hands the normalized schedule
    to the cron parser: the four shortcuts are expanded to their 6-field
    forms, an expression of five fields gets ["0 "] in front, one of six
    fields is passed as it is.  When the parser rejects it the call
    returns the error "invalid cron expression '<schedule>': <reason>" and
    the scheduler, its entry map included, is unchanged; when the parser
    accepts it the cron gets one more entry, with the normalized schedule,
    and the entry map binds the task to it. *)
Theorem scheduleTask_normalizes {E : Type} (time_Now : E -> Time)
    (cronParse : string -> option error) (scheduleNext : string -> Time -> option Time)
    (s : @Scheduler E) task :
  model.TaskStatus_ task = model.TaskStatusEnabled ->
  (normalized "@hourly" = "0 0 * * * *" /\ normalized "@daily" = "0 0 0 * * *" /\
   normalized "@weekly" = "0 0 0 * * 0" /\ normalized "@monthly" = "0 0 0 1 * *") /\
  (forall e, fieldCount e = 5 -> normalized e = "0 " +:+ e) /\
  (forall e, fieldCount e = 6 -> normalized e = e) /\
  match cronParse (normalized (model.Schedule task)) with
  | Some reason =>
      exists err,
        scheduleTask time_Now cronParse scheduleNext s task = (s, Some err) /\
        Error err = "invalid cron expression '" +:+ model.Schedule task +:+ "': "
                    +:+ Error reason
  | None =>
      exists s',
        scheduleTask time_Now cronParse scheduleNext s task = (s', None) /\
        entries (cron s')
        = entries (cron s)
          ++ [{| EntryID := S (nextID (cron s));
                 Spec := normalized (model.Schedule task);
                 Job := model.ID task |}] /\
        entryMap s' = <[model.ID task := S (nextID (cron s))]> (entryMap s)
  end.
Proof.
  intros Hen. split; [by vm_compute|].
  split; [apply normalized_five|]. split; [apply normalized_six|].
  rewrite (scheduleTask_enabled _ _ _ _ _ Hen). unfold AddFunc.
  destruct (cronParse (normalized (model.Schedule task))) as [reason|].
  - eexists. split; [reflexivity|].
    by rewrite GoFacts.Error_Errorf_w, !GoFacts.append_assoc.
  - eexists. split; [reflexivity|]. by split.
Qed.

(** A parser for the examples: it takes any expression of six fields. *)
Definition sixFields (spec : string) : option error :=
  if bool_decide (fieldCount spec = 6) then None
  else Some (errorString ("expected exactly 6 fields, found "
                          +:+ pretty (fieldCount spec) +:+ ": [" +:+ spec +:+ "]")).

Definition idle : @Scheduler nat :=
  {| cron := {| entries := []; nextID := 0; started := false |};
     runner := RunnerFacts.fresh; entryMap := ∅; running := false |}.

Definition everyFive : model.Task :=
  {| model.ID := "t3"; model.TaskName_ := "news"; model.Description := "";
     model.Schedule := "*/5 * * * *"; model.TaskStatus_ := model.TaskStatusEnabled;
     model.Pipeline := [RunnerFacts.stepOf "rss"]; model.LastRunAt := None;
     model.NextRunAt := None; model.CreatedBy := "u1"; model.CreatedAt := 0;
     model.UpdatedAt := 0 |}.

(** A five-field schedule on an idle scheduler: the entry is added with
    the seconds field in front. *)
Lemma scheduleTask_normalizes_witness :
  exists s',
    scheduleTask RunnerFacts.clock sixFields (fun _ _ => None) idle everyFive = (s', None) /\
    entries (cron s') = [{| EntryID := 1; Spec := "0 */5 * * * *"; Job := "t3" |}] /\
    entryMap s' !! "t3" = Some 1.
Proof.
  pose proof (scheduleTask_normalizes RunnerFacts.clock sixFields (fun _ _ => None)
                                      idle everyFive eq_refl) as (_ & _ & _ & H).
  destruct H as (s' & Hs & He & Hm). exists s'.
  rewrite He, Hm. by repeat split.
Defined.

(** *** Firing and triggering *)

Section Firing.

Context {E : Type}.
Variable time_Now : E -> Time.
Variable X : @Executors E.
Variable scheduleNext : string -> Time -> option Time.

(** A scheduled firing finds the task [running]: it reads the task and
    does nothing else. *)
Lemma fire_skips_running (s : @Scheduler E) taskID task :
  task_faults (taskRepo (runner s)) = [] ->
  tasks (taskRepo (runner s)) !! taskID = Some task ->
  model.TaskStatus_ task = model.TaskStatusRunning ->
  fire time_Now X scheduleNext s taskID = s.
Proof.
  intros Hf Ht Hs. unfold fire, FindTaskByID. rewrite Hf, Ht. simpl. rewrite Hs. simpl.
  destruct s as [c [[ts fs] xr e] m b]. simpl in *. by subst.
Qed.

(** A manual trigger reads the task and runs it; the status of the task
    is not looked at. *)
Lemma TriggerTask_runs (s : @Scheduler E) taskID triggeredBy task :
  task_faults (taskRepo (runner s)) = [] ->
  tasks (taskRepo (runner s)) !! taskID = Some task ->
  TriggerTask time_Now X s taskID triggeredBy
  = let '(rn, res) := Run time_Now X (runner s) task triggeredBy in
    ({| cron := cron s; runner := rn; entryMap := entryMap s; running := running s |}, res).
Proof.
  intros Hf Ht. unfold TriggerTask, FindTaskByID. rewrite Hf, Ht. simpl.
  destruct s as [c [[ts fs] xr e] m b]. simpl in *. by subst.
Qed.

End Firing.

(** The task [t1] is [running]: its execution [exec-0], started by the
    schedule, is in flight. *)
Definition inFlight : @PipelineRunner nat :=
  {| taskRepo :=
       {| tasks := {[ "t1" := RunnerFacts.taskOf "t1" model.TaskStatusRunning
                                [RunnerFacts.stepOf "scraper"; RunnerFacts.stepOf "discord"] ]};
          task_faults := [] |};
     execRepo :=
       {| executions :=
            {[ "exec-0" :=
                 {| model.ExecID := "exec-0"; model.TaskID := "t1"; model.TaskName := "jobs";
                    model.ExecStatus := model.ExecutionStatusRunning;
                    model.ExecStartedAt := 0; model.ExecFinishedAt := None;
                    model.Duration := None; model.StepResults_ := [];
                    model.ExecError := None; model.TriggeredBy := "schedule" |} ]};
          gen_random_uuid := fun n => "exec-" +:+ pretty n;
          generated := 1; exec_faults := [];
          journal := [CallCreate "t1" "jobs" "schedule"] |};
     env := 0 |}.

Definition busy : @Scheduler nat :=
  {| cron := {| entries := [{| EntryID := 1; Spec := "0 0 * * * *"; Job := "t1" |}];
                nextID := 1; started := true |};
     runner := inFlight; entryMap := {[ "t1" := 1 ]}; running := true |}.

(** C3, the code at a task that is [running]: a scheduled firing is
    skipped, but a manual trigger invokes the runner all the same: the
    executors are called, a second execution record is created and
    closed, and the task is set back to [enabled] while the first
    execution is still open. *)
Theorem TriggerTask_runs_a_running_task :
  (model.TaskStatus_ <$> tasks (taskRepo (runner busy)) !! "t1")
  = Some model.TaskStatusRunning /\
  fire RunnerFacts.clock RunnerFacts.stubs (fun _ _ => None) busy "t1" = busy /\
  let after := TriggerTask RunnerFacts.clock RunnerFacts.stubs busy "t1" "u1" in
  snd (snd after) = None /\
  env (runner (fst after)) = 2 /\
  size (executions (execRepo (runner (fst after)))) = 2 /\
  ((fun row => (model.ExecStatus row, model.TriggeredBy row, length (model.StepResults_ row)))
     <$> executions (execRepo (runner (fst after))) !! "exec-1")
  = Some (model.ExecutionStatusCompleted, "u1", 2) /\
  (model.ExecStatus <$> executions (execRepo (runner (fst after))) !! "exec-0")
  = Some model.ExecutionStatusRunning /\
  (model.TaskStatus_ <$> tasks (taskRepo (runner (fst after))) !! "t1")
  = Some model.TaskStatusEnabled.
Proof.
  split; [by vm_compute|]. split.
  - by apply fire_skips_running with (task := RunnerFacts.taskOf "t1" model.TaskStatusRunning
          [RunnerFacts.stepOf "scraper"; RunnerFacts.stepOf "discord"]).
  - by vm_compute.
Qed.

End SchedulerFacts.

(** ** More on the content cache *)

Module CacheRepoFacts.
Import storage.

(** The key of a row; the table is meant to be unique on it. *)
Definition keyOf (e : CacheEntry) : string * string := (content_hash e, task_id e).

Definition uniqueKeys (rows : list CacheEntry) : Prop := NoDup (keyOf <$> rows).

Definition present (rows : list CacheEntry) (contentHash taskID : string) : Prop :=
  (contentHash, taskID) ∈ keyOf <$> rows.

#[global] Instance present_dec rows h t : Decision (present rows h t).
Proof. unfold present. apply _. Defined.

Lemma countFor_present rows h t : 0 < countFor rows h t <-> present rows h t.
Proof.
  unfold countFor, present. induction rows as [|e rows IH]; simpl.
  - split; [lia|]. by intros ?%elem_of_nil.
  - rewrite elem_of_cons. unfold matches at 1, keyOf at 1.
    destruct (bool_decide (content_hash e = h)) eqn:Hh;
      destruct (bool_decide (task_id e = t)) eqn:Ht; simpl;
      rewrite ?bool_decide_eq_true, ?bool_decide_eq_false in *.
    + split; [intros _; left; congruence|lia].
    + rewrite IH. split; [by right|]. intros [[= ? ?]|?]; [congruence|done].
    + rewrite IH. split; [by right|]. intros [[= ? ?]|?]; [congruence|done].
    + rewrite IH. split; [by right|]. intros [[= ? ?]|?]; [congruence|done].
Qed.

Lemma insertRow_keys rows h src t :
  keyOf <$> insertRow rows h src t
  = if bool_decide (0 < countFor rows h t) then keyOf <$> rows else (keyOf <$> rows) ++ [(h, t)].
Proof. unfold insertRow. case_bool_decide; [done|]. by rewrite fmap_app. Qed.

Lemma insertRow_present rows h src t : present (insertRow rows h src t) h t.
Proof.
  unfold present. rewrite insertRow_keys. case_bool_decide as H.
  - by apply countFor_present.
  - apply elem_of_app. right. by apply list_elem_of_singleton.
Qed.

Lemma insertRow_prefix rows h src t : rows `prefix_of` insertRow rows h src t.
Proof. unfold insertRow. case_bool_decide; [done|]. by apply prefix_app_r. Qed.

Lemma insertRow_id rows h src t : present rows h t -> insertRow rows h src t = rows.
Proof. intros H%countFor_present. unfold insertRow. by rewrite bool_decide_true. Qed.

Lemma insertRow_unique rows h src t : uniqueKeys rows -> uniqueKeys (insertRow rows h src t).
Proof.
  unfold uniqueKeys. rewrite insertRow_keys. case_bool_decide as H; [done|].
  intros Hu. apply NoDup_app. split; [done|]. split; [|apply NoDup_singleton].
  intros k Hk ->%list_elem_of_singleton. apply H. by apply countFor_present.
Qed.

Lemma insertRow_present_iff rows h src t h' t' :
  present (insertRow rows h src t) h' t' <-> present rows h' t' \/ (h' = h /\ t' = t).
Proof.
  unfold present at 1. rewrite insertRow_keys. case_bool_decide as H.
  - split; [by left|]. intros [?|[-> ->]]; [done|]. by apply countFor_present.
  - rewrite elem_of_app, list_elem_of_singleton. unfold present.
    split; [intros [?|[= -> ->]]; auto|intros [?|[-> ->]]; auto].
Qed.

(** The table after the statements of a batch have all gone through. *)
Definition inserted (rows : list CacheEntry) (hashes : list string) (src taskID : string)
  : list CacheEntry :=
  foldl (fun rows hash => insertRow rows hash src taskID) rows hashes.

Lemma inserted_present_iff hashes src t h' t' : forall rows,
  present (inserted rows hashes src t) h' t'
  <-> present rows h' t' \/ (h' ∈ hashes /\ t' = t).
Proof.
  induction hashes as [|h rest IH]; intros rows; simpl.
  - split; [by left|]. intros [?|[?%elem_of_nil ?]]; done.
  - unfold inserted in *. rewrite IH, insertRow_present_iff, elem_of_cons.
    split; [intros [[?|[-> ->]]|[? ->]]; auto|intros [?|[[->|?] ->]]; auto].
Qed.

Lemma inserted_prefix hashes src t : forall rows, rows `prefix_of` inserted rows hashes src t.
Proof.
  induction hashes as [|h rest IH]; intros rows; simpl; [done|].
  etrans; [apply (insertRow_prefix rows h src t)|apply IH].
Qed.

Lemma inserted_unique hashes src t : forall rows,
  uniqueKeys rows -> uniqueKeys (inserted rows hashes src t).
Proof.
  induction hashes as [|h rest IH]; intros rows Hu; simpl; [done|].
  apply IH. by apply insertRow_unique.
Qed.

Lemma inserted_id hashes src t : forall rows,
  (forall h, h ∈ hashes -> present rows h t) -> inserted rows hashes src t = rows.
Proof.
  induction hashes as [|h rest IH]; intros rows Hp; simpl; [done|].
  rewrite insertRow_id by (apply Hp; set_solver). apply IH. intros h' Hh'. apply Hp. set_solver.
Qed.

Lemma execAll_spec hashes src t : forall rows fs,
  match execAll rows fs hashes src t with
  | (rows', fs', None) => rows' = inserted rows hashes src t /\ fs' = drop (length hashes) fs
  | (_, _, Some _) => True
  end.
Proof.
  induction hashes as [|h rest IH]; intros rows fs; simpl.
  - by rewrite drop_0.
  - destruct fs as [|[e|] fs]; simpl; try done.
    + specialize (IH (insertRow rows h src t) []).
      destruct (execAll _ _ _ _ _) as [[rows' fs'] [e|]]; [done|].
      by rewrite drop_nil in IH.
    + apply IH.
Qed.

(** What [AddBatch] leaves in the table: everything inserted when it
    succeeds, nothing changed when it fails. *)
Lemma AddBatch_table r hashes src t :
  content_cache (fst (AddBatch r hashes src t))
  = match snd (AddBatch r hashes src t) with
    | None => inserted (content_cache r) hashes src t
    | Some _ => content_cache r
    end.
Proof.
  unfold AddBatch.
  destruct (roundTrip (cache_faults r)) as [[e1|] fs1]; [done|].
  destruct (roundTrip fs1) as [[e2|] fs2]; [done|].
  pose proof (execAll_spec hashes src t (content_cache r) fs2) as H.
  destruct (execAll (content_cache r) fs2 hashes src t) as [[rows fs3] [e3|]]; [done|].
  destruct H as [-> _].
  by destruct (roundTrip fs3) as [[e4|] fs4].
Qed.

Lemma execAll_no_faults hashes src t : forall rows,
  execAll rows [] hashes src t = (inserted rows hashes src t, [], None).
Proof. induction hashes as [|h rest IH]; intros rows; simpl; [done|apply IH]. Qed.

Lemma AddBatch_no_faults r hashes src t :
  cache_faults r = [] ->
  snd (AddBatch r hashes src t) = None /\ cache_faults (fst (AddBatch r hashes src t)) = [].
Proof. intros Hf. unfold AddBatch. rewrite Hf. simpl. by rewrite execAll_no_faults. Qed.

Lemma ExistsForTask_present r h t :
  fst (roundTrip (cache_faults r)) = None ->
  snd (ExistsForTask r h t) = (bool_decide (present (content_cache r) h t), None).
Proof.
  intros Hf. unfold ExistsForTask. destruct (roundTrip (cache_faults r)) as [f fs].
  simpl in Hf. subst f. simpl. f_equal. apply bool_decide_ext, countFor_present.
Qed.

(** X1: insert, then look up.  After an [AddBatch] that returned no error,
    every hash of the batch is in the table for the task, and
    [ExistsForTask] answers [true] for it (when that read goes through). *)
Theorem AddBatch_then_ExistsForTask r hashes src t r' :
  AddBatch r hashes src t = (r', None) ->
  forall h, h ∈ hashes ->
    present (content_cache r') h t /\
    (fst (roundTrip (cache_faults r')) = None -> snd (ExistsForTask r' h t) = (true, None)).
Proof.
  intros Hadd h Hh.
  pose proof (AddBatch_table r hashes src t) as Ht. rewrite Hadd in Ht. simpl in Ht.
  assert (Hp : present (content_cache r') h t).
  { rewrite Ht. apply inserted_present_iff. auto. }
  split; [done|]. intros Hf. rewrite (ExistsForTask_present _ _ _ Hf).
  by rewrite bool_decide_true.
Qed.

Definition oneRow : CacheRepository :=
  {| content_cache := [{| content_hash := "h0"; source := "rss"; task_id := "t1" |}];
     cache_faults := []; cache_calls := [] |}.

(** Two new hashes and one that is there already, in a table of one row. *)
Lemma AddBatch_then_ExistsForTask_witness :
  present (content_cache (fst (AddBatch oneRow ["h1"; "h0"; "h2"] "scraper" "t1"))) "h2" "t1" /\
  snd (ExistsForTask (fst (AddBatch oneRow ["h1"; "h0"; "h2"] "scraper" "t1")) "h2" "t1")
  = (true, None).
Proof.
  destruct (AddBatch_then_ExistsForTask oneRow ["h1"; "h0"; "h2"] "scraper" "t1"
              (fst (AddBatch oneRow ["h1"; "h0"; "h2"] "scraper" "t1")) eq_refl "h2")
    as [Hp Hx]; [by repeat constructor|].
  split; [exact Hp|]. apply Hx. reflexivity.
Defined.

(** X2: all or nothing.  When [AddBatch] returns an error, whichever
    statement of the transaction failed, the table is as it was before. *)
Theorem AddBatch_all_or_nothing r hashes src t r' err :
  AddBatch r hashes src t = (r', Some err) -> content_cache r' = content_cache r.
Proof.
  intros Hadd. pose proof (AddBatch_table r hashes src t) as Ht.
  by rewrite Hadd in Ht.
Qed.

(** The second insert of the batch is refused. *)
Definition refusing : CacheRepository :=
  {| content_cache := [{| content_hash := "h0"; source := "rss"; task_id := "t1" |}];
     cache_faults := [None; None; None; Some (errorString "deadlock detected")];
     cache_calls := [] |}.

Lemma AddBatch_all_or_nothing_witness :
  snd (AddBatch refusing ["h1"; "h2"] "scraper" "t1")
  = Some (Errorf_w "failed to insert hash: " (errorString "deadlock detected")) /\
  content_cache (fst (AddBatch refusing ["h1"; "h2"] "scraper" "t1")) = content_cache refusing.
Proof.
  split; [reflexivity|].
  by apply (AddBatch_all_or_nothing refusing ["h1"; "h2"] "scraper" "t1" _
              (Errorf_w "failed to insert hash: " (errorString "deadlock detected"))).
Defined.

(** X3: what [AddBatch] does to the table, whether it succeeds or fails:
    the rows that were there stay, in their order; a table that is unique
    on (hash, task) stays so; and every key that is new is a hash of the
    batch, for the task of the batch, so no other task sees a change. *)
Theorem AddBatch_keeps_table r hashes src t :
  let rows' := content_cache (fst (AddBatch r hashes src t)) in
  content_cache r `prefix_of` rows' /\
  (uniqueKeys (content_cache r) -> uniqueKeys rows') /\
  (forall h' t', present rows' h' t' ->
     present (content_cache r) h' t' \/ (h' ∈ hashes /\ t' = t)) /\
  (forall h' t', t' <> t ->
     countFor rows' h' t' = countFor (content_cache r) h' t').
Proof.
  intros rows'. subst rows'. rewrite AddBatch_table.
  destruct (snd (AddBatch r hashes src t)) as [err|].
  { repeat split; auto. }
  split; [apply inserted_prefix|]. split; [apply inserted_unique|].
  split; [intros h' t'; apply inserted_present_iff|].
  intros h' t' Hne. generalize (content_cache r). unfold inserted.
  induction hashes as [|h rest IH]; intros rows; simpl; [done|].
  rewrite IH. unfold insertRow. case_bool_decide; [done|].
  unfold countFor. rewrite List.filter_app, length_app. simpl.
  unfold matches at 2. simpl. rewrite (bool_decide_false (t = t')) by congruence.
  rewrite andb_false_r. simpl. lia.
Qed.

(** X4: duplicates are ignored, not rejected.  A batch whose hashes are
    all in the table for the task leaves the table as it is; so adding a
    batch a second time changes nothing. *)
Theorem AddBatch_idempotent r hashes src t :
  (forall h, h ∈ hashes -> present (content_cache r) h t) ->
  content_cache (fst (AddBatch r hashes src t)) = content_cache r /\
  (forall r1, AddBatch r hashes src t = (r1, None) ->
     content_cache (fst (AddBatch r1 hashes src t)) = content_cache r1).
Proof.
  intros Hp. assert (Hsame : content_cache (fst (AddBatch r hashes src t)) = content_cache r).
  { rewrite AddBatch_table. destruct (snd (AddBatch r hashes src t)); [done|].
    by apply inserted_id. }
  split; [done|]. intros r1 Hadd. rewrite Hadd in Hsame. simpl in Hsame.
  rewrite AddBatch_table. destruct (snd (AddBatch r1 hashes src t)); [done|].
  apply inserted_id. intros h Hh. rewrite Hsame. by apply Hp.
Qed.

Lemma AddBatch_idempotent_witness :
  content_cache (fst (AddBatch oneRow ["h0"; "h0"] "filter" "t1")) = content_cache oneRow.
Proof.
  destruct (AddBatch_idempotent oneRow ["h0"; "h0"] "filter" "t1") as [H _]; [|exact H].
  intros h Hh. apply countFor_present.
  apply elem_of_cons in Hh as [Hh|Hh]; [|apply list_elem_of_singleton in Hh];
    subst h; vm_compute; lia.
Defined.

Lemma ExistsForTask_table r h t : content_cache (fst (ExistsForTask r h t)) = content_cache r.
Proof. unfold ExistsForTask. by destruct (roundTrip (cache_faults r)) as [[e|] fs]. Qed.

Lemma FilterNew_loop_spec hashes t : forall r acc,
  let res := FilterNew_loop r hashes t acc in
  content_cache (fst res) = content_cache r /\
  match snd (snd res) with
  | None =>
      fst (snd res)
      = acc ++ List.filter (fun h => negb (bool_decide (present (content_cache r) h t))) hashes
  | Some _ => fst (snd res) = []
  end /\
  (cache_faults r = [] -> snd (snd res) = None).
Proof.
  induction hashes as [|h rest IH]; intros r acc; simpl.
  - by rewrite app_nil_r.
  - pose proof (ExistsForTask_table r h t) as Ht.
    destruct (cache_faults r) as [|f fs] eqn:Hf.
    + pose proof (ExistsForTask_present r h t) as Hx. rewrite Hf in Hx.
      specialize (Hx eq_refl).
      assert (Hf' : cache_faults (fst (ExistsForTask r h t)) = [])
        by (unfold ExistsForTask; by rewrite Hf).
      destruct (ExistsForTask r h t) as [r1 [ex err]]. simpl in *. simplify_eq.
      destruct (IH r1 acc) as (Ha & Hb & Hc). destruct (IH r1 (acc ++ [h])) as (Ha' & Hb' & Hc').
      rewrite Ht in *.
      destruct (bool_decide (present (content_cache r) h t)); simpl.
      * split; [done|]. split; [done|]. auto.
      * split; [done|]. split; [|auto].
        destruct (snd (snd (FilterNew_loop r1 rest t (acc ++ [h])))); [done|].
        by rewrite Hb', <- app_assoc.
    + destruct f as [e|].
      * unfold ExistsForTask. rewrite Hf. simpl. by repeat split.
      * pose proof (ExistsForTask_present r h t) as Hx. rewrite Hf in Hx.
        specialize (Hx eq_refl).
        destruct (ExistsForTask r h t) as [r1 [ex err]]. simpl in *. simplify_eq.
        destruct (IH r1 acc) as (Ha & Hb & _).
        destruct (IH r1 (acc ++ [h])) as (Ha' & Hb' & _). rewrite Ht in *.
        destruct (bool_decide (present (content_cache r) h t)); simpl.
        -- by repeat split.
        -- split; [done|]. split; [|done].
           destruct (snd (snd (FilterNew_loop r1 rest t (acc ++ [h])))); [done|].
           by rewrite Hb', <- app_assoc.
Qed.

(** X5: [FilterNew] only reads.  When no read fails it returns, in order,
    the hashes that are not in the table for the task; when a read fails
    it returns no hashes at all, with the error. *)
Theorem FilterNew_spec r hashes t :
  let res := FilterNew r hashes t in
  content_cache (fst res) = content_cache r /\
  match snd (snd res) with
  | None =>
      fst (snd res)
      = List.filter (fun h => negb (bool_decide (present (content_cache r) h t))) hashes
  | Some _ => fst (snd res) = []
  end /\
  (cache_faults r = [] -> snd (snd res) = None).
Proof.
  unfold FilterNew. case_bool_decide as Hlen.
  - destruct hashes; [|done]. by simpl.
  - exact (FilterNew_loop_spec hashes t r []).
Qed.

(** X6: [CleanByTask].  When the delete goes through, no key of the task
    is left, the keys of every other task are as before, and the rows
    that remain keep their order; when it fails the table is unchanged. *)
Theorem CleanByTask_spec r t :
  let rows := content_cache r in
  let rows' := content_cache (fst (CleanByTask r t)) in
  match snd (CleanByTask r t) with
  | Some _ => rows' = rows
  | None =>
      (forall h, ~ present rows' h t) /\
      (forall h t', t' <> t -> (present rows' h t' <-> present rows h t')) /\
      rows' `sublist_of` rows
  end.
Proof.
  intros rows rows'. subst rows rows'. unfold CleanByTask.
  destruct (roundTrip (cache_faults r)) as [[e|] fs]; simpl; [done|].
  generalize (content_cache r). intros rows.
  split; [|split].
  - intros h. unfold present. rewrite list_elem_of_fmap.
    intros (e & [= Hh Ht] & He). apply list_elem_of_In, List.filter_In in He as [_ He].
    rewrite bool_decide_true in He by done. done.
  - intros h t' Hne. unfold present. rewrite !list_elem_of_fmap.
    split; intros (e & Hk & He); exists e; (split; [done|]).
    + apply list_elem_of_In, List.filter_In in He as [He _]. by apply list_elem_of_In.
    + apply list_elem_of_In, List.filter_In. split; [by apply list_elem_of_In|].
      injection Hk as _ Ht. rewrite bool_decide_false; [done|congruence].
  - induction rows as [|e rows IH]; simpl; [done|].
    destruct (negb _); [by apply sublist_skip|by apply sublist_cons].
Qed.

End CacheRepoFacts.

(** ** Delivery and the cache *)

Module DedupFacts.
Import storage CacheFacts CacheRepoFacts.

Section Passes.

Variable HashContent : string -> string.

Section Pass.

Context {A : Type} (content : A -> string) (lenient : bool) (src : string).

Definition fingerprint (item : A) : string := HashContent (content item).

(** The items a pass lets through. *)
Definition passed (cache : CacheRepository) (items : list A) (taskID : string) : list A :=
  kept HashContent content lenient (content_cache cache) taskID items (cache_faults cache).

(** The cache after a pass: the reads are made, then the fingerprints of
    the items that went through are added in one batch (if there are
    any). *)
Definition afterPass (cache : CacheRepository) (items : list A) (taskID : string)
  : CacheRepository :=
  let read :=
    {| content_cache := content_cache cache;
       cache_faults := drop (length items) (cache_faults cache);
       cache_calls := cache_calls cache
         ++ ((fun item => CallExistsForTask (fingerprint item) taskID) <$> items) |} in
  if bool_decide (0 < length (passed cache items taskID))
  then fst (AddBatch read (fingerprint <$> passed cache items taskID) src taskID)
  else read.

Lemma kept_no_faults rows taskID items :
  kept HashContent content lenient rows taskID items []
  = List.filter (fun item => negb (bool_decide (present rows (fingerprint item) taskID))) items.
Proof.
  induction items as [|x rest IH]; simpl; [done|]. rewrite IH.
  rewrite (bool_decide_ext _ _ (countFor_present rows (HashContent (content x)) taskID)).
  unfold fingerprint. by destruct (bool_decide _).
Qed.

Lemma afterPass_table cache items taskID :
  cache_faults cache = [] ->
  content_cache (afterPass cache items taskID)
  = inserted (content_cache cache) (fingerprint <$> passed cache items taskID) src taskID /\
  cache_faults (afterPass cache items taskID) = [].
Proof.
  intros Hf. unfold afterPass. rewrite Hf, drop_nil. case_bool_decide as Hlen.
  - set (read := {| content_cache := _ |}).
    destruct (AddBatch_no_faults read (fingerprint <$> passed cache items taskID) src taskID
                eq_refl) as [Hok Hfs].
    rewrite AddBatch_table, Hok. done.
  - simpl. destruct (passed cache items taskID); [done|simpl in Hlen; lia].
Qed.

(** With no fault, every item of the list is in the table after the pass:
    it was there before, or it went through and was added. *)
Lemma afterPass_all_present cache items taskID :
  cache_faults cache = [] ->
  forall x, x ∈ items -> present (content_cache (afterPass cache items taskID))
                                 (fingerprint x) taskID.
Proof.
  intros Hf x Hx. destruct (afterPass_table cache items taskID Hf) as [-> _].
  apply inserted_present_iff.
  destruct (decide (present (content_cache cache) (fingerprint x) taskID)) as [Hp|Hn];
    [by left|right].
  split; [|done]. apply list_elem_of_fmap. exists x. split; [done|].
  unfold passed. rewrite Hf, kept_no_faults.
  apply list_elem_of_In, List.filter_In. split; [by apply list_elem_of_In|].
  by rewrite bool_decide_false.
Qed.

Lemma passed_delivered_recorded cache items taskID :
  cache_faults cache = [] ->
  forall x, x ∈ passed cache items taskID ->
    present (content_cache (afterPass cache items taskID)) (fingerprint x) taskID.
Proof.
  intros Hf x Hx. apply afterPass_all_present; [done|].
  unfold passed in Hx. eapply elem_of_sublist; [exact Hx|apply kept_sublist].
Qed.

Lemma passed_again_nothing cache items taskID items' :
  cache_faults cache = [] ->
  (forall x, x ∈ items' -> exists y, y ∈ items /\ content x = content y) ->
  passed (afterPass cache items taskID) items' taskID = [].
Proof.
  intros Hf Hsub. unfold passed at 1.
  destruct (afterPass_table cache items taskID Hf) as [_ ->].
  rewrite kept_no_faults.
  induction items' as [|x rest IH]; simpl; [done|].
  destruct (Hsub x) as (y & Hy & Hxy); [by left|].
  rewrite bool_decide_true.
  - simpl. apply IH. intros z Hz. apply Hsub. by right.
  - unfold fingerprint. rewrite Hxy. by apply afterPass_all_present.
Qed.

(** A strict pass lets through only items that are not in the table,
    whatever faults occur. *)
Lemma kept_strict_new rows taskID items : forall fs x,
  lenient = false ->
  x ∈ kept HashContent content lenient rows taskID items fs ->
  ~ present rows (fingerprint x) taskID.
Proof.
  induction items as [|y rest IH]; intros fs x Hl Hx; simpl in Hx; [by apply elem_of_nil in Hx|].
  apply elem_of_app in Hx as [Hx|Hx]; [|by eapply IH].
  destruct (fst (roundTrip fs)) as [e|].
  - rewrite Hl in Hx. by apply elem_of_nil in Hx.
  - case_bool_decide as Hc; simpl in Hx; [by apply elem_of_nil in Hx|].
    apply list_elem_of_singleton in Hx as ->. by rewrite <- countFor_present.
Qed.

(** With no fault and none of the items in the table, everything goes
    through, repeated items included. *)
Lemma passed_fresh cache items taskID :
  cache_faults cache = [] ->
  (forall x, x ∈ items -> ~ present (content_cache cache) (fingerprint x) taskID) ->
  passed cache items taskID = items.
Proof.
  intros Hf Hn. unfold passed. rewrite Hf, kept_no_faults.
  induction items as [|x rest IH]; simpl; [done|].
  rewrite bool_decide_false by (apply Hn; by left). simpl. f_equal.
  apply IH. intros z Hz. apply Hn. by right.
Qed.

Lemma kept_all_present rows taskID items :
  (forall x, x ∈ items -> present rows (fingerprint x) taskID) ->
  kept HashContent content lenient rows taskID items [] = [].
Proof.
  intros Hp. rewrite kept_no_faults.
  induction items as [|x rest IH]; simpl; [done|].
  rewrite bool_decide_true by (apply Hp; by left). simpl.
  apply IH. intros z Hz. apply Hp. by right.
Qed.

End Pass.

(** Each function of the code, as a pass. *)
Ltac pass_state loop_pass :=
  intros; cbv beta delta [scraper.filterNewItems rss.filterNewItems
                          filter.dedupeScrapedItems filter.dedupeRSSItems];
  rewrite loop_pass, pass_spec; cbv zeta; simpl;
  unfold afterPass, passed, fingerprint; rewrite length_fmap; by case_bool_decide.

Lemma scraper_filterNewItems_pass cache items taskID :
  scraper.filterNewItems HashContent cache items taskID
  = (afterPass scrapedContent false "scraper" cache items taskID,
     passed scrapedContent false cache items taskID).
Proof. pass_state scraper_loop_pass. Qed.

Lemma rss_filterNewItems_pass cache items taskID :
  rss.filterNewItems HashContent cache items taskID
  = (afterPass feedContent false "rss" cache items taskID,
     passed feedContent false cache items taskID).
Proof. pass_state rss_loop_pass. Qed.

Lemma filter_dedupeScrapedItems_pass cache items taskID :
  filter.dedupeScrapedItems HashContent cache items taskID
  = (afterPass scrapedContent true "filter" cache items taskID,
     passed scrapedContent true cache items taskID).
Proof. pass_state filter_scraped_loop_pass. Qed.

Lemma filter_dedupeRSSItems_pass cache items taskID :
  filter.dedupeRSSItems HashContent cache items taskID
  = (afterPass feedContent true "filter" cache items taskID,
     passed feedContent true cache items taskID).
Proof. pass_state filter_rss_loop_pass. Qed.

End Passes.

(** X7: delivered, hence recorded.  With no database fault pending, after
    any of the four passes the fingerprint of every item that the pass let
    through is in the table for the task. *)
Theorem delivered_is_recorded (HashContent : string -> string) cache taskID :
  cache_faults cache = [] ->
  (forall items x,
     x ∈ snd (scraper.filterNewItems HashContent cache items taskID) ->
     present (content_cache (fst (scraper.filterNewItems HashContent cache items taskID)))
             (HashContent (scrapedContent x)) taskID) /\
  (forall items x,
     x ∈ snd (rss.filterNewItems HashContent cache items taskID) ->
     present (content_cache (fst (rss.filterNewItems HashContent cache items taskID)))
             (HashContent (feedContent x)) taskID) /\
  (forall items x,
     x ∈ snd (filter.dedupeScrapedItems HashContent cache items taskID) ->
     present (content_cache (fst (filter.dedupeScrapedItems HashContent cache items taskID)))
             (HashContent (scrapedContent x)) taskID) /\
  (forall items x,
     x ∈ snd (filter.dedupeRSSItems HashContent cache items taskID) ->
     present (content_cache (fst (filter.dedupeRSSItems HashContent cache items taskID)))
             (HashContent (feedContent x)) taskID).
Proof.
  intros Hf. repeat split; intros items x.
  - rewrite scraper_filterNewItems_pass. by apply passed_delivered_recorded.
  - rewrite rss_filterNewItems_pass. by apply passed_delivered_recorded.
  - rewrite filter_dedupeScrapedItems_pass. by apply passed_delivered_recorded.
  - rewrite filter_dedupeRSSItems_pass. by apply passed_delivered_recorded.
Qed.

Lemma delivered_is_recorded_witness :
  let job := scrapedItem "42" "https://example.org/jobs/42" "remoteok" in
  job ∈ snd (scraper.filterNewItems (fun s => s) emptyCache [job] "t1") /\
  present (content_cache (fst (scraper.filterNewItems (fun s => s) emptyCache [job] "t1")))
          "https://example.org/jobs/42" "t1".
Proof.
  intros job. assert (Hin : job ∈ snd (scraper.filterNewItems (fun s => s) emptyCache [job] "t1"))
    by (vm_compute; by left).
  split; [exact Hin|].
  exact (proj1 (delivered_is_recorded (fun s => s) emptyCache "t1" eq_refl) [job] job Hin).
Defined.

(** X8: at most once.  With no database fault pending, once a pass has
    run over a list of items, the same pass over any items with the same
    contents lets nothing through. *)
Theorem seen_items_are_not_delivered_again (HashContent : string -> string) cache taskID :
  cache_faults cache = [] ->
  (forall items items',
     (forall x, x ∈ items' -> exists y, y ∈ items /\ scrapedContent x = scrapedContent y) ->
     snd (scraper.filterNewItems HashContent
            (fst (scraper.filterNewItems HashContent cache items taskID)) items' taskID) = []) /\
  (forall items items',
     (forall x, x ∈ items' -> exists y, y ∈ items /\ feedContent x = feedContent y) ->
     snd (rss.filterNewItems HashContent
            (fst (rss.filterNewItems HashContent cache items taskID)) items' taskID) = []) /\
  (forall items items',
     (forall x, x ∈ items' -> exists y, y ∈ items /\ scrapedContent x = scrapedContent y) ->
     snd (filter.dedupeScrapedItems HashContent
            (fst (filter.dedupeScrapedItems HashContent cache items taskID)) items' taskID)
     = []) /\
  (forall items items',
     (forall x, x ∈ items' -> exists y, y ∈ items /\ feedContent x = feedContent y) ->
     snd (filter.dedupeRSSItems HashContent
            (fst (filter.dedupeRSSItems HashContent cache items taskID)) items' taskID) = []).
Proof.
  intros Hf. repeat split; intros items items' Hsub.
  - rewrite !scraper_filterNewItems_pass. by apply passed_again_nothing.
  - rewrite !rss_filterNewItems_pass. by apply passed_again_nothing.
  - rewrite !filter_dedupeScrapedItems_pass. by apply passed_again_nothing.
  - rewrite !filter_dedupeRSSItems_pass. by apply passed_again_nothing.
Qed.

Lemma seen_items_are_not_delivered_again_witness :
  let post := feedItem "guid-1" "https://example.org/post" "Blog" in
  snd (rss.filterNewItems (fun s => s) emptyCache [post] "t1") = [post] /\
  snd (rss.filterNewItems (fun s => s)
         (fst (rss.filterNewItems (fun s => s) emptyCache [post] "t1")) [post] "t1") = [].
Proof.
  intros post. split; [reflexivity|].
  apply (proj1 (proj2 (seen_items_are_not_delivered_again (fun s => s) emptyCache "t1"
                         eq_refl))).
  intros x Hx. exists x. by split.
Defined.

(** X9: a filter step that deduplicates after an ingestion step of the
    same task.  With no database fault pending, whatever the ingestion
    pass was given, the filter's pass over any of those items (what the
    ingestion delivered, in particular) lets nothing through: the
    ingestion has just recorded them. *)
Theorem filter_after_ingestion_lets_nothing_through (HashContent : string -> string)
    cache taskID :
  cache_faults cache = [] ->
  (forall items items',
     (forall x, x ∈ items' -> x ∈ items) ->
     snd (filter.dedupeScrapedItems HashContent
            (fst (scraper.filterNewItems HashContent cache items taskID)) items' taskID)
     = []) /\
  (forall items,
     snd (filter.dedupeScrapedItems HashContent
            (fst (scraper.filterNewItems HashContent cache items taskID))
            (snd (scraper.filterNewItems HashContent cache items taskID)) taskID) = []) /\
  (forall items items',
     (forall x, x ∈ items' -> x ∈ items) ->
     snd (filter.dedupeRSSItems HashContent
            (fst (rss.filterNewItems HashContent cache items taskID)) items' taskID) = []) /\
  (forall items,
     snd (filter.dedupeRSSItems HashContent
            (fst (rss.filterNewItems HashContent cache items taskID))
            (snd (rss.filterNewItems HashContent cache items taskID)) taskID) = []).
Proof.
  intros Hf.
  assert (Hs : forall items items',
            (forall x, x ∈ items' -> x ∈ items) ->
            snd (filter.dedupeScrapedItems HashContent
                   (fst (scraper.filterNewItems HashContent cache items taskID)) items' taskID)
            = []).
  { intros items items' Hsub.
    rewrite scraper_filterNewItems_pass, filter_dedupeScrapedItems_pass. simpl.
    unfold passed at 1.
    destruct (afterPass_table HashContent scrapedContent false "scraper" cache items taskID Hf)
      as [_ ->].
    apply kept_all_present. intros x Hx. apply afterPass_all_present; auto. }
  assert (Hr : forall items items',
            (forall x, x ∈ items' -> x ∈ items) ->
            snd (filter.dedupeRSSItems HashContent
                   (fst (rss.filterNewItems HashContent cache items taskID)) items' taskID)
            = []).
  { intros items items' Hsub.
    rewrite rss_filterNewItems_pass, filter_dedupeRSSItems_pass. simpl.
    unfold passed at 1.
    destruct (afterPass_table HashContent feedContent false "rss" cache items taskID Hf)
      as [_ ->].
    apply kept_all_present. intros x Hx. apply afterPass_all_present; auto. }
  repeat split; auto.
  - intros items. apply Hs. intros x Hx.
    rewrite scraper_filterNewItems_pass in Hx. simpl in Hx.
    eapply elem_of_sublist; [exact Hx|apply kept_sublist].
  - intros items. apply Hr. intros x Hx.
    rewrite rss_filterNewItems_pass in Hx. simpl in Hx.
    eapply elem_of_sublist; [exact Hx|apply kept_sublist].
Qed.

Lemma filter_after_ingestion_lets_nothing_through_witness :
  let job := scrapedItem "42" "https://example.org/jobs/42" "remoteok" in
  snd (scraper.filterNewItems (fun s => s) emptyCache [job] "t1") = [job] /\
  snd (filter.dedupeScrapedItems (fun s => s)
         (fst (scraper.filterNewItems (fun s => s) emptyCache [job] "t1"))
         (snd (scraper.filterNewItems (fun s => s) emptyCache [job] "t1")) "t1") = [].
Proof.
  intros job. split; [reflexivity|].
  exact (proj1 (proj2 (filter_after_ingestion_lets_nothing_through (fun s => s) emptyCache
                         "t1" eq_refl)) [job]).
Defined.

(** X10: an ingestion pass delivers only what is new.  Whatever faults
    occur, every item that the scraper pass or the feed pass lets through
    was not in the table for the task, and the items let through are
    among the items given, in their order. *)
Theorem ingestion_delivers_only_new (HashContent : string -> string) cache taskID :
  (forall items,
     snd (scraper.filterNewItems HashContent cache items taskID) `sublist_of` items /\
     forall x, x ∈ snd (scraper.filterNewItems HashContent cache items taskID) ->
               ~ present (content_cache cache) (HashContent (scrapedContent x)) taskID) /\
  (forall items,
     snd (rss.filterNewItems HashContent cache items taskID) `sublist_of` items /\
     forall x, x ∈ snd (rss.filterNewItems HashContent cache items taskID) ->
               ~ present (content_cache cache) (HashContent (feedContent x)) taskID).
Proof.
  split; intros items.
  - rewrite scraper_filterNewItems_pass. simpl. split; [apply kept_sublist|].
    intros x Hx. unfold passed in Hx.
    exact (kept_strict_new HashContent scrapedContent false _ _ _ _ x eq_refl Hx).
  - rewrite rss_filterNewItems_pass. simpl. split; [apply kept_sublist|].
    intros x Hx. unfold passed in Hx.
    exact (kept_strict_new HashContent feedContent false _ _ _ _ x eq_refl Hx).
Qed.

(** X11: repeated items in one batch.  The table is written only at the
    end of a pass, so with no fault pending and none of the items in the
    table, a pass lets every item through, also items that have the same
    fingerprint as an earlier item of the same list. *)
Theorem fresh_batch_goes_through_whole (HashContent : string -> string) cache taskID :
  cache_faults cache = [] ->
  (forall items,
     (forall x, x ∈ items ->
        ~ present (content_cache cache) (HashContent (scrapedContent x)) taskID) ->
     snd (scraper.filterNewItems HashContent cache items taskID) = items /\
     snd (filter.dedupeScrapedItems HashContent cache items taskID) = items) /\
  (forall items,
     (forall x, x ∈ items ->
        ~ present (content_cache cache) (HashContent (feedContent x)) taskID) ->
     snd (rss.filterNewItems HashContent cache items taskID) = items /\
     snd (filter.dedupeRSSItems HashContent cache items taskID) = items).
Proof.
  intros Hf. split; intros items Hn.
  - rewrite scraper_filterNewItems_pass, filter_dedupeScrapedItems_pass. simpl.
    split; by apply passed_fresh.
  - rewrite rss_filterNewItems_pass, filter_dedupeRSSItems_pass. simpl.
    split; by apply passed_fresh.
Qed.

(** The same job, listed twice by a source, is delivered twice. *)
Lemma fresh_batch_goes_through_whole_witness :
  let job := scrapedItem "42" "https://example.org/jobs/42" "remoteok" in
  snd (scraper.filterNewItems (fun s => s) emptyCache [job; job] "t1") = [job; job].
Proof.
  intros job.
  apply (proj1 (fresh_batch_goes_through_whole (fun s => s) emptyCache "t1" eq_refl)).
  intros x _ Hp. unfold present in Hp. simpl in Hp. by apply elem_of_nil in Hp.
Defined.

End DedupFacts.

(** ** The filter step *)

Module FilterFacts.
Import storage CacheFacts CacheRepoFacts DedupFacts.

Lemma append_cons c (s t : string) : String c s +:+ t = String c (s +:+ t).
Proof. done. Qed.

(** The model of [strings.HasPrefix] and [strings.Contains] against
    their meaning. *)
Lemma HasPrefix_spec p : forall s,
  gostrings.HasPrefix s p = true <-> exists post, s = p +:+ post.
Proof.
  induction p as [|c p IH]; intros s; simpl.
  - split; [intros _; by exists s|by destruct s].
  - destruct s as [|d s]; simpl.
    + split; [done|]. by intros [post [=]].
    + rewrite andb_true_iff, bool_decide_eq_true, IH. split.
      * intros [-> [post ->]]. by exists post.
      * intros [post Hs]. rewrite append_cons in Hs. injection Hs as -> ->. eauto.
Qed.

Lemma Contains_unfold s sub :
  gostrings.Contains s sub
  = gostrings.HasPrefix s sub
    || match s with EmptyString => false | String _ s' => gostrings.Contains s' sub end.
Proof. by destruct s. Qed.

Lemma Contains_spec sub : forall s,
  gostrings.Contains s sub = true <-> exists pre post, s = pre +:+ sub +:+ post.
Proof.
  induction s as [|c s IH]; rewrite Contains_unfold, orb_true_iff, HasPrefix_spec.
  - split.
    + intros [[post Hs]|[=]]. by exists "", post.
    + intros ([|d pre] & post & Hs); [|by rewrite append_cons in Hs].
      left. by exists post.
  - rewrite IH. split.
    + intros [[post Hs]|(pre & post & ->)]; [by exists "", post|].
      by exists (String c pre), post.
    + intros ([|d pre] & post & Hs); [left; by exists post|].
      rewrite append_cons in Hs. injection Hs as -> ->. right. by exists pre, post.
Qed.

Section Keywords.

Variable ToLower : string -> string.

(** The text of an item that the keywords are looked for in. *)
Definition scrapedText (item : ScrapedItem.t) : string :=
  ToLower (ScrapedItem.Title item +:+ " " +:+ ScrapedItem.Description item +:+ " "
           +:+ gostrings.Join (ScrapedItem.Tags item) " ").

Definition feedText (item : RSSItem.t) : string :=
  ToLower (RSSItem.Title item +:+ " " +:+ RSSItem.Description item).

(** A text is admitted when it contains no exclude keyword and, if there
    are include keywords, at least one of them. *)
Definition admitted (include exclude : list string) (text : string) : Prop :=
  (forall k, k ∈ exclude -> gostrings.Contains text (ToLower k) = false) /\
  (include = [] \/ exists k, k ∈ include /\ gostrings.Contains text (ToLower k) = true).

Definition admits (include exclude : list string) (text : string) : bool :=
  negb (filter.containsAny ToLower text exclude)
  && (bool_decide (include = []) || filter.containsAny ToLower text include).

Lemma containsAny_true text keywords :
  filter.containsAny ToLower text keywords = true
  <-> exists k, k ∈ keywords /\ gostrings.Contains text (ToLower k) = true.
Proof.
  induction keywords as [|k rest IH]; simpl.
  - split; [done|]. by intros (k & ?%elem_of_nil & _).
  - destruct (gostrings.Contains text (ToLower k)) eqn:Hk.
    + split; [|done]. intros _. exists k. split; [by left|done].
    + rewrite IH. split.
      * intros (k' & Hin & Hc). exists k'. split; [by right|done].
      * intros (k' & [->|Hin]%elem_of_cons & Hc); [congruence|eauto].
Qed.

Lemma containsAny_false text keywords :
  filter.containsAny ToLower text keywords = false
  <-> forall k, k ∈ keywords -> gostrings.Contains text (ToLower k) = false.
Proof.
  rewrite <- not_true_iff_false, containsAny_true. split.
  - intros Hn k Hin. apply not_true_iff_false. intros Hc. apply Hn. eauto.
  - intros Hall (k & Hin & Hc). rewrite (Hall k Hin) in Hc. done.
Qed.

Lemma admits_spec include exclude text :
  admits include exclude text = true <-> admitted include exclude text.
Proof.
  unfold admits, admitted.
  rewrite andb_true_iff, negb_true_iff, containsAny_false, orb_true_iff, containsAny_true.
  split; intros [H1 [H2|H2]]; (split; [done|]);
    [left; by apply bool_decide_eq_true in H2|by right
    |left; by apply bool_decide_eq_true|by right].
Qed.

Lemma filter_all {A} (l : list A) : List.filter (fun _ => true) l = l.
Proof. induction l as [|x l IH]; simpl; by f_equal. Qed.

Lemma length_pos_nil {A} (l : list A) : bool_decide (0 < length l) = negb (bool_decide (l = [])).
Proof. by destruct l. Qed.

Lemma filterScrapedItems_loop_spec include exclude items : forall filtered,
  filter.filterScrapedItems_loop ToLower items include exclude filtered
  = filtered ++ List.filter (fun item => admits include exclude (scrapedText item)) items.
Proof.
  induction items as [|x rest IH]; intros filtered; simpl; [by rewrite app_nil_r|].
  unfold admits at 1. fold (scrapedText x). rewrite length_pos_nil.
  destruct (filter.containsAny ToLower (scrapedText x) exclude); simpl; [apply IH|].
  rewrite <- negb_orb.
  destruct (bool_decide (include = []) || filter.containsAny ToLower (scrapedText x) include);
    simpl; [|apply IH].
  by rewrite IH, <- app_assoc.
Qed.

Lemma filterRSSItems_loop_spec include exclude items : forall filtered,
  filter.filterRSSItems_loop ToLower items include exclude filtered
  = filtered ++ List.filter (fun item => admits include exclude (feedText item)) items.
Proof.
  induction items as [|x rest IH]; intros filtered; simpl; [by rewrite app_nil_r|].
  unfold admits at 1. fold (feedText x). rewrite length_pos_nil.
  destruct (filter.containsAny ToLower (feedText x) exclude); simpl; [apply IH|].
  rewrite <- negb_orb.
  destruct (bool_decide (include = []) || filter.containsAny ToLower (feedText x) include);
    simpl; [|apply IH].
  by rewrite IH, <- app_assoc.
Qed.

Lemma filterScrapedItems_filter include exclude items :
  filter.filterScrapedItems ToLower items include exclude
  = List.filter (fun item => admits include exclude (scrapedText item)) items.
Proof.
  unfold filter.filterScrapedItems.
  destruct include as [|i include], exclude as [|x exclude]; simpl;
    try apply filterScrapedItems_loop_spec.
  unfold admits. simpl. by rewrite filter_all.
Qed.

Lemma filterRSSItems_filter include exclude items :
  filter.filterRSSItems ToLower items include exclude
  = List.filter (fun item => admits include exclude (feedText item)) items.
Proof.
  unfold filter.filterRSSItems.
  destruct include as [|i include], exclude as [|x exclude]; simpl;
    try apply filterRSSItems_loop_spec.
  unfold admits. simpl. by rewrite filter_all.
Qed.

Lemma filter_sublist {A} (f : A -> bool) (l : list A) : List.filter f l `sublist_of` l.
Proof.
  induction l as [|x l IH]; simpl; [done|].
  destruct (f x); [by apply sublist_skip|by apply sublist_cons].
Qed.

End Keywords.

(** X12: the keyword filter.  An item stays iff its lower-cased text
    contains no exclude keyword and, when include keywords are given, at
    least one of them; so an exclude keyword wins over an include
    keyword.  The items that stay keep their order. *)
Theorem keyword_filter_spec (ToLower : string -> string) include exclude :
  (forall text, admits ToLower include exclude text = true
                <-> admitted ToLower include exclude text) /\
  (forall items,
     filter.filterScrapedItems ToLower items include exclude
     = List.filter (fun item => admits ToLower include exclude (scrapedText ToLower item))
                   items) /\
  (forall items,
     filter.filterRSSItems ToLower items include exclude
     = List.filter (fun item => admits ToLower include exclude (feedText ToLower item)) items).
Proof.
  split; [intros text; apply admits_spec|].
  split; intros items; [apply filterScrapedItems_filter|apply filterRSSItems_filter].
Qed.

Section Execute.

Variable HashContent : string -> string.
Variable ToLower : string -> string.

Definition includeOf (config : Config) : list string :=
  filter.getStringSlice config "include_keywords".

Definition excludeOf (config : Config) : list string :=
  filter.getStringSlice config "exclude_keywords".

Definition limitOf (config : Config) : Z := default 0%Z (asNumber (config !! "limit")).

Definition taskOf (config : Config) : string := default "" (asString (config !! "task_id")).

(** The step deduplicates when [deduplicate] is the boolean true, a
    non-empty [task_id] string is in the config and the executor has a
    cache. *)
Definition dedupes (e : filter.Executor) (config : Config) : bool :=
  default false (asBool (config !! "deduplicate"))
  && negb (isEmpty (taskOf config))
  && bool_decide (is_Some (filter.cache e)).

(** The executor and the items after the deduplication stage. *)
Definition deduped {A} (content : A -> string) (e : filter.Executor) (config : Config)
    (items : list A) : filter.Executor * list A :=
  match filter.cache e with
  | Some c =>
      if dedupes e config
      then ({| filter.cache :=
                 Some (afterPass HashContent content true "filter" c items (taskOf config)) |},
            passed HashContent content true c items (taskOf config))
      else (e, items)
  | None => (e, items)
  end.

Lemma Execute_scraped e config v m n :
  filter.Execute HashContent ToLower e
    (Some {| model.Data_ := model.DataScrapedItems v; model.Metadata := m;
             model.ItemCount := n |}) config
  = let '(e', items) :=
      deduped scrapedContent e config
        (List.filter (fun item => admits ToLower (includeOf config) (excludeOf config)
                                         (scrapedText ToLower item)) v) in
    let items := filter.truncated items (limitOf config) in
    (e', (Some {| model.Data_ := model.DataScrapedItems items; model.Metadata := m;
                  model.ItemCount := Z.of_nat (length items) |}, None)).
Proof.
  unfold filter.Execute, deduped, dedupes, taskOf. simpl.
  rewrite filterScrapedItems_filter. fold (includeOf config) (excludeOf config).
  destruct e as [[c|]]; simpl; [|done].
  rewrite andb_true_r.
  destruct (default false (asBool (config !! "deduplicate"))
            && negb (isEmpty (default "" (asString (config !! "task_id"))))); [|done].
  by rewrite filter_dedupeScrapedItems_pass.
Qed.

Lemma Execute_rss e config v m n :
  filter.Execute HashContent ToLower e
    (Some {| model.Data_ := model.DataRSSItems v; model.Metadata := m;
             model.ItemCount := n |}) config
  = let '(e', items) :=
      deduped feedContent e config
        (List.filter (fun item => admits ToLower (includeOf config) (excludeOf config)
                                         (feedText ToLower item)) v) in
    let items := filter.truncated items (limitOf config) in
    (e', (Some {| model.Data_ := model.DataRSSItems items; model.Metadata := m;
                  model.ItemCount := Z.of_nat (length items) |}, None)).
Proof.
  unfold filter.Execute, deduped, dedupes, taskOf. simpl.
  rewrite filterRSSItems_filter. fold (includeOf config) (excludeOf config).
  destruct e as [[c|]]; simpl; [|done].
  rewrite andb_true_r.
  destruct (default false (asBool (config !! "deduplicate"))
            && negb (isEmpty (default "" (asString (config !! "task_id"))))); [|done].
  by rewrite filter_dedupeRSSItems_pass.
Qed.

Lemma truncated_sublist {A} (items : list A) limit :
  filter.truncated items limit `sublist_of` items.
Proof. unfold filter.truncated. destruct (_ && _); [apply sublist_take|done]. Qed.

Lemma truncated_nil {A} limit : filter.truncated (@nil A) limit = [].
Proof. unfold filter.truncated. destruct (_ && _); [apply take_nil|done]. Qed.

Lemma truncated_length {A} (items : list A) limit :
  (0 < limit -> Z.of_nat (length (filter.truncated items limit)) <= limit)%Z.
Proof.
  intros Hl. unfold filter.truncated.
  rewrite (bool_decide_true (0 < limit)%Z) by done. simpl.
  case_bool_decide; [rewrite length_take|]; lia.
Qed.

Lemma deduped_sublist {A} (content : A -> string) e config items :
  snd (deduped content e config items) `sublist_of` items.
Proof.
  unfold deduped. destruct (filter.cache e) as [c|]; [|done].
  destruct (dedupes e config); [|done]. apply kept_sublist.
Qed.

Lemma deduped_off {A} (content : A -> string) e config items :
  dedupes e config = false -> deduped content e config items = (e, items).
Proof. unfold deduped. intros ->. by destruct (filter.cache e). Qed.

(** What the result of [Execute] on a list of items is made of. *)
Lemma Execute_items_shape {A} (content : A -> string) e config (kept : list A) :
  let items := filter.truncated (snd (deduped content e config kept)) (limitOf config) in
  items `sublist_of` kept /\
  (0 < limitOf config -> Z.of_nat (length items) <= limitOf config)%Z /\
  (dedupes e config = false ->
     fst (deduped content e config kept) = e /\
     items = filter.truncated kept (limitOf config)).
Proof.
  intros items. subst items. split; [|split].
  - etrans; [apply truncated_sublist|apply deduped_sublist].
  - apply truncated_length.
  - intros Hd. by rewrite deduped_off.
Qed.

End Execute.

(** X13: the filter step never fails.  Without an input, or with data
    that is not a list of items, it hands its input on and leaves the
    cache alone.  With a list of items it answers a list of the same kind
    whose items are among the items the keyword filter admits, in their
    order, at most [limit] of them when [limit] is positive, with the
    item count set to their number and the metadata of the input; when it
    does not deduplicate, the cache is untouched and the items are the
    admitted ones cut to the limit. *)
Theorem filter_Execute_spec (HashContent ToLower : string -> string) e config :
  let admitted_ text := admits ToLower (includeOf config) (excludeOf config) text in
  filter.Execute HashContent ToLower e None config = (e, (None, None)) /\
  (forall inp,
     match model.Data_ inp with
     | model.DataScrapedItems _ | model.DataRSSItems _ => True
     | _ => filter.Execute HashContent ToLower e (Some inp) config = (e, (Some inp, None))
     end) /\
  (forall v m n, exists e' items,
     filter.Execute HashContent ToLower e
       (Some {| model.Data_ := model.DataScrapedItems v; model.Metadata := m;
                model.ItemCount := n |}) config
     = (e', (Some {| model.Data_ := model.DataScrapedItems items; model.Metadata := m;
                     model.ItemCount := Z.of_nat (length items) |}, None)) /\
     items `sublist_of` List.filter (fun item => admitted_ (scrapedText ToLower item)) v /\
     (0 < limitOf config -> Z.of_nat (length items) <= limitOf config)%Z /\
     (dedupes e config = false ->
        e' = e /\
        items = filter.truncated
                  (List.filter (fun item => admitted_ (scrapedText ToLower item)) v)
                  (limitOf config))) /\
  (forall v m n, exists e' items,
     filter.Execute HashContent ToLower e
       (Some {| model.Data_ := model.DataRSSItems v; model.Metadata := m;
                model.ItemCount := n |}) config
     = (e', (Some {| model.Data_ := model.DataRSSItems items; model.Metadata := m;
                     model.ItemCount := Z.of_nat (length items) |}, None)) /\
     items `sublist_of` List.filter (fun item => admitted_ (feedText ToLower item)) v /\
     (0 < limitOf config -> Z.of_nat (length items) <= limitOf config)%Z /\
     (dedupes e config = false ->
        e' = e /\
        items = filter.truncated
                  (List.filter (fun item => admitted_ (feedText ToLower item)) v)
                  (limitOf config))).
Proof.
  intros admitted_. subst admitted_. split; [done|]. split.
  { intros inp. unfold filter.Execute. by destruct (model.Data_ inp). }
  split; intros v m n.
  - rewrite Execute_scraped.
    pose proof (Execute_items_shape HashContent scrapedContent e config
      (List.filter (fun item => admits ToLower (includeOf config) (excludeOf config)
                                       (scrapedText ToLower item)) v)) as H.
    destruct (deduped _ _ _ _ _) as [e' items]. simpl in *. eauto.
  - rewrite Execute_rss.
    pose proof (Execute_items_shape HashContent feedContent e config
      (List.filter (fun item => admits ToLower (includeOf config) (excludeOf config)
                                       (feedText ToLower item)) v)) as H.
    destruct (deduped _ _ _ _ _) as [e' items]. simpl in *. eauto.
Qed.

Lemma stringsOf_elem (s : string) (arr : list Value) : s ∈ stringsOf arr <-> VString s ∈ arr.
Proof.
  induction arr as [|v arr IH]; simpl.
  - split; by intros ?%elem_of_nil.
  - destruct v; rewrite ?elem_of_cons, IH; try (split; [by right|by intros [[=]|?]]).
    split; (intros [->|?]; [by left|by right]) || (intros [[= ->]|?]; [by left|by right]).
Qed.

(** [getStringSlice], by the value under the key. *)
Lemma getStringSlice_spec (config : Config) key :
  filter.getStringSlice config key
  = match config !! key with
    | Some (VArray arr) => stringsOf arr
    | Some (VString s) => if isEmpty s then [] else [s]
    | _ => []
    end.
Proof.
  unfold filter.getStringSlice.
  destruct (config !! key) as [[]|]; simpl; try done.
  by destruct (isEmpty s).
Qed.

Lemma Contains_empty s : gostrings.Contains s "" = true.
Proof. rewrite Contains_unfold. by destruct s. Qed.

(** X14: the empty keyword.  [strings.Contains] finds the empty string in
    every text.  So when the array under [exclude_keywords] holds an
    empty string, the step drops every item; when [exclude_keywords] is
    itself the empty string, it is ignored. *)
Theorem empty_exclude_keyword (HashContent ToLower : string -> string) e (config : Config) arr :
  ToLower "" = "" ->
  config !! "exclude_keywords" = Some (VArray arr) ->
  VString "" ∈ arr ->
  (forall v m n,
     snd (filter.Execute HashContent ToLower e
            (Some {| model.Data_ := model.DataScrapedItems v; model.Metadata := m;
                     model.ItemCount := n |}) config)
     = (Some {| model.Data_ := model.DataScrapedItems []; model.Metadata := m;
                model.ItemCount := 0 |}, None)) /\
  (forall v m n,
     snd (filter.Execute HashContent ToLower e
            (Some {| model.Data_ := model.DataRSSItems v; model.Metadata := m;
                     model.ItemCount := n |}) config)
     = (Some {| model.Data_ := model.DataRSSItems []; model.Metadata := m;
                model.ItemCount := 0 |}, None)) /\
  excludeOf (<["exclude_keywords" := VString ""]> config) = [].
Proof.
  intros Hlow Harr Hin.
  assert (Hex : forall text, admits ToLower (includeOf config) (excludeOf config) text = false).
  { intros text. unfold admits.
    assert (filter.containsAny ToLower text (excludeOf config) = true) as ->; [|done].
    apply containsAny_true. exists "". rewrite Hlow, Contains_empty. split; [|done].
    unfold excludeOf. rewrite getStringSlice_spec, Harr. by apply stringsOf_elem. }
  assert (Hnone : forall {A} (text : A -> string) (v : list A),
            List.filter (fun item => admits ToLower (includeOf config) (excludeOf config)
                                            (text item)) v = []).
  { intros A text v. induction v as [|x v IH]; simpl; [done|]. by rewrite Hex. }
  split; [|split].
  - intros v m n. rewrite Execute_scraped, Hnone.
    pose proof (deduped_sublist HashContent scrapedContent e config []) as Hs.
    destruct (deduped _ _ _ _ _) as [e' items]. simpl in *.
    apply sublist_nil_r in Hs as ->. by rewrite truncated_nil.
  - intros v m n. rewrite Execute_rss, Hnone.
    pose proof (deduped_sublist HashContent feedContent e config []) as Hs.
    destruct (deduped _ _ _ _ _) as [e' items]. simpl in *.
    apply sublist_nil_r in Hs as ->. by rewrite truncated_nil.
  - unfold excludeOf. rewrite getStringSlice_spec. by simplify_map_eq.
Qed.

Lemma empty_exclude_keyword_witness :
  let config : Config := {[ "exclude_keywords" := VArray [VString "senior"; VString ""] ]} in
  snd (filter.Execute (fun s => s) (fun s => s) {| filter.cache := None |}
         (Some {| model.Data_ := model.DataScrapedItems
                    [scrapedItem "42" "https://example.org/jobs/42" "remoteok"];
                  model.Metadata := ∅; model.ItemCount := 1 |}) config)
  = (Some {| model.Data_ := model.DataScrapedItems []; model.Metadata := ∅;
             model.ItemCount := 0 |}, None).
Proof.
  intros config.
  apply (proj1 (empty_exclude_keyword (fun s => s) (fun s => s) {| filter.cache := None |}
                  config [VString "senior"; VString ""] eq_refl eq_refl
                  ltac:(by repeat constructor))).
Defined.

Section IngestThenFilter.

Variable HashContent : string -> string.
Context {Net : Type}.

(** The loop of the scraper step keeps the cache free of faults and
    records every item it collects. *)
Lemma scrapeAll_recorded (reg : @scraper.Registry Net) names query limit taskID :
  taskID <> "" ->
  forall c net allItems errors,
    cache_faults c = [] ->
    (forall x, x ∈ allItems ->
       present (content_cache c) (HashContent (scrapedContent x)) taskID) ->
    let res := scraper.scrapeAll HashContent reg (Some c) net names query limit taskID
                                 allItems errors in
    exists c',
      fst (fst res) = Some c' /\ cache_faults c' = [] /\
      forall x, x ∈ fst (snd res) ->
        present (content_cache c') (HashContent (scrapedContent x)) taskID.
Proof.
  intros Ht. induction names as [|name rest IH]; intros c net allItems errors Hf Hrec; simpl.
  - by exists c.
  - destruct (scraper.Get reg name) as [src|err]; simpl; [|by apply IH].
    destruct (scraper.Scrape src net query limit) as [net1 [items [err|]]]; simpl;
      [by apply IH|].
    assert (isEmpty taskID = false) as -> by by apply bool_decide_eq_false.
    simpl. rewrite scraper_filterNewItems_pass.
    destruct (afterPass_table HashContent scrapedContent false "scraper" c items taskID Hf)
      as [Htab Hfs].
    apply IH; [done|].
    intros x [Hx|Hx]%elem_of_app.
    + rewrite Htab. apply inserted_present_iff. left. by apply Hrec.
    + by apply passed_delivered_recorded.
Qed.

End IngestThenFilter.

(** X15: a scraper step followed by a filter step that deduplicates, for
    the same task and over the same cache.  With no database fault
    pending, whatever the sources deliver, the filter step answers an
    empty list: the scraper step has just recorded every item that it
    handed on.  [SkipEmpty] holds of the answer, so a pipeline stops
    there. *)
Theorem scraper_then_deduplicating_filter_is_empty (HashContent ToLower : string -> string)
    {Net : Type} (e : @scraper.Executor Net) (net : Net) input (config config' : Config) c :
  scraper.cache e = Some c ->
  cache_faults c = [] ->
  taskOf config <> "" ->
  taskOf config' = taskOf config ->
  asBool (config' !! "deduplicate") = Some true ->
  let scraped := scraper.Execute HashContent e net input config in
  let filtered :=
    filter.Execute HashContent ToLower {| filter.cache := scraper.cache (fst (fst scraped)) |}
                   (fst (snd scraped)) config' in
  (exists m, snd filtered
             = (Some {| model.Data_ := model.DataScrapedItems []; model.Metadata := m;
                        model.ItemCount := 0 |}, None)) /\
  filter.SkipEmpty (fst (snd filtered)) = true.
Proof.
  intros Hc Hf Ht Hsame Hd scraped filtered.
  assert (exists m, snd filtered
             = (Some {| model.Data_ := model.DataScrapedItems []; model.Metadata := m;
                        model.ItemCount := 0 |}, None)) as [m Hm];
    [|split; [by exists m|by rewrite Hm]].
  subst filtered scraped. unfold scraper.Execute. cbv zeta. rewrite Hc.
  fold (taskOf config).
  match goal with
  | |- context [scraper.scrapeAll HashContent ?reg (Some c) net ?names ?q ?l _ [] []] =>
      destruct (scrapeAll_recorded HashContent reg names q l (taskOf config) Ht c net [] []
                  Hf) as (c' & Hc' & Hf' & Hrec);
        [by intros x ?%elem_of_nil|];
        destruct (scraper.scrapeAll HashContent reg (Some c) net names q l (taskOf config)
                    [] []) as [[cache' net'] [allItems errors]]
  end.
  cbn [fst snd] in *. subst cache'. eexists. rewrite Execute_scraped.
  unfold deduped, dedupes. simpl. rewrite Hd, Hsame. simpl.
  assert (isEmpty (taskOf config) = false) as -> by by apply bool_decide_eq_false.
  simpl. unfold passed. rewrite Hf'.
  rewrite kept_all_present; [by rewrite truncated_nil|].
  intros x Hx. apply Hrec. eapply elem_of_sublist; [exact Hx|apply filter_sublist].
Qed.

(** A source that delivers one job. *)
Definition hiring : @scraper.Source unit :=
  {| scraper.Name := "remoteok"; scraper.Category := "jobs";
     scraper.Scrape := fun net _ _ =>
       (net, ([scrapedItem "42" "https://example.org/jobs/42" "remoteok"], None)) |}.

Definition caching : @scraper.Executor unit :=
  {| scraper.registry := {| scraper.sources := {[ "remoteok" := hiring ]} |};
     scraper.cache := Some emptyCache |}.

(** The scraper step delivers the job, and the filter step then drops
    it. *)
Lemma scraper_then_deduplicating_filter_is_empty_witness :
  let config : Config := {[ "source" := VString "remoteok"; "task_id" := VString "t1" ]} in
  let config' : Config := {[ "deduplicate" := VBool true; "task_id" := VString "t1" ]} in
  let scraped := scraper.Execute (fun s => s) caching tt None config in
  (model.Data_ <$> fst (snd scraped))
  = Some (model.DataScrapedItems [scrapedItem "42" "https://example.org/jobs/42" "remoteok"]) /\
  filter.SkipEmpty
    (fst (snd (filter.Execute (fun s => s) (fun s => s)
                 {| filter.cache := scraper.cache (fst (fst scraped)) |}
                 (fst (snd scraped)) config'))) = true.
Proof.
  intros config config' scraped. split; [by vm_compute|].
  apply (scraper_then_deduplicating_filter_is_empty (fun s => s) (fun s => s) caching tt None
           config config' emptyCache eq_refl eq_refl).
  - by vm_compute.
  - by vm_compute.
  - by vm_compute.
Defined.

End FilterFacts.

(** ** The feed step *)

Module RssFacts.
Import storage CacheFacts CacheRepoFacts DedupFacts.

Section Feeds.

Variable HashContent : string -> string.
Context {Net : Type}.
Variable Do : Net -> string -> Net * (rss.Response + error).
Variable unmarshalRSS : string -> rss.rssFeed.t + error.
Variable unmarshalAtom : string -> rss.atomFeed.t + error.
Variable stripHTMLTags : string -> string.
Variable ToLower : string -> string.

(** One item of an RSS channel, and one entry of an Atom feed, as a feed
    item. *)
Definition ofRSS (source : string) (item : rss.rssItem.t) : RSSItem.t :=
  {| RSSItem.ID := if isEmpty (rss.rssItem.GUID item) then rss.rssItem.Link item
                   else rss.rssItem.GUID item;
     RSSItem.Title := rss.rssItem.Title item;
     RSSItem.Description := stripHTMLTags (rss.rssItem.Description item);
     RSSItem.Link := rss.rssItem.Link item;
     RSSItem.Source := source;
     RSSItem.PubDate := rss.rssItem.PubDate item;
     RSSItem.Categories := rss.rssItem.Categories item;
     RSSItem.Author := rss.rssItem.Author item |}.

Definition ofAtom (source : string) (entry : rss.atomEntry.t) : RSSItem.t :=
  {| RSSItem.ID := rss.atomEntry.ID entry;
     RSSItem.Title := rss.atomEntry.Title entry;
     RSSItem.Description :=
       stripHTMLTags (if isEmpty (rss.atomEntry.Summary entry) then rss.atomEntry.Content entry
                      else rss.atomEntry.Summary entry);
     RSSItem.Link := rss.atomLink.Href (rss.atomEntry.Link entry);
     RSSItem.Source := source;
     RSSItem.PubDate := rss.atomEntry.Updated entry;
     RSSItem.Categories := [];
     RSSItem.Author := rss.atomAuthor.Name (rss.atomEntry.Author entry) |}.

(** The first [limit] elements when [limit] is positive, all of them
    otherwise. *)
Definition upTo {A} (limit : Z) (l : list A) : list A :=
  if bool_decide (0 < limit)%Z then take (Z.to_nat limit) l else l.

Lemma upTo_length {A} limit (l : list A) :
  (0 < limit -> Z.of_nat (length (upTo limit l)) <= limit)%Z.
Proof. intros H. unfold upTo. rewrite bool_decide_true by done. rewrite length_take. lia. Qed.

Lemma upTo_nonempty {A} limit (l : list A) : 0 < length l -> 0 < length (upTo limit l).
Proof.
  unfold upTo. case_bool_decide as H; [|done]. destruct l as [|x l]; simpl; [lia|].
  intros _. destruct (Z.to_nat limit) eqn:Hn; [lia|]. simpl. lia.
Qed.

Lemma convertRSSItems_loop_spec source limit items : forall i result,
  (0 <= i)%Z ->
  rss.convertRSSItems_loop stripHTMLTags items source limit i result
  = result ++ (ofRSS source <$> (if bool_decide (0 < limit)%Z
                                 then take (Z.to_nat (limit - i)) items else items)).
Proof.
  induction items as [|x rest IH]; intros i result Hi; simpl.
  - case_bool_decide; by rewrite ?take_nil, app_nil_r.
  - destruct (bool_decide (0 < limit)%Z) eqn:Hl; simpl.
    + destruct (bool_decide (limit <= i)%Z) eqn:Hle; simpl.
      * apply bool_decide_eq_true in Hle.
        replace (Z.to_nat (limit - i)) with 0 by lia. simpl. by rewrite app_nil_r.
      * apply bool_decide_eq_false in Hle. pose proof Hl as Hpos%bool_decide_eq_true.
        rewrite IH by lia. rewrite ?Hl.
        replace (Z.to_nat (limit - i)) with (S (Z.to_nat (limit - (i + 1)))) by lia.
        simpl. by rewrite <- app_assoc.
    + rewrite IH by lia. rewrite ?Hl. by rewrite <- app_assoc.
Qed.

Lemma convertAtomItems_loop_spec source limit entries : forall i result,
  (0 <= i)%Z ->
  rss.convertAtomItems_loop stripHTMLTags entries source limit i result
  = result ++ (ofAtom source <$> (if bool_decide (0 < limit)%Z
                                  then take (Z.to_nat (limit - i)) entries else entries)).
Proof.
  induction entries as [|x rest IH]; intros i result Hi; simpl.
  - case_bool_decide; by rewrite ?take_nil, app_nil_r.
  - destruct (bool_decide (0 < limit)%Z) eqn:Hl; simpl.
    + destruct (bool_decide (limit <= i)%Z) eqn:Hle; simpl.
      * apply bool_decide_eq_true in Hle.
        replace (Z.to_nat (limit - i)) with 0 by lia. simpl. by rewrite app_nil_r.
      * apply bool_decide_eq_false in Hle. pose proof Hl as Hpos%bool_decide_eq_true.
        rewrite IH by lia. rewrite ?Hl.
        replace (Z.to_nat (limit - i)) with (S (Z.to_nat (limit - (i + 1)))) by lia.
        simpl. by rewrite <- app_assoc.
    + rewrite IH by lia. rewrite ?Hl. by rewrite <- app_assoc.
Qed.

Lemma convertRSSItems_upTo items source limit :
  rss.convertRSSItems stripHTMLTags items source limit = ofRSS source <$> upTo limit items.
Proof.
  unfold rss.convertRSSItems, upTo. rewrite convertRSSItems_loop_spec by lia.
  by rewrite Z.sub_0_r.
Qed.

Lemma convertAtomItems_upTo entries source limit :
  rss.convertAtomItems stripHTMLTags entries source limit = ofAtom source <$> upTo limit entries.
Proof.
  unfold rss.convertAtomItems, upTo. rewrite convertAtomItems_loop_spec by lia.
  by rewrite Z.sub_0_r.
Qed.

End Feeds.

(** X16: converting a feed.  [convertRSSItems] and [convertAtomItems]
    convert the first [limit] entries, in order, when [limit] is
    positive, and every entry when it is zero or negative.  The id of an
    RSS item is its GUID, or its link when it has no GUID; the
    description of an Atom entry is its summary, or its content when it
    has no summary. *)
Theorem feed_conversion_spec (stripHTMLTags : string -> string) source limit :
  (forall items,
     rss.convertRSSItems stripHTMLTags items source limit
     = ofRSS stripHTMLTags source <$> upTo limit items) /\
  (forall entries,
     rss.convertAtomItems stripHTMLTags entries source limit
     = ofAtom stripHTMLTags source <$> upTo limit entries) /\
  (forall A (l : list A),
     upTo limit l `prefix_of` l /\
     (0 < limit -> Z.of_nat (length (upTo limit l)) = Z.min limit (Z.of_nat (length l)))%Z /\
     (limit <= 0 -> upTo limit l = l)%Z).
Proof.
  split; [intros; apply convertRSSItems_upTo|]. split; [intros; apply convertAtomItems_upTo|].
  intros A l. unfold upTo. split; [|split].
  - case_bool_decide; [apply prefix_take|done].
  - intros H. rewrite bool_decide_true by done. rewrite length_take. lia.
  - intros H. by rewrite bool_decide_false by lia.
Qed.

Section Step.

Variable HashContent : string -> string.
Context {Net : Type}.
Variable Do : Net -> string -> Net * (rss.Response + error).
Variable unmarshalRSS : string -> rss.rssFeed.t + error.
Variable unmarshalAtom : string -> rss.atomFeed.t + error.
Variable stripHTMLTags : string -> string.
Variable ToLower : string -> string.

Definition fetchFeed := rss.fetchFeed Do unmarshalRSS unmarshalAtom stripHTMLTags.

Definition Execute :=
  rss.Execute HashContent Do unmarshalRSS unmarshalAtom stripHTMLTags ToLower.

Definition noFeed : error := errorString "could not parse feed as RSS or Atom".

Lemma fetchFeed_result net url limit :
  match snd (fetchFeed net url limit) with
  | (items, None) =>
      0 < length items /\ (0 < limit -> Z.of_nat (length items) <= limit)%Z
  | (items, Some _) => items = []
  end.
Proof.
  unfold fetchFeed, rss.fetchFeed.
  destruct (Do net url) as [net1 [resp|err]]; simpl; [|done].
  destruct (negb _); simpl; [done|].
  destruct (rss.Body resp) as [body|err]; simpl; [|done].
  assert (Hatom :
    match snd (match unmarshalAtom body with
               | inl atom =>
                   if bool_decide (0 < length (rss.atomFeed.Entries atom))
                   then (net1, (rss.convertAtomItems stripHTMLTags (rss.atomFeed.Entries atom)
                                  (rss.atomFeed.Title atom) limit, None))
                   else (net1, ([], Some noFeed))
               | inr _ => (net1, ([], Some noFeed))
               end) with
    | (items, None) =>
        0 < length items /\ (0 < limit -> Z.of_nat (length items) <= limit)%Z
    | (items, Some _) => items = []
    end).
  { destruct (unmarshalAtom body) as [atom|err]; simpl; [|done].
    case_bool_decide as Hn; simpl; [|done].
    rewrite convertAtomItems_upTo, length_fmap. split; [by apply upTo_nonempty|].
    apply upTo_length. }
  destruct (unmarshalRSS body) as [feed|err]; simpl; [|exact Hatom].
  case_bool_decide as Hn; simpl; [|exact Hatom].
  rewrite convertRSSItems_upTo, length_fmap. split; [by apply upTo_nonempty|].
  apply upTo_length.
Qed.

(** What the config asks for. *)
Definition urlsOf (config : Config) : list string :=
  match asString (config !! "url") with Some url => [url] | None => [] end
  ++ match asArray (config !! "urls") with Some arr => stringsOf arr | None => [] end.

Definition limitOf (config : Config) : Z := default 20%Z (asNumber (config !! "limit")).

Definition keywordsOf (config : Config) : list string :=
  match asArray (config !! "keywords") with
  | Some kws => rss.loweredStrings ToLower kws
  | None => []
  end.

Definition taskOf (config : Config) : string := default "" (asString (config !! "task_id")).

(** The cache, the network, the items and the messages after the loop
    over the feeds. *)
Definition collected (e : rss.Executor) (net : Net) (config : Config)
  : option CacheRepository * Net * (list RSSItem.t * list string) :=
  rss.fetchAll HashContent Do unmarshalRSS unmarshalAtom stripHTMLTags ToLower
               (rss.cache e) net (urlsOf config) (limitOf config) (keywordsOf config)
               (taskOf config) [] [].

Lemma Execute_urls (config : Config) :
  (let urls := match asString (config !! "url") with Some url => [url] | None => [] end in
   match asArray (config !! "urls") with
   | Some urlsArr => urls ++ stringsOf urlsArr
   | None => urls
   end) = urlsOf config.
Proof.
  unfold urlsOf. cbv zeta. destruct (asArray (config !! "urls")); by rewrite ?app_nil_r.
Qed.

(** [Execute], by what the loop collected. *)
Lemma Execute_collected e net input config :
  Execute e net input config
  = let '(cache, net', (allItems, errors)) := collected e net config in
    let e' := {| rss.cache := cache |} in
    if bool_decide (limitOf config < 0)%Z then (e', net', None)
    else
      let items := take (Z.to_nat (limitOf config)) allItems in
      let metadata : gmap string Value :=
        {[ "feeds" := VArray (VString <$> urlsOf config);
           "total_items" := VNumber (Z.of_nat (length items)) ]} in
      (e', net',
       Some (Some {| model.Data_ := model.DataRSSItems items;
                     model.Metadata :=
                       if bool_decide (0 < length errors)
                       then <["errors" := VArray (VString <$> errors)]> metadata
                       else metadata;
                     model.ItemCount := Z.of_nat (length items) |}, None)).
Proof.
  unfold Execute, rss.Execute, collected. rewrite Execute_urls. cbv zeta.
  fold (limitOf config) (keywordsOf config) (taskOf config).
  destruct (rss.fetchAll _ _ _ _ _ _ _ _ _ _ _ _ _ _) as [[cache net'] [allItems errors]].
  destruct (bool_decide (limitOf config < 0)%Z) eqn:Hneg.
  - apply bool_decide_eq_true in Hneg.
    rewrite bool_decide_true by lia. by rewrite bool_decide_false by lia.
  - apply bool_decide_eq_false in Hneg. rewrite (bool_decide_true (0 <= _)%Z) by lia.
    case_bool_decide as Hlen; [done|].
    by rewrite take_ge by lia.
Qed.

Lemma fetchAll_recorded urls limit keywords taskID :
  taskID <> "" ->
  forall c net allItems errors,
    cache_faults c = [] ->
    (forall x, x ∈ allItems ->
       present (content_cache c) (HashContent (feedContent x)) taskID) ->
    let res := rss.fetchAll HashContent Do unmarshalRSS unmarshalAtom stripHTMLTags ToLower
                            (Some c) net urls limit keywords taskID allItems errors in
    exists c',
      fst (fst res) = Some c' /\ cache_faults c' = [] /\
      forall x, x ∈ fst (snd res) ->
        present (content_cache c') (HashContent (feedContent x)) taskID.
Proof.
  intros Ht. induction urls as [|url rest IH]; intros c net allItems errors Hf Hrec; simpl.
  - by exists c.
  - destruct (rss.fetchFeed _ _ _ _ net url limit) as [net1 [items [err|]]]; simpl;
      [by apply IH|].
    assert (isEmpty taskID = false) as -> by by apply bool_decide_eq_false.
    simpl. rewrite rss_filterNewItems_pass.
    set (items' := if bool_decide (0 < length keywords) then _ else _).
    destruct (afterPass_table HashContent feedContent false "rss" c items' taskID Hf)
      as [Htab Hfs].
    apply IH; [done|].
    intros x [Hx|Hx]%elem_of_app.
    + rewrite Htab. apply inserted_present_iff. left. by apply Hrec.
    + by apply passed_delivered_recorded.
Qed.

End Step.

(** X17: fetching one feed.  When [fetchFeed] returns no error it returns
    at least one item, and at most [limit] items when [limit] is
    positive; when it returns an error it returns no items.  A body that
    decodes as a feed without entries is an error: with status 200, a
    body that decodes as RSS with no items and does not decode as Atom
    with entries gives "could not parse feed as RSS or Atom". *)
Theorem fetchFeed_outcome {Net : Type} (Do : Net -> string -> Net * (rss.Response + error))
    (unmarshalRSS : string -> rss.rssFeed.t + error)
    (unmarshalAtom : string -> rss.atomFeed.t + error)
    (stripHTMLTags : string -> string) net url limit :
  match snd (fetchFeed Do unmarshalRSS unmarshalAtom stripHTMLTags net url limit) with
  | (items, None) =>
      0 < length items /\ (0 < limit -> Z.of_nat (length items) <= limit)%Z
  | (items, Some _) => items = []
  end /\
  (forall net' body feed,
     Do net url = (net', inl {| rss.StatusCode := 200; rss.Body := inl body |}) ->
     unmarshalRSS body = inl feed ->
     rss.rssChannel.Items (rss.rssFeed.Channel feed) = [] ->
     (forall atom, unmarshalAtom body = inl atom -> rss.atomFeed.Entries atom = []) ->
     fetchFeed Do unmarshalRSS unmarshalAtom stripHTMLTags net url limit
     = (net', ([], Some noFeed))).
Proof.
  split; [apply fetchFeed_result|].
  intros net' body feed HDo Hrss Hitems Hatom.
  unfold fetchFeed, rss.fetchFeed. rewrite HDo. simpl. rewrite Hrss, Hitems. simpl.
  destruct (unmarshalAtom body) as [atom|err] eqn:Ha; [|done].
  by rewrite (Hatom atom eq_refl).
Qed.

(** X18: the feed step.  It never returns an error.  With a negative
    [limit] it panics, after the feeds have been fetched and the cache
    written.  Otherwise it answers the first [limit] of the items that
    the loop over the feeds collected, with their number as item count
    and as [total_items]; with [limit] 0 that is no item at all.  The
    default limit is 20. *)
Theorem rss_Execute_spec (HashContent : string -> string) {Net : Type}
    (Do : Net -> string -> Net * (rss.Response + error))
    (unmarshalRSS : string -> rss.rssFeed.t + error)
    (unmarshalAtom : string -> rss.atomFeed.t + error)
    (stripHTMLTags ToLower : string -> string) e net input (config : Config) :
  let limit := default 20%Z (asNumber (config !! "limit")) in
  let loop := collected HashContent Do unmarshalRSS unmarshalAtom stripHTMLTags ToLower
                        e net config in
  let res := Execute HashContent Do unmarshalRSS unmarshalAtom stripHTMLTags ToLower
                     e net input config in
  rss.cache (fst (fst res)) = fst (fst loop) /\
  snd (fst res) = snd (fst loop) /\
  ((limit < 0)%Z -> snd res = None) /\
  ((0 <= limit)%Z ->
     exists out,
       snd res = Some (Some out, None) /\
       model.Data_ out = model.DataRSSItems (take (Z.to_nat limit) (fst (snd loop))) /\
       model.ItemCount out = Z.of_nat (length (take (Z.to_nat limit) (fst (snd loop)))) /\
       (model.ItemCount out <= limit)%Z /\
       model.Metadata out !! "total_items" = Some (VNumber (model.ItemCount out)) /\
       model.Metadata out !! "feeds" = Some (VArray (VString <$> urlsOf config))).
Proof.
  intros limit loop res. subst res loop. rewrite Execute_collected.
  fold limit. unfold limitOf. fold limit.
  destruct (collected _ _ _ _ _ _ _ _ _) as [[cache net'] [allItems errors]].
  cbn [fst snd]. case_bool_decide as Hneg; cbn [fst snd].
  - repeat split; lia || done.
  - split; [done|]. split; [done|]. split; [lia|]. intros _. eexists. split; [done|].
    cbn [model.Data_ model.ItemCount model.Metadata].
    split; [done|]. split; [done|]. split; [rewrite length_take; lia|].
    case_bool_decide; by simplify_map_eq.
Qed.

(** X19: items beyond the limit are lost.  The limit is applied after the
    items of every feed have gone through the cache.  So with a cache, a
    task id and no database fault pending, every item that the loop
    collected is in the cache after the step, also the items that the
    limit cut off; and a later pass lets no such item through. *)
Theorem rss_items_beyond_limit_are_lost (HashContent : string -> string) {Net : Type}
    (Do : Net -> string -> Net * (rss.Response + error))
    (unmarshalRSS : string -> rss.rssFeed.t + error)
    (unmarshalAtom : string -> rss.atomFeed.t + error)
    (stripHTMLTags ToLower : string -> string) e net input (config : Config) c :
  rss.cache e = Some c ->
  cache_faults c = [] ->
  taskOf config <> "" ->
  let res := Execute HashContent Do unmarshalRSS unmarshalAtom stripHTMLTags ToLower
                     e net input config in
  let loop := collected HashContent Do unmarshalRSS unmarshalAtom stripHTMLTags ToLower
                        e net config in
  exists c',
    rss.cache (fst (fst res)) = Some c' /\
    forall x, x ∈ fst (snd loop) ->
      present (content_cache c') (HashContent (feedContent x)) (taskOf config) /\
      snd (rss.filterNewItems HashContent c' [x] (taskOf config)) = [].
Proof.
  intros Hc Hf Ht res loop.
  assert (Hcache : rss.cache (fst (fst res)) = fst (fst loop)).
  { subst res loop. rewrite Execute_collected.
    destruct (collected _ _ _ _ _ _ _ _ _) as [[cache net'] [allItems errors]].
    by case_bool_decide. }
  rewrite Hcache. subst loop. unfold collected. rewrite Hc.
  destruct (fetchAll_recorded HashContent Do unmarshalRSS unmarshalAtom stripHTMLTags ToLower
              (urlsOf config) (limitOf config) (keywordsOf ToLower config) (taskOf config) Ht
              c net [] [] Hf) as (c' & Hc' & Hf' & Hrec); [by intros x ?%elem_of_nil|].
  exists c'. split; [done|]. intros x Hx. split; [by apply Hrec|].
  rewrite rss_filterNewItems_pass. simpl. unfold passed. rewrite Hf'.
  apply kept_all_present. intros y ->%list_elem_of_singleton. by apply Hrec.
Qed.

(** Two feeds of one post each, and a limit of one. *)
Definition post (url : string) : rss.rssFeed.t :=
  {| rss.rssFeed.Channel :=
       {| rss.rssChannel.Title := "Blog"; rss.rssChannel.Link := url;
          rss.rssChannel.Description := "";
          rss.rssChannel.Items :=
            [{| rss.rssItem.Title := "Release notes"; rss.rssItem.Link := url +:+ "/1";
                rss.rssItem.Description := ""; rss.rssItem.PubDate := "";
                rss.rssItem.GUID := ""; rss.rssItem.Author := "";
                rss.rssItem.Categories := [] |}] |} |}.

Definition serving (net : unit) (url : string) : unit * (rss.Response + error) :=
  (net, inl {| rss.StatusCode := 200; rss.Body := inl url |}).

Definition twoFeeds : Config :=
  {[ "urls" := VArray [VString "https://a.example"; VString "https://b.example"];
     "limit" := VNumber 1; "task_id" := VString "t1" ]}.

Lemma rss_items_beyond_limit_are_lost_witness :
  let run := Execute (fun s => s) serving (fun body => inl (post body))
                     (fun _ => inr noFeed) (fun s => s) (fun s => s)
                     {| rss.cache := Some emptyCache |} tt None twoFeeds in
  let second := feedItem "https://b.example/1" "https://b.example/1" "Blog" in
  (model.Data_ <$> (snd run ≫= fst))
  = Some (model.DataRSSItems [feedItem "https://a.example/1" "https://a.example/1" "Blog"]) /\
  exists c', rss.cache (fst (fst run)) = Some c' /\
             snd (rss.filterNewItems (fun s => s) c' [second] "t1") = [].
Proof.
  intros run second. split; [by vm_compute|].
  destruct (rss_items_beyond_limit_are_lost (fun s => s) serving (fun body => inl (post body))
              (fun _ => inr noFeed) (fun s => s) (fun s => s)
              {| rss.cache := Some emptyCache |} tt None twoFeeds emptyCache eq_refl eq_refl)
    as (c' & Hc' & Hlost); [by vm_compute|].
  exists c'. split; [exact Hc'|].
  apply (Hlost second). vm_compute. by repeat constructor.
Defined.

End RssFacts.

(** ** Every run *)

Module RunFacts.
Import storage scheduler RunnerFacts.

Definition knownTypes : list string :=
  ["scraper"; "rss"; "ai_processor"; "ai"; "discord"; "filter"].

(** A step that completed and handed data on. *)
Definition handedOn (s : model.StepResult) : Prop :=
  model.Status s = "completed" /\
  model.Error_ s = None /\
  exists n md, model.Output_ s = model.OutputSummary n md.

(** How the loop ended, by the entries [tail] that follow the steps that
    handed data on: with no further entry after the last step of the
    pipeline; with a [skipped] entry or a [completed] entry that says "No
    new items found", and no error; or with a [failed] entry and the
    error "step <i> (<type>) failed: <message>", where the message is the
    one of the entry and [i] is the 1-based position of the step. *)
Definition ended (position : nat) (unreached : nat) (tail : model.StepResults)
    (err : option error) : Prop :=
  match tail, err with
  | [], None => unreached = 0
  | [s], None =>
      (model.Status s = "skipped" /\ is_Some (model.Error_ s)
       /\ model.Output_ s = model.OutputNone) \/
      (model.Status s = "completed" /\ model.Error_ s = None
       /\ model.Output_ s = model.OutputText "No new items found")
  | [s], Some e =>
      model.Status s = "failed" /\ model.Output_ s = model.OutputNone /\
      exists msg, model.Error_ s = Some msg /\
        Error e = "step " +:+ Itoa (position + 1) +:+ " (" +:+ model.StepType s
                  +:+ ") failed: " +:+ msg
  | _, _ => False
  end.

Section Shape.

Context {E : Type}.
Variable time_Now : E -> Time.
Variable X : @Executors E.

Lemma loop_shape task id steps : forall r i rs cur,
  let res := executePipeline_loop time_Now X r task id i steps rs cur in
  taskRepo (fst res) = taskRepo r /\
  exists mid tail,
    fst (snd res) = rs ++ mid ++ tail /\
    Forall handedOn mid /\
    model.StepType <$> (mid ++ tail)
    = take (length (mid ++ tail)) (model.Type_ <$> steps) /\
    Forall (fun s => is_Some (model.FinishedAt s)) (mid ++ tail) /\
    ended (i + length mid) (length steps - length mid) tail (snd (snd res)).
Proof.
  induction steps as [|step rest IH]; intros r i rs cur; simpl.
  - split; [done|]. exists [], []. by rewrite app_nil_r.
  - destruct (executeStep X (env r) step (injected task step) cur)
      as [e [result [err|]]] eqn:Hx.
    + destruct (isSkipPipelineError err) eqn:Hs.
      * rewrite (body_skip _ _ _ _ _ _ _ _ _ _ _ _ Hx Hs). simpl. split; [done|].
        eexists [], [_]. simpl. repeat split; eauto.
      * rewrite (body_failed _ _ _ _ _ _ _ _ _ _ _ _ Hx Hs). simpl. split; [done|].
        eexists [], [_]. simpl. repeat split; eauto.
        eexists. split; [done|]. rewrite Nat.add_0_r.
        by rewrite !GoFacts.append_assoc.
    + destruct (filter.SkipEmpty result) eqn:Hs.
      * rewrite (body_empty _ _ _ _ _ _ _ _ _ _ _ Hx Hs). simpl. split; [done|].
        eexists [], [_]. simpl. repeat split; eauto.
      * destruct (body_completed time_Now _ _ task id i _ rs _ _ _ Hx Hs) as (res & -> & ->).
        match goal with
        | |- context [executePipeline_loop _ _ ?r1 _ _ _ _ ?rs1 ?cur1] =>
            destruct (IH r1 (S i) rs1 cur1) as (Ht & mid & tail & Hrs & Hmid & Hty & Hfin & Hend)
        end.
        split; [by rewrite Ht|].
        eexists (_ :: mid), tail. rewrite Hrs, <- app_assoc. simpl.
        split; [done|]. split.
        { constructor; [|done]. split; [done|]. split; [done|]. by eexists _, _. }
        split; [f_equal; exact Hty|]. split; [constructor; eauto|].
        by replace (i + S (length mid)) with (S i + length mid) by lia.
Qed.

Lemma executePipeline_taskRepo r task id :
  taskRepo (fst (executePipeline time_Now X r task id)) = taskRepo r.
Proof. unfold executePipeline. apply loop_shape. Qed.

End Shape.

Lemma updateTask_ok r id f :
  task_faults r = [] ->
  updateTask r id f = ({| tasks := alter f id (tasks r); task_faults := [] |}, None).
Proof. intros H. unfold updateTask. by rewrite H. Qed.

Lemma executeStep_unknown {E : Type} (X : @Executors E) e step config input :
  model.Type_ step ∉ knownTypes ->
  executeStep X e step config input
  = (e, (None, Some (errorString ("unknown step type: " +:+ model.Type_ step)))).
Proof.
  intros H. unfold executeStep.
  assert (Hne : forall t, t ∈ knownTypes -> model.Type_ step <> t) by (by intros t Ht <-).
  cbv zeta.
  rewrite !bool_decide_false by (apply Hne; unfold knownTypes; set_solver). done.
Qed.

Lemma validateStep_known step :
  validateStep step = None -> model.Type_ step ∈ knownTypes.
Proof.
  intros Hv. destruct (decide (model.Type_ step ∈ knownTypes)) as [|Hn]; [done|].
  by rewrite (ValidatorFacts.validateStep_unknown step Hn) in Hv.
Qed.

Lemma entries_nil_inv pipeline : forall i,
  omap id (imap (fun j => ValidatorFacts.stepEntry (i + j)) pipeline) = [] ->
  Forall (fun step => validateStep step = None) pipeline.
Proof.
  induction pipeline as [|step rest IH]; intros i H; [done|].
  simpl in H. unfold ValidatorFacts.stepEntry at 1 in H.
  destruct (validateStep step) as [err|] eqn:Hv; [done|]. simpl in H.
  constructor; [done|]. apply (IH (S i)).
  rewrite <- H. f_equal. apply imap_ext. intros j x _. simpl. f_equal. lia.
Qed.

Lemma ValidatePipeline_nil_inv pipeline :
  ValidatePipeline pipeline = [] -> Forall (fun step => validateStep step = None) pipeline.
Proof.
  unfold ValidatePipeline. rewrite ValidatorFacts.ValidatePipeline_loop_spec.
  rewrite app_nil_l. apply entries_nil_inv.
Qed.

(** X20: the step results of any run, whatever the executors do.  The
    entries are for the first steps of the pipeline, in order, one per
    step that was run, each with its finishing time; none is left at
    [running].  All entries but the last are [completed] with an item
    count.  The run ends after the last step of the pipeline, or at a
    step whose entry is [skipped], or [completed] with "No new items
    found" (both without error), or [failed] with the error "step <i>
    (<type>) failed: <message>".  The pipeline never writes to the tasks
    table. *)
Theorem step_results_shape {E : Type} (time_Now : E -> Time) (X : @Executors E)
    (r : @PipelineRunner E) task id :
  let res := executePipeline time_Now X r task id in
  let results := fst (snd res) in
  taskRepo (fst res) = taskRepo r /\
  exists before tail,
    results = before ++ tail /\
    Forall handedOn before /\
    model.StepType <$> results
    = take (length results) (model.Type_ <$> model.Pipeline task) /\
    length results <= length (model.Pipeline task) /\
    Forall (fun s => is_Some (model.FinishedAt s) /\ model.Status s <> "running") results /\
    ended (length before) (length (model.Pipeline task) - length before) tail (snd (snd res)).
Proof.
  intros res results. subst results res. unfold executePipeline.
  destruct (loop_shape time_Now X task id (model.Pipeline task) r 0 [] None)
    as (Ht & mid & tail & Hrs & Hmid & Hty & Hfin & Hend).
  split; [done|]. exists mid, tail. simpl in Hrs, Hend. rewrite Hrs.
  split; [done|]. split; [done|]. split; [done|]. split; [|split; [|done]].
  - apply (f_equal length) in Hty. rewrite length_fmap, length_take, length_fmap in Hty. lia.
  - apply Forall_forall. intros s Hs. split.
    + by apply (proj1 (Forall_forall _ _) Hfin).
    + apply elem_of_app in Hs as [Hs|Hs].
      * apply (proj1 (Forall_forall _ _) Hmid) in Hs as [-> _]. done.
      * unfold ended in Hend. destruct tail as [|s' [|]]; [by apply elem_of_nil in Hs| |].
        -- apply list_elem_of_singleton in Hs as ->.
           destruct (snd (snd _)) as [e|].
           ++ destruct Hend as [-> _]. done.
           ++ destruct Hend as [[-> _]|[-> _]]; done.
        -- done.
Qed.

(** X21: the step types that validation and execution know are the same.
    A step of any other type is rejected by the validation and fails
    when it is executed, both with "unknown step type: <type>", and
    executing it calls no executor; so every step of a pipeline that
    [ValidatePipeline] has no complaint about is of a type that
    [executeStep] dispatches to an executor. *)
Theorem step_types_agree {E : Type} (X : @Executors E) :
  (forall e step config input,
     model.Type_ step ∉ knownTypes ->
     validateStep step = Some (errorString ("unknown step type: " +:+ model.Type_ step)) /\
     executeStep X e step config input
     = (e, (None, Some (errorString ("unknown step type: " +:+ model.Type_ step))))) /\
  (forall pipeline,
     ValidatePipeline pipeline = [] ->
     Forall (fun step => model.Type_ step ∈ knownTypes) pipeline).
Proof.
  split.
  - intros e step config input Hn. split.
    + by apply ValidatorFacts.validateStep_unknown.
    + exact (executeStep_unknown X e step config input Hn).
  - intros pipeline Hv. eapply Forall_impl; [by apply ValidatePipeline_nil_inv|].
    intros step. apply validateStep_known.
Qed.

(** X22: the skip signal.  In a run whose steps [pre] all handed data on,
    let the next step return [filter.SkipPipelineError] itself (not
    wrapped).  Then the run ends there without error: the entry of the
    step is [skipped], with the message "pipeline skipped: <reason>", no
    later step is run, the step results are not written before the
    execution is closed, and [Run] closes it with [Complete]; with no
    database fault pending the stored execution is [completed]. *)
Theorem skip_signal_completes_run {E : Type} (time_Now : E -> Time) (X : @Executors E)
    (r : @PipelineRunner E) task triggeredBy xr execution pre step post r1 rs1 cur1 e2
    result reason :
  Create (execRepo r) (time_Now (env r)) (model.ID task) (model.TaskName_ task) triggeredBy
  = (xr, inl execution) ->
  model.Pipeline task = pre ++ step :: post ->
  advance time_Now X (started time_Now r xr task) task (model.ExecID execution) 0 pre [] None
  = Some (r1, rs1, cur1) ->
  executeStep X (env r1) step (injected task step) cur1
  = (e2, (result, Some (SkipPipelineError reason))) ->
  let last := entry (time_Now (env r1)) (time_Now e2) (length pre) step "skipped"
                    model.OutputNone (Some ("pipeline skipped: " +:+ reason)) in
  exists r' stored,
    Run time_Now X r task triggeredBy = (r', (stored, None)) /\
    env r' = e2 /\
    journal (execRepo r')
    = journal (execRepo r1) ++ [CallComplete (model.ExecID execution) (rs1 ++ [last])] /\
    (exec_faults (execRepo r) = [] ->
     exists row, stored = Some row /\
       model.ExecStatus row = model.ExecutionStatusCompleted /\
       model.ExecError row = None /\
       model.StepResults_ row = rs1 ++ [last]).
Proof.
  intros Hc Hp Ha Hx last.
  destruct (advance_spec _ _ _ _ _ _ _ _ _ _ _ _ Ha)
    as (new & Hnew & Hlen & Hall & _ & Hopen & Hfs). simpl in Hnew. subst rs1.
  assert (Hrun : executePipeline time_Now X (started time_Now r xr task) task
                   (model.ExecID execution) = (withEnv r1 e2, (new ++ [last], None))).
  { unfold executePipeline. rewrite Hp, (loop_advance _ _ _ _ _ _ _ _ _ _ _ _ _ Ha). simpl.
    by rewrite (body_skip _ _ _ _ _ _ _ _ _ _ _ _ Hx eq_refl). }
  destruct (Run_outcome _ _ _ _ _ _ _ _ _ _ Hc Hrun) as (r' & stored & HR & He & Hj & Hrow).
  exists r', stored. repeat split; try done.
  intros Hf. destruct (Create_inl _ _ _ _ _ _ _ Hc) as (_ & Ho & _ & Hf').
  rewrite Hf in Hf'. simpl in Hf'.
  destruct Hrow as (row & ? & ? & ? & ? & ?); [by apply Hfs|by apply Hopen|].
  exists row. by repeat split.
Qed.

(** The filter gives the skip signal. *)
Definition skipping : @Executors nat :=
  {| aiExecutor := aiExecutor stubs;
     scraperExec := scraperExec stubs;
     rssExec := rssExec stubs;
     discordExec := discordExec stubs;
     filterExec := fun e _ _ => (S e, (None, Some (filter.NewSkipPipelineError "quiet hours")));
     discordRepo := None |}.

Lemma skip_signal_completes_run_witness :
  exists r' stored,
    Run clock skipping fresh quiet "schedule" = (r', (stored, None)) /\
    env r' = 2 /\
    (model.ExecStatus <$> stored) = Some model.ExecutionStatusCompleted /\
    (fun row => (fun s => (model.StepType s, model.Status s, model.Error_ s))
                  <$> model.StepResults_ row) <$> stored
    = Some [("scraper", "completed", None);
            ("filter", "skipped", Some "pipeline skipped: quiet hours")].
Proof.
  edestruct (skip_signal_completes_run clock skipping fresh quiet "schedule")
    with (pre := [stepOf "scraper"]) (step := stepOf "filter") (post := [stepOf "discord"])
    as (r' & stored & HR & He & _ & Hrow).
  - vm_compute. reflexivity.
  - reflexivity.
  - vm_compute. reflexivity.
  - vm_compute. reflexivity.
  - destruct (Hrow eq_refl) as (row & -> & Hs & Herr & Hrs).
    exists r', (Some row). simpl. rewrite Hs, Hrs. by repeat split.
Defined.

(** X23: what a run does to the task.  When the execution record cannot
    be created, [Run] returns "failed to create execution record: ..."
    and has called no executor and changed neither table.  Otherwise,
    with no fault pending on the tasks table, the task is left [enabled]
    whatever its status was before (disabled included) and whether or not
    the run failed; its last run is the end of the run; its schedule,
    pipeline and next run are as before; no other task is touched. *)
Theorem Run_leaves_task_enabled {E : Type} (time_Now : E -> Time) (X : @Executors E)
    (r : @PipelineRunner E) task triggeredBy row :
  task_faults (taskRepo r) = [] ->
  tasks (taskRepo r) !! model.ID task = Some row ->
  let after := Run time_Now X r task triggeredBy in
  match snd (Create (execRepo r) (time_Now (env r)) (model.ID task) (model.TaskName_ task)
                    triggeredBy) with
  | inr err =>
      snd after = (None, Some (Errorf_w "failed to create execution record: " err)) /\
      taskRepo (fst after) = taskRepo r /\
      env (fst after) = env r /\
      executions (execRepo (fst after)) = executions (execRepo r)
  | inl _ =>
      (exists row',
         tasks (taskRepo (fst after)) !! model.ID task = Some row' /\
         model.TaskStatus_ row' = model.TaskStatusEnabled /\
         model.LastRunAt row' = Some (time_Now (env (fst after))) /\
         model.Schedule row' = model.Schedule row /\
         model.Pipeline row' = model.Pipeline row /\
         model.NextRunAt row' = model.NextRunAt row) /\
      (forall id, id <> model.ID task ->
         tasks (taskRepo (fst after)) !! id = tasks (taskRepo r) !! id)
  end.
Proof.
  intros Hf Hrow after. subst after. unfold Run.
  destruct (Create (execRepo r) _ _ _ _) as [xr [execution|err]] eqn:Hc; simpl.
  - unfold UpdateStatus, UpdateLastRunOnly. rewrite (updateTask_ok (taskRepo r) _ _ Hf).
    match goal with
    | |- context [executePipeline time_Now X ?r0 task ?id] =>
        pose proof (executePipeline_taskRepo time_Now X r0 task id) as Ht;
          destruct (executePipeline time_Now X r0 task id) as [r1 [rs finalErr]]
    end.
    simpl in Ht.
    destruct (match finalErr with Some _ => _ | None => _ end) as [xr2 e2].
    rewrite (updateTask_ok (taskRepo r1)) by (by rewrite Ht).
    rewrite updateTask_ok by done.
    destruct (FindByID xr2 _) as [xr3 [stored e5]]. simpl. rewrite Ht. simpl. split.
    + eexists. rewrite !lookup_alter_eq, Hrow. simpl. by repeat split.
    + intros id Hne. by rewrite !lookup_alter_ne by done.
  - apply Create_inr in Hc as [_ Hx]. by destruct r.
Qed.

(** A task that is disabled. *)
Definition dormant : @PipelineRunner nat :=
  {| taskRepo :=
       {| tasks := {[ "t4" := taskOf "t4" model.TaskStatusDisabled
                                [stepOf "scraper"; stepOf "discord"] ]};
          task_faults := [] |};
     execRepo := execRepo fresh;
     env := 0 |}.

(** Running it by hand leaves it enabled. *)
Lemma Run_leaves_task_enabled_witness :
  let task := taskOf "t4" model.TaskStatusDisabled [stepOf "scraper"; stepOf "discord"] in
  exists row',
    tasks (taskRepo (fst (Run clock stubs dormant task "u1"))) !! "t4" = Some row' /\
    model.TaskStatus_ row' = model.TaskStatusEnabled /\
    model.LastRunAt row' = Some 2%Z.
Proof.
  intros task.
  destruct (Run_leaves_task_enabled clock stubs dormant task "u1" task eq_refl eq_refl)
    as [(row' & Hrow & Hst & Hlast & _) _].
  exists row'. split; [exact Hrow|]. split; [exact Hst|]. exact Hlast.
Defined.

End RunFacts.

(** ** The entries of the cron and the entry map *)

Module ScheduleFacts.
Import storage scheduler SchedulerFacts.

Lemma same_id_same_entry (l : list Entry) e1 e2 :
  NoDup (EntryID <$> l) -> e1 ∈ l -> e2 ∈ l -> EntryID e1 = EntryID e2 -> e1 = e2.
Proof.
  induction l as [|e l IH]; intros Hnd H1 H2 Heq; [by apply elem_of_nil in H1|].
  rewrite fmap_cons in Hnd. apply NoDup_cons in Hnd as [Hnotin Hnd].
  apply elem_of_cons in H1 as [->|H1]; apply elem_of_cons in H2 as [->|H2]; auto.
  - exfalso. apply Hnotin. apply list_elem_of_fmap. exists e2. split; [congruence|done].
  - exfalso. apply Hnotin. apply list_elem_of_fmap. exists e1. split; [congruence|done].
Qed.

Lemma elem_of_filter {A} (f : A -> bool) (l : list A) x :
  x ∈ List.filter f l <-> x ∈ l /\ f x = true.
Proof. by rewrite !list_elem_of_In, List.filter_In. Qed.

Lemma filter_nil {A} (f : A -> bool) (l : list A) :
  (forall x, x ∈ l -> f x = false) -> List.filter f l = [].
Proof.
  induction l as [|x l IH]; intros H; simpl; [done|].
  rewrite (H x) by by left. apply IH. intros y Hy. apply H. by right.
Qed.

Section Entries.

Context {E : Type}.
Variable time_Now : E -> Time.
Variable cronParse : string -> option error.
Variable scheduleNext : string -> Time -> option Time.

(** The entries of the cron that fire for a task. *)
Definition jobs (s : @Scheduler E) (taskID : string) : list Entry :=
  List.filter (fun e => bool_decide (Job e = taskID)) (entries (cron s)).

(** The entry map and the cron agree: the ids of the entries are distinct
    and not above the last id handed out, every entry is the one that the
    map names for its task, and every binding of the map names an entry
    of its task. *)
Definition consistent (s : @Scheduler E) : Prop :=
  NoDup (EntryID <$> entries (cron s)) /\
  (forall e, e ∈ entries (cron s) ->
     EntryID e <= nextID (cron s) /\ entryMap s !! Job e = Some (EntryID e)) /\
  (forall taskID id, entryMap s !! taskID = Some id ->
     exists e, e ∈ entries (cron s) /\ Job e = taskID /\ EntryID e = id).

(** The entry that [scheduleTask] adds for a task. *)
Definition entryFor (s : @Scheduler E) (task : model.Task) : Entry :=
  {| EntryID := S (nextID (cron s)); Spec := normalized (model.Schedule task);
     Job := model.ID task |}.

Lemma scheduleTask_accepted (s : @Scheduler E) task :
  model.TaskStatus_ task = model.TaskStatusEnabled ->
  cronParse (normalized (model.Schedule task)) = None ->
  exists rn,
    scheduleTask time_Now cronParse scheduleNext s task
    = ({| cron := {| entries := entries (cron s) ++ [entryFor s task];
                     nextID := S (nextID (cron s)); started := started (cron s) |};
          runner := rn;
          entryMap := <[model.ID task := S (nextID (cron s))]> (entryMap s);
          running := running s |}, None) /\
    (started (cron s) = false -> rn = runner s).
Proof.
  intros Hen Hp. rewrite (scheduleTask_enabled _ _ _ _ _ Hen). unfold AddFunc. rewrite Hp.
  cbv zeta. eexists. split; [reflexivity|]. intros Hst.
  unfold EntryNext. simpl. rewrite Hst. by destruct (List.find _ _).
Qed.

Lemma scheduleTask_rejected (s : @Scheduler E) task err :
  model.TaskStatus_ task = model.TaskStatusEnabled ->
  cronParse (normalized (model.Schedule task)) = Some err ->
  fst (scheduleTask time_Now cronParse scheduleNext s task) = s.
Proof.
  intros Hen Hp. rewrite (scheduleTask_enabled _ _ _ _ _ Hen). unfold AddFunc. by rewrite Hp.
Qed.

(** Whatever [scheduleTask] does, the entries that were there stay. *)
Lemma scheduleTask_entries (s : @Scheduler E) task :
  let s' := fst (scheduleTask time_Now cronParse scheduleNext s task) in
  (entries (cron s') = entries (cron s)
   \/ (model.TaskStatus_ task = model.TaskStatusEnabled /\
       cronParse (normalized (model.Schedule task)) = None /\
       entries (cron s') = entries (cron s) ++ [entryFor s task])) /\
  started (cron s') = started (cron s) /\
  running s' = running s /\
  (started (cron s) = false -> runner s' = runner s).
Proof.
  destruct (decide (model.TaskStatus_ task = model.TaskStatusEnabled)) as [Hen|Hen].
  - destruct (cronParse (normalized (model.Schedule task))) as [err|] eqn:Hp.
    + simpl. rewrite (scheduleTask_rejected _ _ _ Hen Hp). auto.
    + destruct (scheduleTask_accepted s task Hen Hp) as (rn & -> & Hrn). simpl.
      split; [right; auto|]. auto.
  - simpl. rewrite (scheduleTask_disabled _ _ _ _ _ Hen). simpl. auto.
Qed.

Lemma RemoveTask_facts (s : @Scheduler E) taskID :
  consistent s ->
  consistent (RemoveTask s taskID) /\
  entryMap (RemoveTask s taskID) !! taskID = None /\
  jobs (RemoveTask s taskID) taskID = [].
Proof.
  intros (Hnd & Hent & Hmap). unfold RemoveTask.
  destruct (entryMap s !! taskID) as [id|] eqn:Hid.
  - assert (Hkeep : forall e, e ∈ entries (cron s) -> EntryID e <> id -> Job e <> taskID).
    { intros e He Hne Hj. destruct (Hent e He) as [_ Hm]. rewrite Hj, Hid in Hm. congruence. }
    split; [|split].
    + split; [|split]; simpl.
      * eapply sublist_NoDup; [exact Hnd|]. apply fmap_sublist, FilterFacts.filter_sublist.
      * intros e [He Hne]%elem_of_filter.
        apply negb_true_iff, bool_decide_eq_false in Hne.
        destruct (Hent e He) as [Hle Hm]. split; [done|].
        rewrite lookup_delete_ne; [done|]. intros Hj. by apply (Hkeep e He Hne).
      * intros t id' Ht. destruct (decide (t = taskID)) as [->|Hne];
          [by rewrite lookup_delete_eq in Ht|].
        rewrite lookup_delete_ne in Ht by done.
        destruct (Hmap t id' Ht) as (e & He & Hj & Hi). exists e. split; [|done].
        apply elem_of_filter. split; [done|].
        apply negb_true_iff, bool_decide_eq_false. intros Heq.
        destruct (Hmap taskID id Hid) as (e0 & He0 & Hj0 & Hi0).
        assert (e = e0) by (apply (same_id_same_entry _ _ _ Hnd He He0); congruence).
        congruence.
    + simpl. apply lookup_delete_eq.
    + unfold jobs. simpl. apply filter_nil. intros e [He Hne]%elem_of_filter.
      apply negb_true_iff, bool_decide_eq_false in Hne.
      apply bool_decide_eq_false. by apply Hkeep.
  - split; [done|]. split; [done|].
    unfold jobs. apply filter_nil. intros e He. apply bool_decide_eq_false. intros Hj.
    destruct (Hent e He) as [_ Hm]. rewrite Hj, Hid in Hm. done.
Qed.

Lemma scheduleTask_consistent (s : @Scheduler E) task :
  consistent s ->
  entryMap s !! model.ID task = None ->
  consistent (fst (scheduleTask time_Now cronParse scheduleNext s task)).
Proof.
  intros Hc Hnone.
  destruct (decide (model.TaskStatus_ task = model.TaskStatusEnabled)) as [Hen|Hen];
    [|by rewrite (scheduleTask_disabled _ _ _ _ _ Hen)].
  destruct (cronParse (normalized (model.Schedule task))) as [err|] eqn:Hp;
    [by rewrite (scheduleTask_rejected _ _ _ Hen Hp)|].
  destruct (scheduleTask_accepted s task Hen Hp) as (rn & -> & _).
  destruct Hc as (Hnd & Hent & Hmap). split; [|split]; simpl.
  - rewrite fmap_app. apply NoDup_app. split; [done|]. split; [|apply NoDup_singleton].
    simpl. intros id (e & -> & He)%list_elem_of_fmap Hs%list_elem_of_singleton.
    destruct (Hent e He) as [Hle _]. lia.
  - intros e [He|He]%elem_of_app; [|apply list_elem_of_singleton in He as ->].
    + destruct (Hent e He) as [Hle Hm]. split; [lia|].
      rewrite lookup_insert_ne; [done|]. intros Hj. rewrite <- Hj, Hnone in Hm. done.
    + simpl. split; [lia|]. apply lookup_insert_eq.
  - intros t id Ht. destruct (decide (t = model.ID task)) as [->|Hne].
    + rewrite lookup_insert_eq in Ht. injection Ht as <-.
      exists (entryFor s task). split; [|done]. apply elem_of_app. right.
      by apply list_elem_of_singleton.
    + rewrite lookup_insert_ne in Ht by done.
      destruct (Hmap t id Ht) as (e & He & Hj & Hi). exists e. split; [|done].
      apply elem_of_app. by left.
Qed.

Lemma UpdateTask_consistent (s : @Scheduler E) task :
  consistent s -> consistent (fst (UpdateTask time_Now cronParse scheduleNext s task)).
Proof.
  intros Hc. unfold UpdateTask.
  destruct (RemoveTask_facts s (model.ID task) Hc) as (Hc' & Hnone & _).
  case_bool_decide; [|done]. by apply scheduleTask_consistent.
Qed.

Lemma consistent_empty (s : @Scheduler E) :
  entries (cron s) = [] -> entryMap s = ∅ -> consistent s.
Proof.
  intros He Hm. unfold consistent. rewrite He, Hm. split; [constructor|]. split.
  - by intros e ?%elem_of_nil.
  - intros t id Ht. by rewrite lookup_empty in Ht.
Qed.

End Entries.

(** X24: the entry map and the cron stay in step.  Call a scheduler
    consistent when every cron entry is the one the entry map names for
    its task and every binding of the map names an entry of its task
    (so a task has at most one entry).  A scheduler without entries is
    consistent, and [RemoveTask], [UpdateTask], and [AddTask] of a task
    that is not scheduled, keep it so.  After [RemoveTask] the task has
    no entry left; after [UpdateTask] of an enabled task with a schedule
    that parses it has exactly one, with the normalized schedule. *)
Theorem schedule_stays_consistent {E : Type} (time_Now : E -> Time)
    (cronParse : string -> option error) (scheduleNext : string -> Time -> option Time)
    (s : @Scheduler E) :
  consistent s ->
  (forall taskID,
     consistent (RemoveTask s taskID) /\
     entryMap (RemoveTask s taskID) !! taskID = None /\
     jobs (RemoveTask s taskID) taskID = []) /\
  (forall task,
     consistent (fst (UpdateTask time_Now cronParse scheduleNext s task)) /\
     (model.TaskStatus_ task = model.TaskStatusEnabled ->
      cronParse (normalized (model.Schedule task)) = None ->
      exists id,
        jobs (fst (UpdateTask time_Now cronParse scheduleNext s task)) (model.ID task)
        = [{| EntryID := id; Spec := normalized (model.Schedule task);
              Job := model.ID task |}] /\
        entryMap (fst (UpdateTask time_Now cronParse scheduleNext s task)) !! model.ID task
        = Some id)) /\
  (forall task,
     entryMap s !! model.ID task = None ->
     consistent (fst (AddTask time_Now cronParse scheduleNext s task))).
Proof.
  intros Hc. split; [intros; by apply RemoveTask_facts|]. split.
  - intros task. split; [by apply UpdateTask_consistent|]. intros Hen Hp.
    unfold UpdateTask. rewrite bool_decide_true by done.
    destruct (RemoveTask_facts s (model.ID task) Hc) as (_ & _ & Hjobs).
    destruct (scheduleTask_accepted time_Now cronParse scheduleNext
                (RemoveTask s (model.ID task)) task Hen Hp) as (rn & -> & _).
    eexists. unfold jobs in *. simpl. rewrite List.filter_app, Hjobs. simpl.
    rewrite bool_decide_true by done. split; [reflexivity|]. apply lookup_insert_eq.
  - intros task Hnone. by apply scheduleTask_consistent.
Qed.

(** One task on the idle scheduler, then removed. *)
Lemma schedule_stays_consistent_witness :
  let s := fst (scheduleTask RunnerFacts.clock sixFields (fun _ _ => None) idle everyFive) in
  jobs s "t3" = [{| EntryID := 1; Spec := "0 */5 * * * *"; Job := "t3" |}] /\
  jobs (RemoveTask s "t3") "t3" = [].
Proof.
  intros s. split; [reflexivity|].
  assert (Hc : consistent s).
  { apply scheduleTask_consistent; [by apply consistent_empty|reflexivity]. }
  exact (proj2 (proj2 (proj1 (schedule_stays_consistent RunnerFacts.clock sixFields
                                (fun _ _ => None) s Hc) "t3"))).
Defined.

(** X25: [AddTask] of a task that is scheduled already.  The cron gets a
    second entry for the task and the entry map forgets the first.
    [RemoveTask] then removes the second entry only: the first stays in
    the cron, where it goes on firing, and neither [RemoveTask] nor
    [UpdateTask] can reach it any more. *)
Theorem AddTask_twice_leaves_orphan {E : Type} (time_Now : E -> Time)
    (cronParse : string -> option error) (scheduleNext : string -> Time -> option Time)
    (s : @Scheduler E) task old :
  consistent s ->
  model.TaskStatus_ task = model.TaskStatusEnabled ->
  cronParse (normalized (model.Schedule task)) = None ->
  entryMap s !! model.ID task = Some old ->
  let s1 := fst (AddTask time_Now cronParse scheduleNext s task) in
  let s2 := RemoveTask s1 (model.ID task) in
  length (jobs s1 (model.ID task)) = 2 /\
  length (jobs s2 (model.ID task)) = 1 /\
  entryMap s2 !! model.ID task = None /\
  RemoveTask s2 (model.ID task) = s2 /\
  forall task',
    model.ID task' = model.ID task ->
    exists e, e ∈ entries (cron (fst (UpdateTask time_Now cronParse scheduleNext s2 task'))) /\
              Job e = model.ID task /\ EntryID e = old.
Proof.
  intros (Hnd & Hent & Hmap) Hen Hp Hold s1 s2.
  destruct (Hmap _ _ Hold) as (e0 & He0 & Hj0 & Hi0).
  assert (Hone : jobs s (model.ID task) = [e0]).
  { unfold jobs. clear Hmap. revert Hnd Hent He0.
    generalize (entries (cron s)). intros l Hnd Hent He0.
    assert (Hall : forall e, e ∈ l -> Job e = model.ID task -> e = e0).
    { intros e He Hj. apply (same_id_same_entry l); auto.
      destruct (Hent e He) as [_ Hm]. rewrite Hj, Hold in Hm. congruence. }
    clear Hent. induction l as [|e l IH]; [by apply elem_of_nil in He0|].
    rewrite fmap_cons in Hnd. apply NoDup_cons in Hnd as [Hnotin Hnd]. simpl.
    apply elem_of_cons in He0 as [<-|He0].
    - rewrite bool_decide_true by done. f_equal. apply filter_nil.
      intros e Hin. apply bool_decide_eq_false. intros Hj.
      assert (e = e0) as -> by (apply Hall; [by right|done]).
      apply Hnotin. by apply list_elem_of_fmap_2.
    - rewrite bool_decide_false.
      + apply IH; auto. intros e' He' Hj'. apply Hall; [by right|done].
      + intros Hj. assert (e = e0) as -> by (apply Hall; [by left|done]).
        apply Hnotin. by apply list_elem_of_fmap_2. }
  assert (Hle : old <= nextID (cron s)) by (destruct (Hent e0 He0) as [? _]; lia).
  destruct (scheduleTask_accepted time_Now cronParse scheduleNext s task Hen Hp)
    as (rn & Hadd & _).
  assert (Hleft : List.filter (fun e => negb (bool_decide (EntryID e = S (nextID (cron s)))))
                    (entries (cron s) ++ [entryFor s task]) = entries (cron s)).
  { rewrite List.filter_app. simpl. rewrite bool_decide_true by done. simpl.
    rewrite app_nil_r. clear He0 Hone. revert Hent. generalize (entries (cron s)).
    intros l Hent. induction l as [|e l IH]; [done|]. simpl.
    destruct (Hent e) as [Hle' _]; [by left|].
    rewrite bool_decide_false by lia. simpl. f_equal. apply IH.
    intros e' He'. apply Hent. by right. }
  assert (Hs1 : s1 = {| cron := {| entries := entries (cron s) ++ [entryFor s task];
                                   nextID := S (nextID (cron s));
                                   started := started (cron s) |};
                        runner := rn;
                        entryMap := <[model.ID task := S (nextID (cron s))]> (entryMap s);
                        running := running s |}).
  { subst s1. unfold AddTask. by rewrite Hadd. }
  assert (Hs2 : s2 = {| cron := {| entries := entries (cron s);
                                   nextID := S (nextID (cron s));
                                   started := started (cron s) |};
                        runner := rn;
                        entryMap := delete (model.ID task)
                                      (<[model.ID task := S (nextID (cron s))]> (entryMap s));
                        running := running s |}).
  { subst s2. rewrite Hs1. unfold RemoveTask, Remove. cbn [entryMap cron entries nextID started].
    rewrite lookup_insert_eq. by rewrite Hleft. }
  clearbody s2 s1. subst s1 s2. clear Hadd.
  split.
  { unfold jobs. cbn [cron entries]. rewrite List.filter_app.
    fold (jobs s (model.ID task)). rewrite Hone. simpl. by rewrite bool_decide_true. }
  split.
  { unfold jobs. cbn [cron entries]. fold (jobs s (model.ID task)). by rewrite Hone. }
  split; [apply lookup_delete_eq|]. split.
  { unfold RemoveTask. cbn [entryMap]. by rewrite lookup_delete_eq. }
  intros task' Hid. exists e0. split; [|done].
  unfold UpdateTask, RemoveTask. rewrite Hid. cbn [entryMap]. rewrite lookup_delete_eq.
  match goal with
  | |- context [scheduleTask _ _ _ ?s0 task'] =>
      destruct (scheduleTask_entries time_Now cronParse scheduleNext s0 task')
        as ([Hsame|(_ & _ & Hmore)] & _)
  end; case_bool_decide; cbn [fst cron entries] in *; rewrite ?Hsame, ?Hmore; try done.
  apply elem_of_app. by left.
Qed.

(** The task [t3] is added twice and removed once. *)
Lemma AddTask_twice_leaves_orphan_witness :
  let s := fst (AddTask RunnerFacts.clock sixFields (fun _ _ => None) idle everyFive) in
  let s1 := fst (AddTask RunnerFacts.clock sixFields (fun _ _ => None) s everyFive) in
  let s2 := RemoveTask s1 "t3" in
  length (jobs s1 "t3") = 2 /\ length (jobs s2 "t3") = 1 /\ entryMap s2 !! "t3" = None.
Proof.
  intros s s1 s2.
  assert (Hc : consistent s).
  { apply scheduleTask_consistent; [by apply consistent_empty|reflexivity]. }
  destruct (AddTask_twice_leaves_orphan RunnerFacts.clock sixFields (fun _ _ => None)
              s everyFive 1 Hc eq_refl eq_refl eq_refl) as (H1 & H2 & H3 & _).
  split; [exact H1|]. split; [exact H2|exact H3].
Defined.

Section Starting.

Context {E : Type}.
Variable time_Now : E -> Time.
Variable cronParse : string -> option error.
Variable scheduleNext : string -> Time -> option Time.

Definition schedulable (task : model.Task) : Prop :=
  model.TaskStatus_ task = model.TaskStatusEnabled /\
  cronParse (normalized (model.Schedule task)) = None.

Lemma scheduleTask_mapped (s : @Scheduler E) task taskID :
  is_Some (entryMap s !! taskID) ->
  is_Some (entryMap (fst (scheduleTask time_Now cronParse scheduleNext s task)) !! taskID).
Proof.
  intros Hs.
  destruct (decide (model.TaskStatus_ task = model.TaskStatusEnabled)) as [Hen|Hen];
    [|by rewrite (scheduleTask_disabled _ _ _ _ _ Hen)].
  destruct (cronParse (normalized (model.Schedule task))) as [err|] eqn:Hp;
    [by rewrite (scheduleTask_rejected _ _ _ _ _ _ Hen Hp)|].
  destruct (scheduleTask_accepted time_Now cronParse scheduleNext s task Hen Hp)
    as (rn & -> & _).
  simpl. destruct (decide (taskID = model.ID task)) as [->|Hne].
  - rewrite lookup_insert_eq. by eexists.
  - by rewrite lookup_insert_ne.
Qed.

Lemma jobs_prefix (s s' : @Scheduler E) taskID :
  entries (cron s) `prefix_of` entries (cron s') ->
  length (jobs s taskID) <= length (jobs s' taskID).
Proof.
  intros [k Hk]. unfold jobs. rewrite Hk, List.filter_app, length_app. lia.
Qed.

Lemma scheduleTask_prefix (s : @Scheduler E) task :
  entries (cron s)
    `prefix_of` entries (cron (fst (scheduleTask time_Now cronParse scheduleNext s task))).
Proof.
  destruct (scheduleTask_entries time_Now cronParse scheduleNext s task)
    as ([->|(_ & _ & ->)] & _); [done|by apply prefix_app_r].
Qed.

Lemma scheduleAll_facts l : forall s : @Scheduler E,
  let s' := scheduleAll time_Now cronParse scheduleNext s l in
  entries (cron s) `prefix_of` entries (cron s') /\
  started (cron s') = started (cron s) /\
  running s' = running s /\
  (started (cron s) = false -> runner s' = runner s) /\
  (forall taskID, is_Some (entryMap s !! taskID) -> is_Some (entryMap s' !! taskID)).
Proof.
  induction l as [|task rest IH]; intros s; simpl; [done|].
  destruct (scheduleTask_entries time_Now cronParse scheduleNext s task)
    as (_ & Hst & Hrun & Hrn).
  destruct (IH (fst (scheduleTask time_Now cronParse scheduleNext s task)))
    as (Hpre & Hst' & Hrun' & Hrn' & Hmap).
  split; [etrans; [apply scheduleTask_prefix|exact Hpre]|].
  split; [congruence|]. split; [congruence|]. split.
  - intros Hoff. rewrite Hrn' by congruence. by apply Hrn.
  - intros taskID Hs. by apply Hmap, scheduleTask_mapped.
Qed.

Lemma scheduleAll_adds l task : forall s : @Scheduler E,
  task ∈ l -> schedulable task ->
  let s' := scheduleAll time_Now cronParse scheduleNext s l in
  length (jobs s (model.ID task)) + 1 <= length (jobs s' (model.ID task)) /\
  is_Some (entryMap s' !! model.ID task).
Proof.
  induction l as [|head rest IH]; intros s Hin [Hen Hp]; [by apply elem_of_nil in Hin|].
  simpl. apply elem_of_cons in Hin as [<-|Hin].
  - destruct (scheduleAll_facts rest (fst (scheduleTask time_Now cronParse scheduleNext s task)))
      as (Hpre & _ & _ & _ & Hmap).
    destruct (scheduleTask_accepted time_Now cronParse scheduleNext s task Hen Hp)
      as (rn & Hadd & _).
    rewrite Hadd in *. cbn [fst] in *. split.
    + etrans; [|apply jobs_prefix, Hpre]. unfold jobs. cbn [cron entries].
      rewrite List.filter_app, length_app. simpl. rewrite bool_decide_true by done.
      simpl. lia.
    + apply Hmap. cbn [entryMap]. rewrite lookup_insert_eq. by eexists.
  - destruct (IH (fst (scheduleTask time_Now cronParse scheduleNext s head)) Hin
                (conj Hen Hp)) as [Hlen Hm].
    split; [|done]. etrans; [|exact Hlen]. apply Nat.add_le_mono_r.
    apply jobs_prefix, scheduleTask_prefix.
Qed.

Lemma FindEnabled_ok (r : TaskRepository) :
  task_faults r = [] ->
  FindEnabled r
  = (r, (List.filter (fun t => bool_decide (model.TaskStatus_ t = model.TaskStatusEnabled))
                     (snd <$> map_to_list (tasks r)), None)).
Proof. intros Hf. unfold FindEnabled. rewrite Hf. simpl. destruct r. simpl in *. by subst. Qed.

Lemma withTaskRepo_same (rn : @PipelineRunner E) : withTaskRepo rn (taskRepo rn) = rn.
Proof. by destruct rn. Qed.

End Starting.

(** X26: starting and stopping.  [Start] does nothing when the scheduler
    is running.  When the enabled tasks cannot be read it returns "failed
    to load tasks: ..." and the scheduler stays stopped, with its cron
    and entry map as they were.  Otherwise the scheduler runs, the cron
    is started, the entries that were there stay, and every enabled task
    whose schedule parses is in the entry map; the tasks were scheduled
    while the cron was not started, so no next run time is written: the
    tasks table is as before.  [Stop] stops the cron and keeps its
    entries and the entry map. *)
Theorem Start_spec {E : Type} (time_Now : E -> Time)
    (cronParse : string -> option error) (scheduleNext : string -> Time -> option Time)
    (s : @Scheduler E) :
  let start := Start time_Now cronParse scheduleNext in
  (running s = true -> start s = (s, None)) /\
  (running s = false ->
   match snd (FindEnabled (taskRepo (runner s))) with
   | (_, Some err) =>
       snd (start s) = Some (Errorf_w "failed to load tasks: " err) /\
       running (fst (start s)) = false /\
       cron (fst (start s)) = cron s /\
       entryMap (fst (start s)) = entryMap s
   | (enabled, None) =>
       snd (start s) = None /\
       running (fst (start s)) = true /\
       started (cron (fst (start s))) = true /\
       entries (cron s) `prefix_of` entries (cron (fst (start s))) /\
       (forall task, task ∈ enabled -> cronParse (normalized (model.Schedule task)) = None ->
          model.ID task ∈ GetScheduledTasks (fst (start s))) /\
       (started (cron s) = false ->
          tasks (taskRepo (runner (fst (start s)))) = tasks (taskRepo (runner s)))
   end) /\
  (running (Stop s) = false /\
   entries (cron (Stop s)) = entries (cron s) /\
   entryMap (Stop s) = entryMap s /\
   (running s = true -> started (cron (Stop s)) = false)).
Proof.
  intros start. subst start. split; [|split].
  - intros Hr. unfold Start. by rewrite Hr.
  - intros Hr. unfold Start. rewrite Hr.
    assert (Henabled : forall task, task ∈ fst (snd (FindEnabled (taskRepo (runner s)))) ->
              model.TaskStatus_ task = model.TaskStatusEnabled).
    { intros task. unfold FindEnabled.
      destruct (roundTrip _) as [[err|] fs]; simpl; [by intros ?%elem_of_nil|].
      intros [_ H]%elem_of_filter. by apply bool_decide_eq_true in H. }
    assert (Htasks : tasks (fst (FindEnabled (taskRepo (runner s)))) = tasks (taskRepo (runner s))).
    { unfold FindEnabled. by destruct (roundTrip _) as [[err|] fs]. }
    destruct (FindEnabled (taskRepo (runner s))) as [tr [enabled [err|]]]; cbn [fst snd] in *.
    + by repeat split.
    + match goal with
      | |- context [scheduleAll _ _ _ ?s0 enabled] =>
          pose proof (scheduleAll_facts time_Now cronParse scheduleNext enabled s0)
            as (Hpre & Hst & Hrun & Hrn & _);
            pose proof (fun task Hin Hs =>
                          proj2 (scheduleAll_adds time_Now cronParse scheduleNext enabled
                                                  task s0 Hin Hs)) as Hmapped;
            destruct (scheduleAll time_Now cronParse scheduleNext s0 enabled) as [c rn m b]
      end.
      cbn [fst snd cron runner entryMap running entries started] in *.
      repeat split; try done.
      * intros task Hin Hp. unfold GetScheduledTasks. cbn [entryMap].
        destruct (Hmapped task Hin (conj (Henabled task Hin) Hp)) as [id Hid].
        apply list_elem_of_fmap. exists (model.ID task, id). split; [done|].
        by apply elem_of_map_to_list.
      * intros Hoff. rewrite (Hrn Hoff). simpl. exact Htasks.
  - unfold Stop. destruct (running s) eqn:Hr; simpl; by repeat split.
Qed.

(** X27: stopping and starting again.  [Stop] keeps the entries of the
    cron, and [Start] schedules every enabled task anew.  So after a
    restart, every enabled task whose schedule parses has one more cron
    entry than before: a task that was scheduled fires twice from then
    on. *)
Theorem restart_schedules_again {E : Type} (time_Now : E -> Time)
    (cronParse : string -> option error) (scheduleNext : string -> Time -> option Time)
    (s : @Scheduler E) key task :
  running s = true ->
  task_faults (taskRepo (runner s)) = [] ->
  tasks (taskRepo (runner s)) !! key = Some task ->
  model.TaskStatus_ task = model.TaskStatusEnabled ->
  cronParse (normalized (model.Schedule task)) = None ->
  let restarted := Start time_Now cronParse scheduleNext (Stop s) in
  snd restarted = None /\
  running (fst restarted) = true /\
  length (jobs s (model.ID task)) + 1 <= length (jobs (fst restarted) (model.ID task)).
Proof.
  intros Hr Hf Hk Hen Hp restarted. subst restarted.
  unfold Stop. rewrite Hr. cbn [negb]. unfold Start. cbn [running runner cron entryMap].
  rewrite (FindEnabled_ok _ Hf), withTaskRepo_same.
  set (enabled := List.filter _ _).
  assert (Hin : task ∈ enabled).
  { apply elem_of_filter. split; [|by apply bool_decide_eq_true].
    apply list_elem_of_fmap. exists (key, task). split; [done|]. by apply elem_of_map_to_list. }
  match goal with
  | |- context [scheduleAll _ _ _ ?s0 enabled] =>
      destruct (scheduleAll_adds time_Now cronParse scheduleNext enabled task s0 Hin
                  (conj Hen Hp)) as [Hlen _];
        destruct (scheduleAll time_Now cronParse scheduleNext s0 enabled) as [c rn m b]
  end.
  cbn [fst snd running]. split; [done|]. split; [done|].
  unfold jobs in *. cbn [cron entries] in *. exact Hlen.
Qed.

(** The two tasks of the small world, started, stopped and started
    again: each has two entries. *)
Lemma restart_schedules_again_witness :
  let s := fst (Start RunnerFacts.clock sixFields (fun _ _ => None) idle) in
  let restarted := fst (Start RunnerFacts.clock sixFields (fun _ _ => None) (Stop s)) in
  length (jobs s "t1") = 1 /\ 2 <= length (jobs restarted "t1").
Proof.
  intros s restarted. split; [by vm_compute|].
  destruct (restart_schedules_again RunnerFacts.clock sixFields (fun _ _ => None) s "t1"
              RunnerFacts.quiet) as (_ & _ & Hlen).
  - by vm_compute.
  - by vm_compute.
  - by vm_compute.
  - reflexivity.
  - by vm_compute.
  - exact Hlen.
Defined.

Lemma RemoveTask_unmapped {E : Type} (s : @Scheduler E) taskID :
  entryMap (RemoveTask s taskID) !! taskID = None /\
  runner (RemoveTask s taskID) = runner s.
Proof.
  unfold RemoveTask. destruct (entryMap s !! taskID) eqn:Hm; simpl; [|done].
  split; [apply lookup_delete_eq|done].
Qed.

(** X28: a task that cannot be read.  When the task is not in the table,
    or reading it fails, a manual trigger returns "task not found", or
    the read error, and runs nothing; a scheduled firing runs nothing and
    removes the task from the scheduler, also when it was only the read
    that failed: the entry map has no binding for it afterwards, and in
    a consistent scheduler no cron entry.  A firing that finds the task
    in any status but [enabled] does nothing. *)
Theorem unreadable_task_is_unscheduled {E : Type} (time_Now : E -> Time) (X : @Executors E)
    (scheduleNext : string -> Time -> option Time) (s : @Scheduler E) taskID triggeredBy :
  let read := FindTaskByID (taskRepo (runner s)) taskID in
  let s0 := {| cron := cron s; runner := withTaskRepo (runner s) (fst read);
               entryMap := entryMap s; running := running s |} in
  let fired := fire time_Now X scheduleNext s taskID in
  let unscheduled :=
    fired = RemoveTask s0 taskID /\
    entryMap fired !! taskID = None /\
    (consistent s -> jobs fired taskID = []) /\
    execRepo (runner fired) = execRepo (runner s) /\
    env (runner fired) = env (runner s) in
  match snd read with
  | (_, Some err) =>
      TriggerTask time_Now X s taskID triggeredBy = (s0, (None, Some err)) /\ unscheduled
  | (None, None) =>
      TriggerTask time_Now X s taskID triggeredBy
      = (s0, (None, Some (errorString "task not found"))) /\ unscheduled
  | (Some task, None) =>
      model.TaskStatus_ task <> model.TaskStatusEnabled -> fired = s0
  end.
Proof.
  intros read s0 fired unscheduled.
  assert (Hun : fired = RemoveTask s0 taskID -> unscheduled).
  { intros Hf. subst unscheduled. split; [done|]. rewrite Hf.
    destruct (RemoveTask_unmapped s0 taskID) as [Hm Hr]. split; [done|]. split.
    - intros Hc. by apply RemoveTask_facts.
    - rewrite Hr. by destruct s as [c [tr xr e] m b]. }
  subst fired s0 read. unfold TriggerTask, fire in *.
  destruct (FindTaskByID (taskRepo (runner s)) taskID) as [tr [[task|] [err|]]];
    cbn [fst snd] in *; try (split; [done|by apply Hun]).
  intros Hne. case_bool_decide; [done|]. by rewrite bool_decide_false.
Qed.

End ScheduleFacts.

(** ** The chat sink *)

Module DiscordFacts.

Lemma length_append (a b : string) :
  String.length (a +:+ b) = String.length a + String.length b.
Proof.
  induction a as [|c a IH]; [done|].
  change (S (String.length (a +:+ b)) = S (String.length a + String.length b)). by f_equal.
Qed.

Lemma length_substring (n : nat) : forall s,
  String.length (String.substring 0 n s) = Nat.min n (String.length s).
Proof. induction n as [|n IH]; intros [|c s]; simpl; auto. Qed.

Lemma len_append (a b : string) :
  gostrings.len (a +:+ b) = (gostrings.len a + gostrings.len b)%Z.
Proof. unfold gostrings.len. rewrite length_append. lia. Qed.

Lemma sliceTo_Some s n :
  (0 <= n <= gostrings.len s)%Z ->
  exists head, gostrings.sliceTo s n = Some head /\ gostrings.len head = n.
Proof.
  intros H. unfold gostrings.sliceTo. rewrite bool_decide_true by done.
  eexists. split; [reflexivity|]. unfold gostrings.len in *. rewrite length_substring. lia.
Qed.

Lemma sliceTo_None s n :
  gostrings.sliceTo s n = None <-> ~ (0 <= n <= gostrings.len s)%Z.
Proof. unfold gostrings.sliceTo. by case_bool_decide. Qed.

(** [truncate] with a bound of at least 3 never panics and never answers
    more than the bound. *)
Lemma truncate_bound s maxLen :
  (3 <= maxLen)%Z ->
  exists t, discord.truncate s maxLen = Some t /\
    (gostrings.len t <= maxLen)%Z /\
    (gostrings.len s <= maxLen -> t = s)%Z /\
    (maxLen < gostrings.len s ->
       gostrings.len t = maxLen /\
       exists head, t = head +:+ "..." /\ gostrings.sliceTo s (maxLen - 3) = Some head)%Z.
Proof.
  intros Hm. unfold discord.truncate. case_bool_decide as Hlen.
  - exists s. split; [done|]. split; [done|]. split; [done|]. intros; lia.
  - destruct (sliceTo_Some s (maxLen - 3)) as (head & -> & Hh); [lia|].
    eexists. split; [reflexivity|]. rewrite len_append, Hh.
    change (gostrings.len "...") with 3%Z. split; [lia|]. split; [intros; lia|].
    intros _. split; [lia|]. eauto.
Qed.

Lemma cut_bound s :
  exists t, discord.cut s = Some t /\
    gostrings.len t = Z.min (gostrings.len s) 2000 /\
    (gostrings.len s <= 2000 -> t = s)%Z.
Proof.
  unfold discord.cut. case_bool_decide as Hlen.
  - destruct (sliceTo_Some s 1997) as (head & -> & Hh); [lia|].
    eexists. split; [reflexivity|]. rewrite len_append, Hh.
    change (gostrings.len "...") with 3%Z. split; [lia|intros; lia].
  - exists s. split; [done|]. split; [lia|done].
Qed.

(** [maskWebhook] panics exactly on a URL of 20 to 29 bytes. *)
Lemma maskWebhook_spec url :
  match discord.maskWebhook url with
  | None => (20 <= gostrings.len url < 30)%Z
  | Some masked =>
      ~ (20 <= gostrings.len url < 30)%Z /\ (gostrings.len masked <= 33)%Z /\
      ((gostrings.len url < 20)%Z -> masked = "***") /\
      ((30 <= gostrings.len url)%Z ->
         exists head, gostrings.sliceTo url 30 = Some head /\ masked = head +:+ "***")
  end.
Proof.
  unfold discord.maskWebhook. case_bool_decide as Hlen.
  - split; [lia|]. split; [by vm_compute|]. split; [done|lia].
  - destruct (gostrings.sliceTo url 30) as [head|] eqn:Hs.
    + assert (Hin : (0 <= 30 <= gostrings.len url)%Z).
      { destruct (decide (0 <= 30 <= gostrings.len url)%Z) as [|Hn]; [done|].
        apply sliceTo_None in Hn. congruence. }
      destruct (sliceTo_Some url 30 Hin) as (head' & Hs' & Hh). simplify_eq.
      split; [lia|]. rewrite len_append, Hh. change (gostrings.len "***") with 3%Z.
      split; [lia|]. split; [lia|]. eauto.
    + apply sliceTo_None in Hs. lia.
Qed.

(** An embed within the limits that the code aims at. *)
Definition bounded (e : discord.DiscordEmbed.t) : Prop :=
  (gostrings.len (discord.DiscordEmbed.Title e) <= 256)%Z /\
  (gostrings.len (discord.DiscordEmbed.Description e) <= 4096)%Z.

Section Message.

Context {T : Type}.
Variable time_Parse : string -> string -> option T.
Variable Format_RFC3339 : T -> string.
Variable executeTemplate : string -> model.Data -> string + error.
Variable MarshalIndent : model.Data -> string.

Lemma scrapedEmbeds_spec color items : forall i embeds,
  (0 <= i)%Z ->
  exists new,
    discord.scrapedEmbeds items color i embeds = Some (embeds ++ new) /\
    length new = Nat.min (length items) (Z.to_nat (10 - i)) /\
    Forall bounded new.
Proof.
  induction items as [|item rest IH]; intros i embeds Hi; simpl.
  - exists []. by rewrite app_nil_r.
  - case_bool_decide as Hten.
    + exists []. rewrite app_nil_r. split; [done|]. split; [|done].
      replace (Z.to_nat (10 - i)) with 0 by lia. done.
    + destruct (truncate_bound (ScrapedItem.Title item) 256) as (title & -> & Ht & _); [lia|].
      destruct (truncate_bound (ScrapedItem.Description item) 4096) as (descr & -> & Hd & _);
        [lia|].
      match goal with
      | |- context [discord.scrapedEmbeds rest color (i + 1) (embeds ++ [?e])] =>
          destruct (IH (i + 1)%Z (embeds ++ [e])) as (new & -> & Hlen & Hall); [lia|];
            exists (e :: new)
      end.
      rewrite <- app_assoc. split; [done|]. split.
      { replace (Z.to_nat (10 - i)) with (S (Z.to_nat (10 - (i + 1)))) by lia.
        simpl. by rewrite Hlen. }
      constructor; [by split|done].
Qed.

Lemma feedEmbeds_spec color items : forall i embeds,
  (0 <= i)%Z ->
  exists new,
    discord.feedEmbeds time_Parse Format_RFC3339 items color i embeds = Some (embeds ++ new) /\
    length new = Nat.min (length items) (Z.to_nat (10 - i)) /\
    Forall bounded new.
Proof.
  induction items as [|item rest IH]; intros i embeds Hi; simpl.
  - exists []. by rewrite app_nil_r.
  - case_bool_decide as Hten.
    + exists []. rewrite app_nil_r. split; [done|]. split; [|done].
      replace (Z.to_nat (10 - i)) with 0 by lia. done.
    + destruct (truncate_bound (RSSItem.Title item) 256) as (title & -> & Ht & _); [lia|].
      destruct (truncate_bound (RSSItem.Description item) 4096) as (descr & -> & Hd & _);
        [lia|].
      match goal with
      | |- context [discord.feedEmbeds _ _ rest color (i + 1) (embeds ++ [?e])] =>
          destruct (IH (i + 1)%Z (embeds ++ [e])) as (new & -> & Hlen & Hall); [lia|];
            exists (e :: new)
      end.
      rewrite <- app_assoc. split; [done|]. split.
      { replace (Z.to_nat (10 - i)) with (S (Z.to_nat (10 - (i + 1)))) by lia.
        simpl. by rewrite Hlen. }
      constructor; [by split|done].
Qed.

End Message.

(** X29: the message that is sent.  [formatMessage] never panics; the
    only error it returns is the error of the template.  The message
    carries the user name and the avatar of the config, at most 10
    embeds, each with a title of at most 256 bytes and a description of
    at most 4096 bytes.  A string (from the AI step) is sent as the
    content, whatever the template, and an expanded template likewise,
    each cut to 2000 bytes.  Without a template, scraped items and feed
    items are sent as embeds, one for each of the first 10, with no
    content; any other data is sent as its JSON, cut to 2000 bytes and
    then put in a code fence, which makes a content of up to 2012
    bytes. *)
Theorem discord_message_bounds {T : Type} (time_Parse : string -> string -> option T)
    (Format_RFC3339 : T -> string) (executeTemplate : string -> model.Data -> string + error)
    (MarshalIndent : model.Data -> string) input tmplStr username avatarURL color :
  match discord.formatMessage time_Parse Format_RFC3339 executeTemplate MarshalIndent
                              input tmplStr username avatarURL color with
  | None => False
  | Some (inr err) =>
      tmplStr <> "" /\ executeTemplate tmplStr (model.Data_ input) = inr err
  | Some (inl message) =>
      discord.DiscordMessage.Username message = username /\
      discord.DiscordMessage.AvatarURL message = avatarURL /\
      length (discord.DiscordMessage.Embeds message) <= 10 /\
      Forall bounded (discord.DiscordMessage.Embeds message) /\
      (gostrings.len (discord.DiscordMessage.Content message) <= 2012)%Z /\
      match model.Data_ input with
      | model.DataString str =>
          discord.DiscordMessage.Embeds message = [] /\
          gostrings.len (discord.DiscordMessage.Content message)
          = Z.min (gostrings.len str) 2000 /\
          ((gostrings.len str <= 2000)%Z -> discord.DiscordMessage.Content message = str)
      | data =>
          if isEmpty tmplStr then
            match data with
            | model.DataScrapedItems v =>
                discord.DiscordMessage.Content message = "" /\
                length (discord.DiscordMessage.Embeds message) = Nat.min (length v) 10
            | model.DataRSSItems v =>
                discord.DiscordMessage.Content message = "" /\
                length (discord.DiscordMessage.Embeds message) = Nat.min (length v) 10
            | _ =>
                discord.DiscordMessage.Embeds message = [] /\
                gostrings.len (discord.DiscordMessage.Content message)
                = (Z.min (gostrings.len (MarshalIndent data)) 2000 + 12)%Z
            end
          else
            discord.DiscordMessage.Embeds message = [] /\
            exists content,
              executeTemplate tmplStr data = inl content /\
              gostrings.len (discord.DiscordMessage.Content message)
              = Z.min (gostrings.len content) 2000
      end
  end.
Proof.
  unfold discord.formatMessage.
  assert (Hfence : forall content,
            gostrings.len ("```json" +:+ String "010"%char "" +:+ content
                           +:+ String "010"%char "" +:+ "```")
            = (gostrings.len content + 12)%Z).
  { intros content. rewrite !len_append. unfold gostrings.len. simpl. lia. }
  assert (Hother : forall data,
            (discord.createEmbeds time_Parse Format_RFC3339 data color
             = Some (inr (errorString "unsupported data type for embeds"))) ->
            match
              (if negb (isEmpty tmplStr) then
                 match executeTemplate tmplStr data with
                 | inr err => Some (inr err)
                 | inl content =>
                     match discord.cut content with
                     | Some content =>
                         Some (inl {| discord.DiscordMessage.Content := content;
                                      discord.DiscordMessage.Embeds := [];
                                      discord.DiscordMessage.Username := username;
                                      discord.DiscordMessage.AvatarURL := avatarURL |})
                     | None => None
                     end
                 end
               else
                 match discord.createEmbeds time_Parse Format_RFC3339 data color with
                 | None => None
                 | Some (inr _) =>
                     match discord.cut (MarshalIndent data) with
                     | Some content =>
                         Some (inl {| discord.DiscordMessage.Content :=
                                        "```json" +:+ String "010"%char "" +:+ content
                                        +:+ String "010"%char "" +:+ "```";
                                      discord.DiscordMessage.Embeds := [];
                                      discord.DiscordMessage.Username := username;
                                      discord.DiscordMessage.AvatarURL := avatarURL |})
                     | None => None
                     end
                 | Some (inl embeds) =>
                     Some (inl {| discord.DiscordMessage.Content := "";
                                  discord.DiscordMessage.Embeds := embeds;
                                  discord.DiscordMessage.Username := username;
                                  discord.DiscordMessage.AvatarURL := avatarURL |})
                 end)
            with
            | None => False
            | Some (inr err) => tmplStr <> "" /\ executeTemplate tmplStr data = inr err
            | Some (inl message) =>
                discord.DiscordMessage.Username message = username /\
                discord.DiscordMessage.AvatarURL message = avatarURL /\
                length (discord.DiscordMessage.Embeds message) <= 10 /\
                Forall bounded (discord.DiscordMessage.Embeds message) /\
                (gostrings.len (discord.DiscordMessage.Content message) <= 2012)%Z /\
                (if isEmpty tmplStr then
                   discord.DiscordMessage.Embeds message = [] /\
                   gostrings.len (discord.DiscordMessage.Content message)
                   = (Z.min (gostrings.len (MarshalIndent data)) 2000 + 12)%Z
                 else
                   discord.DiscordMessage.Embeds message = [] /\
                   exists content,
                     executeTemplate tmplStr data = inl content /\
                     gostrings.len (discord.DiscordMessage.Content message)
                     = Z.min (gostrings.len content) 2000)
            end).
  { intros data Hce. destruct (isEmpty tmplStr) eqn:Hempty; simpl.
    - rewrite Hce. destruct (cut_bound (MarshalIndent data)) as (t & -> & Hlen & _).
      simpl. rewrite Hfence, Hlen. repeat (split; [first [done|lia|by constructor]|]). lia.
    - apply bool_decide_eq_false in Hempty.
      destruct (executeTemplate tmplStr data) as [content|err] eqn:Hx; [|done].
      destruct (cut_bound content) as (t & -> & Hlen & _). simpl.
      repeat (split; [first [done|lia|by constructor]|]).
      exists content. split; [done|lia]. }
  assert (Htmpl : forall data,
            isEmpty tmplStr = false ->
            match
              match executeTemplate tmplStr data with
              | inr err => Some (inr err)
              | inl content =>
                  match discord.cut content with
                  | Some content =>
                      Some (inl {| discord.DiscordMessage.Content := content;
                                   discord.DiscordMessage.Embeds := [];
                                   discord.DiscordMessage.Username := username;
                                   discord.DiscordMessage.AvatarURL := avatarURL |})
                  | None => None
                  end
              end
            with
            | None => False
            | Some (inr err) => tmplStr <> "" /\ executeTemplate tmplStr data = inr err
            | Some (inl message) =>
                discord.DiscordMessage.Username message = username /\
                discord.DiscordMessage.AvatarURL message = avatarURL /\
                length (discord.DiscordMessage.Embeds message) <= 10 /\
                Forall bounded (discord.DiscordMessage.Embeds message) /\
                (gostrings.len (discord.DiscordMessage.Content message) <= 2012)%Z /\
                discord.DiscordMessage.Embeds message = [] /\
                exists content,
                  executeTemplate tmplStr data = inl content /\
                  gostrings.len (discord.DiscordMessage.Content message)
                  = Z.min (gostrings.len content) 2000
            end).
  { intros data Hempty. apply bool_decide_eq_false in Hempty.
    destruct (executeTemplate tmplStr data) as [content|err] eqn:Hx; [|done].
    destruct (cut_bound content) as (t & -> & Hlen & _). simpl.
    repeat (split; [first [done|lia|by constructor]|]).
    exists content. split; [done|lia]. }
  destruct (model.Data_ input) as [|v|v|str|v].
  - by apply Hother.
  - destruct (isEmpty tmplStr) eqn:Hempty; simpl; [|by apply Htmpl].
    destruct (scrapedEmbeds_spec color v 0 []) as (new & -> & Hlen & Hall); [lia|].
    simpl. repeat (split; [first [done|lia|by constructor]|]). lia.
  - destruct (isEmpty tmplStr) eqn:Hempty; simpl; [|by apply Htmpl].
    destruct (feedEmbeds_spec time_Parse Format_RFC3339 color v 0 []) as (new & -> & Hlen & Hall);
      [lia|].
    simpl. repeat (split; [first [done|lia|by constructor]|]). lia.
  - destruct (cut_bound str) as (t & -> & Hlen & Hsame). simpl.
    repeat (split; [first [done|lia|by constructor]|]). done.
  - by apply Hother.
Qed.

Section Sending.

Context {T : Type}.
Variable time_Parse : string -> string -> option T.
Variable Format_RFC3339 : T -> string.
Variable executeTemplate : string -> model.Data -> string + error.
Variable MarshalIndent : model.Data -> string.
Variable Marshal : discord.DiscordMessage.t -> string + error.
Context {Net : Type}.
Variable Do : Net -> string -> string -> Net * ((Z * string) + error).
Variable Now : Net -> Time.
Variable Sleep : Net -> Z -> Net.

(** The webhook a step sends to: the one of its config, if that is a
    non-empty string, and the default one of the executor otherwise. *)
Definition webhookOf (e : discord.Executor) (config : Config) : string :=
  let url := default "" (asString (config !! "webhook_url")) in
  if isEmpty url then discord.defaultWebhook e else url.

Definition messageOf (input : model.ExecutorResult) (config : Config)
  : option (discord.DiscordMessage.t + error) :=
  discord.formatMessage time_Parse Format_RFC3339 executeTemplate MarshalIndent input
    (default "" (asString (config !! "template")))
    (default "" (asString (config !! "username")))
    (default "" (asString (config !! "avatar_url")))
    (default 5793266%Z (asNumber (config !! "color"))).

(** The network after the wait that the rate limit asks for. *)
Definition paced (e : discord.Executor) (net : Net) : Net :=
  if bool_decide (Now net - discord.lastSend e < discord.rateLimit e)%Z
  then Sleep net (discord.rateLimit e - (Now net - discord.lastSend e))
  else net.

Definition stamped (e : discord.Executor) (net : Net) : discord.Executor :=
  {| discord.defaultWebhook := discord.defaultWebhook e;
     discord.rateLimit := discord.rateLimit e;
     discord.lastSend := Now net |}.

Definition noWebhook : error :=
  errorString "no Discord webhook URL configured: set webhook_url in pipeline config, task discord config, or DISCORD_DEFAULT_WEBHOOK environment variable".

Lemma formatMessage_never_panics input tmplStr username avatarURL color :
  discord.formatMessage time_Parse Format_RFC3339 executeTemplate MarshalIndent
                        input tmplStr username avatarURL color <> None.
Proof.
  unfold discord.formatMessage.
  assert (Htmpl : forall data,
            match executeTemplate tmplStr data with
            | inr err => Some (inr err)
            | inl content =>
                match discord.cut content with
                | Some content =>
                    Some (inl {| discord.DiscordMessage.Content := content;
                                 discord.DiscordMessage.Embeds := [];
                                 discord.DiscordMessage.Username := username;
                                 discord.DiscordMessage.AvatarURL := avatarURL |})
                | None => None
                end
            end <> None).
  { intros data. destruct (executeTemplate tmplStr data) as [content|err]; [|done].
    by destruct (cut_bound content) as (t & -> & _). }
  assert (Hjson : forall data,
            match discord.cut (MarshalIndent data) with
            | Some content =>
                Some (inl {| discord.DiscordMessage.Content :=
                               "```json" +:+ String "010"%char "" +:+ content
                               +:+ String "010"%char "" +:+ "```";
                             discord.DiscordMessage.Embeds := [];
                             discord.DiscordMessage.Username := username;
                             discord.DiscordMessage.AvatarURL := avatarURL |})
            | None => None
            end <> (None : option (discord.DiscordMessage.t + error))).
  { intros data. by destruct (cut_bound (MarshalIndent data)) as (t & -> & _). }
  destruct (model.Data_ input) as [|v|v|str|v];
    try (destruct (negb (isEmpty tmplStr)); [apply Htmpl|]); simpl.
  - apply Hjson.
  - destruct (scrapedEmbeds_spec color v 0 []) as (new & -> & _); [lia|]. done.
  - destruct (feedEmbeds_spec time_Parse Format_RFC3339 color v 0 []) as (new & -> & _);
      [lia|]. done.
  - by destruct (cut_bound str) as (t & -> & _).
  - apply Hjson.
Qed.

End Sending.

(** X30: the chat step.  Without input it fails with "discord executor
    requires input data", and without a webhook (none in the config and
    no default) with "no Discord webhook URL configured: ..."; in both
    cases nothing is sent.  A non-empty [webhook_url] of the config wins
    over the default webhook.  An error of the template or of the send is
    returned wrapped, and the time of the last send is not touched.
    After a send that succeeded the time of the last send is set; the
    step then panics if the webhook URL has 20 to 29 bytes (the message
    is sent all the same), and otherwise answers the status, the masked
    webhook (at most 33 bytes) and the item count of its input. *)
Theorem discord_Execute_spec {T : Type} (time_Parse : string -> string -> option T)
    (Format_RFC3339 : T -> string) (executeTemplate : string -> model.Data -> string + error)
    (MarshalIndent : model.Data -> string)
    (Marshal : discord.DiscordMessage.t -> string + error) {Net : Type}
    (Do : Net -> string -> string -> Net * ((Z * string) + error))
    (Now : Net -> Time) (Sleep : Net -> Z -> Net) e net (config : Config) :
  let execute :=
    discord.Execute time_Parse Format_RFC3339 executeTemplate MarshalIndent Marshal
                    Do Now Sleep e net in
  let url := webhookOf e config in
  execute None config
  = (e, net, Some (None, Some (errorString "discord executor requires input data"))) /\
  forall input,
    if isEmpty url then execute (Some input) config = (e, net, Some (None, Some noWebhook))
    else
      match messageOf time_Parse Format_RFC3339 executeTemplate MarshalIndent input config with
      | None => False
      | Some (inr err) =>
          execute (Some input) config
          = (e, net, Some (None, Some (Errorf_w "failed to format message: " err)))
      | Some (inl message) =>
          let sent := discord.send Marshal Do (paced Now Sleep e net) url message in
          match snd sent with
          | Some err =>
              execute (Some input) config
              = (e, fst sent,
                 Some (None, Some (Errorf_w "failed to send Discord message: " err)))
          | None =>
              if bool_decide (20 <= gostrings.len url < 30)%Z
              then execute (Some input) config = (stamped Now e (fst sent), fst sent, None)
              else
                exists masked,
                  discord.maskWebhook url = Some masked /\
                  (gostrings.len masked <= 33)%Z /\
                  execute (Some input) config
                  = (stamped Now e (fst sent), fst sent,
                     Some (Some {| model.Data_ :=
                                     model.DataOther
                                       (VObject [("status", VString "sent");
                                                 ("webhook", VString masked)]);
                                   model.Metadata :=
                                     {[ "items_sent" := VNumber (model.ItemCount input) ]};
                                   model.ItemCount := model.ItemCount input |}, None))
          end
      end.
Proof.
  intros execute url. subst execute url. split; [done|]. intros input.
  unfold discord.Execute. cbv zeta. fold (webhookOf e config).
  fold (messageOf time_Parse Format_RFC3339 executeTemplate MarshalIndent input config).
  destruct (isEmpty (webhookOf e config)); [done|].
  pose proof (formatMessage_never_panics time_Parse Format_RFC3339 executeTemplate
                MarshalIndent input
                (default "" (asString (config !! "template")))
                (default "" (asString (config !! "username")))
                (default "" (asString (config !! "avatar_url")))
                (default 5793266%Z (asNumber (config !! "color")))) as Hnp.
  fold (messageOf time_Parse Format_RFC3339 executeTemplate MarshalIndent input config) in Hnp.
  destruct (messageOf _ _ _ _ input config) as [[message|err]|]; [|done|done].
  fold (paced Now Sleep e net).
  destruct (discord.send Marshal Do (paced Now Sleep e net) (webhookOf e config) message)
    as [net' [err|]]; cbn [fst snd]; [done|].
  fold (stamped Now e net').
  pose proof (maskWebhook_spec (webhookOf e config)) as Hm.
  destruct (discord.maskWebhook (webhookOf e config)) as [masked|].
  - destruct Hm as (Hout & Hlen & _). rewrite bool_decide_false by done.
    exists masked. by repeat split.
  - by rewrite bool_decide_true.
Qed.

End DiscordFacts.
